(** * CEDA archive scripts: inventory, search and download

    A shallow embedding of the three scripts of the repository

    - [ceda-query_ccmi1_xml-urlib_tokens.py]  (module [Ccmi1]),
    - [ceda-query_ccmi2022_xml-urllib.py]     (module [Ccmi2022]),
    - [python_ceda-ftp.py]                    (module [Ftp]),

    as programs of a state-and-exception monad over an explicit world
    (the remote servers are oracles, the local disk is a finite map),
    followed by the properties of the specification checked against them. *)

From Stdlib Require Import ZArith Ascii String.
From stdpp Require Import gmap strings list sorting.

Set Warnings "-register-all".

Local Open Scope Z_scope.

(** ** Python exceptions and the program monad *)

Inductive exn : Type :=
  | UnboundLocalError (name : string)
  | HTTPError
  | URLError
  | ParseError
  | KeyError (key : string)
  | IndexError
  | ValueError
  | TypeError
  | OverflowError
  | OSError
  | FileExistsError
  | RequestException
  | AttributeError
  | SyntaxError
  | FTPError
  | KeyboardInterrupt.

Inductive outcome (A : Type) : Type :=
  | Ok (a : A)
  | Raise (e : exn).
Arguments Ok {A} a.
Arguments Raise {A} e.

Section Monad.
Context {S : Type}.

(** A program reads and writes the world [S] and either returns or
    raises; the world reached is kept in both cases. *)
Definition io (A : Type) : Type := S -> outcome A * S.

Definition ret {A} (a : A) : io A := fun w => (Ok a, w).

Definition raise {A} (e : exn) : io A := fun w => (Raise e, w).

Definition bind {A B} (m : io A) (k : A -> io B) : io B :=
  fun w =>
    match m w with
    | (Ok a, w') => k a w'
    | (Raise e, w') => (Raise e, w')
    end.

Definition get_world : io S := fun w => (Ok w, w).

Definition modify (f : S -> S) : io unit := fun w => (Ok tt, f w).

(** [try: body except: handler]; the handler sees the exception. *)
Definition try_except {A} (body : io A) (handler : exn -> io A) : io A :=
  fun w =>
    match body w with
    | (Ok a, w') => (Ok a, w')
    | (Raise e, w') => handler e w'
    end.

(** [for x in xs: body x]; an exception leaves the loop. *)
Fixpoint for_each {A} (xs : list A) (body : A -> io unit) : io unit :=
  match xs with
  | [] => ret tt
  | x :: rest => bind (body x) (fun _ => for_each rest body)
  end.

(** A loop that threads an accumulator (the local variables it updates). *)
Fixpoint fold_each {A B} (xs : list A) (acc : B) (body : B -> A -> io B)
  : io B :=
  match xs with
  | [] => ret acc
  | x :: rest => bind (body acc x) (fun acc' => fold_each rest acc' body)
  end.

Definition lift_outcome {A} (o : outcome A) : io A :=
  match o with
  | Ok a => ret a
  | Raise e => raise e
  end.
End Monad.

Arguments io S A : clear implicits.

Notation "x <- c1 ;; c2" := (bind c1 (fun x => c2))
  (at level 100, c1 at next level, right associativity).
Notation "c1 ;;; c2" := (bind c1 (fun _ => c2))
  (at level 100, right associativity).

(** [f <$$> m] applies [f] to what [m] returns. *)
Definition io_map {S A B} (f : A -> B) (m : io S A) : io S B :=
  bind m (fun a => ret (f a)).
Infix "<$$>" := io_map (at level 61, left associativity).

(** ** Python values

    The inventory is a nested Python list whose leaves are strings and
    integers; lists are indexed and updated by position. *)

Inductive pyval : Type :=
  | PStr (s : string)
  | PInt (z : Z)
  | PList (l : list pyval).

(** [range(lo, hi)] for the non-negative bounds the scripts use. *)
Definition py_range (lo hi : nat) : list nat := seq lo (hi - lo).

(** [l.insert(i, x)]: an index past the end appends. *)
Definition py_insert {A} (i : nat) (x : A) (l : list A) : list A :=
  take i l ++ x :: drop i l.

(** [l[i]] raises [IndexError] out of range. *)
Definition py_index {A} (l : list A) (i : nat) : outcome A :=
  match l !! i with
  | Some x => Ok x
  | None => Raise IndexError
  end.

(** [v[i]]: a list is indexed by position, a string yields the
    one-character string at that position, an integer cannot be indexed. *)
Definition py_getitem (v : pyval) (i : nat) : outcome pyval :=
  match v with
  | PList l => py_index l i
  | PStr s =>
      match String.get i s with
      | Some c => Ok (PStr (String c ""))
      | None => Raise IndexError
      end
  | PInt _ => Raise TypeError
  end.

(** [len(v)]; the scripts take it of lists only. *)
Definition length_of (v : pyval) : nat :=
  match v with
  | PList l => length l
  | PStr s => String.length s
  | PInt _ => O
  end.

(** The operand of a string concatenation must be a string. *)
Definition py_str (v : pyval) : outcome string :=
  match v with
  | PStr s => Ok s
  | _ => Raise TypeError
  end.

(** [v.insert(i, x)]: only lists have the method. *)
Definition py_insert_method (i : nat) (x : pyval) (v : pyval)
  : outcome pyval :=
  match v with
  | PList l => Ok (PList (py_insert i x l))
  | _ => Raise AttributeError
  end.

(** [v.append(x)]. *)
Definition py_append_method (x : pyval) (v : pyval) : outcome pyval :=
  match v with
  | PList l => Ok (PList (l ++ [x]))
  | _ => Raise AttributeError
  end.

(** [v[i1][i2]...[ik].method(...)]: the list reached by the indices is
    updated in place. The lists of the inventory are never shared, so
    the update is an update of the value. *)
Fixpoint py_update (path : list nat) (f : pyval -> outcome pyval)
    (v : pyval) : outcome pyval :=
  match path with
  | [] => f v
  | i :: rest =>
      match v with
      | PList l =>
          match l !! i with
          | None => Raise IndexError
          | Some x =>
              match py_update rest f x with
              | Ok x' => Ok (PList (<[i:=x']> l))
              | Raise e => Raise e
              end
          end
      | PStr s =>
          match String.get i s with
          | None => Raise IndexError
          | Some c =>
              match py_update rest f (PStr (String c "")) with
              | Ok _ => Ok v
              | Raise e => Raise e
              end
          end
      | PInt _ => Raise TypeError
      end
  end.

Definition obind {A B} (o : outcome A) (k : A -> outcome B) : outcome B :=
  match o with
  | Ok a => k a
  | Raise e => Raise e
  end.

(** [v[i1][i2]...[ik]]. *)
Fixpoint py_get_path (v : pyval) (path : list nat) : outcome pyval :=
  match path with
  | [] => Ok v
  | i :: rest => obind (py_getitem v i) (fun x => py_get_path x rest)
  end.

(** A string read at [v[i1]...[ik]] for a concatenation. *)
Definition py_str_at (v : pyval) (path : list nat) : outcome string :=
  obind (py_get_path v path) py_str.

(** [x in l] for a list [l] of strings: only a string can be equal to
    one of them. *)
Definition py_in (x : pyval) (l : list string) : bool :=
  match x with
  | PStr s => bool_decide (s ∈ l)
  | _ => false
  end.

(** [s[1:]]. *)
Definition string_tail (s : string) : string :=
  match s with
  | EmptyString => EmptyString
  | String _ rest => rest
  end.

(** ** The text of a Python value

    [pprint] writes a nested list of strings and integers as its
    literal: brackets, commas, quoted strings and decimal numbers. The
    literal is modelled by its tokens, the layout by the white space put
    before each token. [pformat] below is the text on one line, which is
    what [pprint] writes for a value whose [repr] fits the line width,
    such as the inventory of an archive without institutions; how
    [pprint] wraps a longer value, and how numpy writes its integers,
    is left to the libraries and no property depends on it. *)

Inductive token : Type :=
  | TLBracket
  | TRBracket
  | TComma
  | TString (s : string)
  | TInt (z : Z).

Fixpoint tokens_of (v : pyval) : list token :=
  match v with
  | PStr s => [TString s]
  | PInt z => [TInt z]
  | PList l =>
      TLBracket ::
      (fix items (l : list pyval) : list token :=
         match l with
         | [] => [TRBracket]
         | [x] => tokens_of x ++ [TRBracket]
         | x :: rest => tokens_of x ++ TComma :: items rest
         end) l
  end.

Definition backslash : ascii := ascii_of_N 92.
Definition squote : ascii := ascii_of_N 39.
Definition dquote : ascii := ascii_of_N 34.

Definition hex_char (n : N) : ascii :=
  if (n <? 10)%N then ascii_of_N (48 + n) else ascii_of_N (87 + n).

Fixpoint has_char (c : ascii) (s : string) : bool :=
  match s with
  | EmptyString => false
  | String d rest => Ascii.eqb c d || has_char c rest
  end.

(** [repr] uses the single quote unless the string holds a single
    quote and no double quote. *)
Definition quote_of (s : string) : ascii :=
  if has_char squote s && negb (has_char dquote s) then dquote else squote.

Definition escape_char (q c : ascii) : string :=
  let n := N_of_ascii c in
  if (n =? 92)%N then String backslash (String backslash "")
  else if Ascii.eqb c q then String backslash (String q "")
  else if (n =? 10)%N then String backslash "n"
  else if (n =? 13)%N then String backslash "r"
  else if (n =? 9)%N then String backslash "t"
  else if (n <? 32)%N || (127 <=? n)%N then
    String backslash
      (String "x" (String (hex_char (n / 16)) (String (hex_char (n mod 16)) "")))
  else String c "".

Fixpoint escape (q : ascii) (s : string) : string :=
  match s with
  | EmptyString => EmptyString
  | String c rest => escape_char q c +:+ escape q rest
  end.

Definition repr_str (s : string) : string :=
  let q := quote_of s in
  String q (escape q s +:+ String q "").

(** The decimal digits of [n], most significant first, put before [acc]. *)
Fixpoint digits_before (fuel : nat) (n : N) (acc : string) : string :=
  let acc' := String (ascii_of_N (48 + n mod 10)) acc in
  match fuel with
  | O => acc'
  | S fuel' =>
      if (n <? 10)%N then acc' else digits_before fuel' (n / 10) acc'
  end.

Definition digits (n : N) : string := digits_before (N.size_nat n) n "".

Definition repr_int (z : Z) : string :=
  if z <? 0 then String "-" (digits (Z.to_N (- z))) else digits (Z.to_N z).

Definition token_text (t : token) : string :=
  match t with
  | TLBracket => "["
  | TRBracket => "]"
  | TComma => ","
  | TString s => repr_str s
  | TInt z => repr_int z
  end.

(** A layout gives the white space before each token, from the tokens
    already written ([before], latest first), and after the last one. *)
Fixpoint render (gap : list token -> string) (before : list token)
    (ts : list token) : string :=
  match ts with
  | [] => gap before
  | t :: rest => gap before +:+ token_text t +:+ render gap (t :: before) rest
  end.

(** The layout of [repr], which is the one [pprint] uses for a value
    that fits on a line: a space after each comma. The line ends after
    the bracket that closes the value. *)
Fixpoint depth_of (before : list token) : Z :=
  match before with
  | [] => 0
  | TLBracket :: rest => depth_of rest + 1
  | TRBracket :: rest => depth_of rest - 1
  | _ :: rest => depth_of rest
  end.

Definition newline : string := String (ascii_of_N 10) "".

Definition repr_gap (before : list token) : string :=
  match before with
  | [] => ""
  | TComma :: _ => " "
  | TLBracket :: _ => ""
  | _ :: _ => if depth_of before =? 0 then newline else ""
  end.

Definition pformat (v : pyval) : string := render repr_gap [] (tokens_of v).

(** ** The THREDDS catalog transport *)

(** The two namespace prefixes of [cedans]. *)
Inductive prefix : Type := NsDefault | NsXlink.

Definition cedans (p : prefix) : string :=
  match p with
  | NsDefault => "http://www.unidata.ucar.edu/namespaces/thredds/InvCatalog/v1.0"
  | NsXlink => "http://www.w3.org/1999/xlink"
  end.

(** A tag path [prefix:local] as passed to [findall]: a prefix of
    [cedans] and a name. *)
Record qname : Type := QName { q_prefix : prefix; q_local : string }.

(** ElementTree stores a qualified tag as [{uri}local]. *)
Definition clark (q : qname) : string :=
  "{" +:+ cedans (q_prefix q) +:+ "}" +:+ q_local q.

Inductive element : Type :=
  | Element (tag : string) (attrib : gmap string string)
            (children : list element).

Definition el_tag (e : element) : string :=
  match e with Element t _ _ => t end.
Definition el_attrib (e : element) : gmap string string :=
  match e with Element _ a _ => a end.
Definition el_children (e : element) : list element :=
  match e with Element _ _ c => c end.

(** [e.findall(q, cedans)] for a name [q]: the direct children of [e]
    with that tag. *)
Definition findall (q : qname) (e : element) : list element :=
  filter (fun c => el_tag c = clark q) (el_children e).

(** *** Tag paths

    [findall] takes its path as text. ElementPath reads a path
    [prefix:local] made of two names through the prefix map: a prefix of
    the map gives the tag [{uri}local], which selects among the
    children; a prefix that the map does not hold is refused with
    [SyntaxError], whatever the element. A path of another form (steps,
    wildcards, predicates, names in braces, other characters) is left to
    the library, which may select or raise. *)
Definition is_name_char (c : ascii) : bool :=
  let n := N_of_ascii c in
  ((48 <=? n)%N && (n <=? 57)%N) || ((65 <=? n)%N && (n <=? 90)%N)
  || ((97 <=? n)%N && (n <=? 122)%N) || (n =? 95)%N || (n =? 45)%N.

Fixpoint all_name_chars (s : string) : bool :=
  match s with
  | EmptyString => true
  | String c rest => is_name_char c && all_name_chars rest
  end.

(** A non-empty string of letters, digits, underscores and hyphens. *)
Definition plain_name (s : string) : bool :=
  match s with
  | EmptyString => false
  | _ => all_name_chars s
  end.

(** [path.split(":", 1)] when [path] holds a colon. *)
Fixpoint split_colon (path : string) : option (string * string) :=
  match path with
  | EmptyString => None
  | String c rest =>
      if Ascii.eqb c ":" then Some (EmptyString, rest)
      else match split_colon rest with
           | Some (p, l) => Some (String c p, l)
           | None => None
           end
  end.

Definition prefix_name (p : prefix) : string :=
  match p with
  | NsDefault => "default"
  | NsXlink => "xlink"
  end.

(** The lookup of a prefix in [cedans]. *)
Definition prefix_of (p : string) : option prefix :=
  if String.eqb p "default" then Some NsDefault
  else if String.eqb p "xlink" then Some NsXlink
  else None.

Inductive tag_path : Type :=
  | PlainTag (q : qname)
  | UnknownPrefix
  | OtherPath.

Definition tag_path_of (path : string) : tag_path :=
  match split_colon path with
  | Some (p, l) =>
      if plain_name p && plain_name l then
        match prefix_of p with
        | Some ns => PlainTag (QName ns l)
        | None => UnknownPrefix
        end
      else OtherPath
  | None => OtherPath
  end.

(** [e.findall(path, cedans)]; [lib] is what the library makes of the
    paths that are not two names. *)
Definition findall_path (lib : string -> element -> outcome (list element))
    (path : string) (e : element) : outcome (list element) :=
  match tag_path_of path with
  | PlainTag q => Ok (findall q e)
  | UnknownPrefix => Raise SyntaxError
  | OtherPath => lib path e
  end.

(** What [ET.parse] makes of a response body: it raises an exception
    derived from [Exception], returns a document, or is interrupted
    while it reads the response. *)
Inductive body : Type :=
  | Malformed
  | Document (root : element)
  | ParseInterrupted.

(** What one call of [urlopen] does: it returns a response, raises
    [HTTPError], raises another exception derived from [Exception], or
    is interrupted ([KeyboardInterrupt], which is not derived from
    [Exception] and passes an [except Exception] clause). *)
Inductive open_outcome : Type :=
  | Opened (b : body)
  | OpenHTTPError
  | OpenOtherError
  | OpenInterrupted.

(** What one [session.get] does: it raises an exception of the
    [requests] library, or answers with a status code and a payload. *)
Inductive get_outcome : Type :=
  | GetRaises
  | Response (status : Z) (content : string).

(** What the operating system adds to [open(destfile, 'wb')] and
    [f.write]: nothing, a refusal to open, or a failure while writing
    after the file was truncated and [written] was stored. *)
Inductive write_outcome : Type :=
  | Written
  | OpenFails
  | WriteFails (written : string).

(** The lines the download loops print. *)
Inductive message : Type :=
  | MsgSkipping (destfile : string)
  | MsgDownloading (fileURL : string)
  | MsgDestination (destfile : string)
  | MsgDownloaded (destfile : string)
  | MsgDownloadFailed (fileURL : string)
  | MsgUnexpected (fileURL : string).

(** An entry of the local disk. *)
Inductive node : Type :=
  | File (bytes : string)
  | Directory.

(** The world of the two catalog scripts. [opened] lists every
    [urlopen] attempt and [listed] every call of [get_elements], in
    order; [caught] names the [except] clauses of the search that were
    entered; [requests] lists every [session.get]; [disk] is the local
    file system, by path. *)
Record world : Type := World {
  opened : list string;
  listed : list string;
  caught : list string;
  requests : list string;
  stdout : list message;
  disk : gmap string node
}.

Definition empty_world : world := World [] [] [] [] [] ∅.

(** The environment: the remote servers answer as functions of what was
    asked before, the operating system as a function of the disk. *)
Record env : Type := Env {
  urlopen : list string -> string -> open_outcome;
  session_get : list string -> string -> get_outcome;
  os_mkdir_denied : gmap string node -> string -> bool;
  os_write : gmap string node -> string -> write_outcome
}.

Definition note_opened (url : string) (w : world) : world :=
  World (opened w ++ [url]) (listed w) (caught w) (requests w) (stdout w)
        (disk w).
Definition note_listed (url : string) (w : world) : world :=
  World (opened w) (listed w ++ [url]) (caught w) (requests w) (stdout w)
        (disk w).
Definition note_caught (site : string) (w : world) : world :=
  World (opened w) (listed w) (caught w ++ [site]) (requests w) (stdout w)
        (disk w).
Definition note_request (url : string) (w : world) : world :=
  World (opened w) (listed w) (caught w) (requests w ++ [url]) (stdout w)
        (disk w).
Definition note_printed (m : message) (w : world) : world :=
  World (opened w) (listed w) (caught w) (requests w) (stdout w ++ [m])
        (disk w).
Definition set_disk (d : gmap string node) (w : world) : world :=
  World (opened w) (listed w) (caught w) (requests w) (stdout w) d.

(** One call of [urlopen(url)]. *)
Definition do_urlopen (E : env) (url : string) : io world open_outcome :=
  fun w => (Ok (urlopen E (opened w) url), note_opened url w).

(** ** [int(s)] and numpy integers *)

Definition digit_of (c : ascii) : option N :=
  let n := N_of_ascii c in
  if (48 <=? n)%N && (n <=? 57)%N then Some (n - 48)%N else None.

(** A string is the sequence of its code points, each below 256. Among
    them [int] takes for white space around a number the characters from
    the tab to the carriage return, the blank, and the two Latin-1
    spaces U+0085 and U+00A0; the separators U+001C to U+001F, which
    [str.strip] removes, are not white space to [int]. *)
Definition is_space (c : ascii) : bool :=
  let n := N_of_ascii c in
  ((9 <=? n)%N && (n <=? 13)%N) || (n =? 32)%N || (n =? 133)%N || (n =? 160)%N.

Fixpoint lstrip (s : string) : string :=
  match s with
  | EmptyString => EmptyString
  | String c rest => if is_space c then lstrip rest else s
  end.

Fixpoint rstrip (s : string) : string :=
  match s with
  | EmptyString => EmptyString
  | String c rest =>
      match rstrip rest with
      | EmptyString => if is_space c then EmptyString else String c EmptyString
      | rest' => String c rest'
      end
  end.

(** Decimal digits, with single underscores allowed between them. *)
Fixpoint int_digits (acc : option N) (after_underscore : bool) (s : string)
  : option N :=
  match s with
  | EmptyString => if after_underscore then None else acc
  | String c rest =>
      match digit_of c with
      | Some d => int_digits (Some (10 * default 0%N acc + d)%N) false rest
      | None =>
          if Ascii.eqb c "_" then
            match acc with
            | Some _ =>
                if after_underscore then None else int_digits acc true rest
            | None => None
            end
          else None
      end
  end.

(** The number of decimal digits of a string. *)
Fixpoint digit_count (s : string) : N :=
  match s with
  | EmptyString => 0%N
  | String c rest =>
      (match digit_of c with Some _ => 1 | None => 0 end + digit_count rest)%N
  end.

(** [sys.get_int_max_str_digits()], as the interpreter starts. *)
Definition int_max_str_digits : N := 4300.

(** [int(s)]: white space around, an optional sign, digits; a string of
    more than 4300 digits is refused. *)
Definition py_int (s : string) : outcome Z :=
  let body := rstrip (lstrip s) in
  let '(negative, ds) :=
    match body with
    | String "-" rest => (true, rest)
    | String "+" rest => (false, rest)
    | _ => (false, body)
    end in
  if (int_max_str_digits <? digit_count ds)%N then Raise ValueError
  else
    match int_digits None false ds with
    | Some n => Ok (if negative then - Z.of_N n else Z.of_N n)
    | None => Raise ValueError
    end.

(** A value stored into an array of [dtype=int] must fit 64 bits. *)
Definition np_int64 (z : Z) : outcome Z :=
  if (- 2 ^ 63 <=? z) && (z <? 2 ^ 63) then Ok z else Raise OverflowError.

(** [max(a)] of a non-empty sequence. *)
Definition py_max (a : list Z) : outcome Z :=
  match a with
  | [] => Raise ValueError
  | x :: rest => Ok (foldl Z.max x rest)
  end.

Fixpoint traverse {A B} (f : A -> outcome B) (l : list A)
  : outcome (list B) :=
  match l with
  | [] => Ok []
  | x :: rest =>
      obind (f x) (fun y => obind (traverse f rest) (fun ys => Ok (y :: ys)))
  end.

(** [np.array(v)] of a list of integers. *)
Definition np_array (v : pyval) : outcome (list Z) :=
  match v with
  | PList l =>
      traverse (fun x => match x with PInt z => Ok z | _ => Raise TypeError end) l
  | _ => Raise TypeError
  end.

(** [range(lo, a[i] + 1)] for an array of counts. *)
Definition np_range_to (lo : nat) (a : list Z) (i : nat) : outcome (list nat) :=
  obind (py_index a i) (fun n => Ok (py_range lo (Z.to_nat (n + 1)))).

(** ** Paths, [str.split] and the local disk *)

Definition slash : ascii := "/"%char.

(** [p[:i]] and [p[i:]] for [i = p.rfind('/') + 1]. *)
Fixpoint rsplit_slash (p : string) : string * string :=
  match p with
  | EmptyString => (EmptyString, EmptyString)
  | String c rest =>
      let (head, tail) := rsplit_slash rest in
      match head with
      | EmptyString =>
          if Ascii.eqb c slash then (String c EmptyString, tail)
          else (EmptyString, String c tail)
      | _ => (String c head, tail)
      end
  end.

(** [os.path.basename]. *)
Definition basename (p : string) : string := snd (rsplit_slash p).

Fixpoint all_slashes (s : string) : bool :=
  match s with
  | EmptyString => true
  | String c rest => Ascii.eqb c slash && all_slashes rest
  end.

(** [s.rstrip('/')]. *)
Fixpoint rstrip_slash (s : string) : string :=
  match s with
  | EmptyString => EmptyString
  | String c rest =>
      match rstrip_slash rest with
      | EmptyString => if Ascii.eqb c slash then EmptyString else String c EmptyString
      | rest' => String c rest'
      end
  end.

(** [os.path.dirname]. *)
Definition dirname (p : string) : string :=
  let head := fst (rsplit_slash p) in
  if all_slashes head then head else rstrip_slash head.

Definition starts_with_slash (s : string) : bool :=
  match s with
  | String c _ => Ascii.eqb c slash
  | EmptyString => false
  end.

Fixpoint ends_with_slash (s : string) : bool :=
  match s with
  | EmptyString => false
  | String c EmptyString => Ascii.eqb c slash
  | String _ rest => ends_with_slash rest
  end.

(** One step of [os.path.join]. *)
Definition join2 (path b : string) : string :=
  if starts_with_slash b then b
  else if String.eqb path "" || ends_with_slash path then path +:+ b
  else path +:+ "/" +:+ b.

(** [os.path.join(a, b, c)]. *)
Definition join3 (a b c : string) : string := join2 (join2 a b) c.

(** [s.split(sep)] for a one-character separator. *)
Fixpoint split_on (sep : ascii) (s : string) : list string :=
  match s with
  | EmptyString => [EmptyString]
  | String c rest =>
      if Ascii.eqb c sep then EmptyString :: split_on sep rest
      else match split_on sep rest with
           | field :: fields => String c field :: fields
           | [] => [String c EmptyString]
           end
  end.

(** The directories [os.makedirs(d)] makes sure of: [d] and the
    directories above it, outermost first. *)
Fixpoint dir_chain (fuel : nat) (d : string) : list string :=
  match fuel with
  | O => []
  | S fuel' =>
      if String.eqb d "" || all_slashes d then []
      else dir_chain fuel' (dirname d) ++ [d]
  end.

Definition is_file (d : gmap string node) (p : string) : bool :=
  match d !! p with
  | Some (File _) => true
  | _ => false
  end.

(** [os.path.exists]. *)
Definition path_exists (d : gmap string node) (p : string) : bool :=
  bool_decide (is_Some (d !! p)).

Definition add_directory (d : gmap string node) (p : string)
  : gmap string node :=
  match d !! p with
  | None => <[p:=Directory]> d
  | Some _ => d
  end.

(** [os.makedirs(d, exist_ok=True)]: it raises for the empty path, when
    a file is in the way or when the system refuses, and creates the
    missing directories otherwise. *)
Definition makedirs (E : env) (d : string) : io world unit :=
  fun w =>
    let chain := dir_chain (S (String.length d)) d in
    if String.eqb d "" then (Raise OSError, w)
    else if existsb (is_file (disk w)) chain then (Raise FileExistsError, w)
    else if os_mkdir_denied E (disk w) d then (Raise OSError, w)
    else (Ok tt, set_disk (foldl add_directory (disk w) chain) w).

(** [open(path, 'w')]: the file is created or emptied, unless the path
    is a directory or the system refuses. What the system will do with
    the bytes written next is returned. *)
Definition open_for_writing (E : env) (path : string)
  : io world write_outcome :=
  fun w =>
    match disk w !! path with
    | Some Directory => (Raise OSError, w)
    | _ =>
        match os_write E (disk w) path with
        | OpenFails => (Raise OSError, w)
        | o => (Ok o, set_disk (<[path:=File ""]> (disk w)) w)
        end
    end.

(** [f.write(content)] on the file just opened. *)
Definition write_opened (path content : string) (o : write_outcome)
  : io world unit :=
  fun w =>
    match o with
    | WriteFails written =>
        (Raise OSError, set_disk (<[path:=File written]> (disk w)) w)
    | _ => (Ok tt, set_disk (<[path:=File content]> (disk w)) w)
    end.

(** [with open(path, 'w') as f: f.write(content)]. *)
Definition write_file (E : env) (path content : string) : io world unit :=
  o <- open_for_writing E path ;;
  write_opened path content o.

(** [np.zeros(n, dtype=int)] and [a[i] = v]. *)
Definition np_zeros (n : nat) : list nat := replicate n O.

Definition np_set (a : list nat) (i v : nat) : outcome (list nat) :=
  if bool_decide (i < length a)%nat then Ok (<[i:=v]> a) else Raise IndexError.

Definition py_len_list (l : list nat) : list pyval :=
  (fun n => PInt (Z.of_nat n)) <$> l.

(** One [session.get]. *)
Definition do_get (E : env) (fileURL : string) : io world (Z * string) :=
  fun w =>
    match session_get E (requests w) fileURL with
    | GetRaises => (Raise RequestException, note_request fileURL w)
    | Response status content =>
        (Ok (status, content), note_request fileURL w)
    end.

(** [if verbose: print(m)]. *)
Definition say (verbose : bool) (m : message) : io world unit :=
  if verbose then modify (note_printed m) else ret tt.

(** [fileURL] and [destfile] of a remote file path: the destination is
    [downloaddir/experiment/filename], the experiment being the fourth
    field of the file name. *)
Definition file_url (afile : string) : string :=
  "https://dap.ceda.ac.uk/" +:+ afile.

Definition destination (downloaddir afile : string) : outcome string :=
  let destfilebase := basename afile in
  obind (py_index (split_on "_" destfilebase) 3) (fun experiment =>
  Ok (join3 downloaddir experiment destfilebase)).

(** The two tag paths and the two attributes the scripts pass. *)
Definition default_dataset : qname := QName NsDefault "dataset".
Definition default_catalogRef : qname := QName NsDefault "catalogRef".
Definition xlink_title : string := "{http://www.w3.org/1999/xlink}title".
Definition urlPath : string := "urlPath".

(** *** A directory lister stub

    A catalog server that answers every request at once and reports a
    fixed set of sub-catalogs and of files for each URL. *)

Definition catalog_ref (title : string) : element :=
  Element (clark default_catalogRef) {[xlink_title := title]} [].

Definition file_dataset (path : string) : element :=
  Element (clark default_dataset) {[urlPath := path]} [].

Definition stub_document (refs files : list string) : element :=
  Element "catalog" ∅
    [Element (clark default_dataset) ∅
       ((catalog_ref <$> refs) ++ (file_dataset <$> files))].

Definition stub_env (refs files : string -> list string) : env :=
  Env (fun _ url => Opened (Document (stub_document (refs url) (files url))))
      (fun _ _ => GetRaises)
      (fun _ _ => false)
      (fun _ _ => Written).

(** ** The first two levels of the inventory

    The three scripts build institutions, models and experiments with
    the same loops. [titles] is the script's listing call; [of_inst]
    and [of_model] name the container of an institution and of a model
    (a catalog URL or a remote directory). *)

Section Levels.
Context {W : Type} (titles : string -> io W (list string)).
Context (of_inst : string -> string) (of_model : string -> string -> string).

(** Level 1: the models of each institution. *)
Definition models_loop (instts : list string) : io W (pyval * list nat) :=
  fold_each (py_range 0 (length instts))
    (PList [], np_zeros (length instts))
    (fun '(invntry, nmdls) ii =>
       inst <- lift_outcome (py_index instts ii) ;;
       mname <- titles (of_inst inst) ;;
       nmdls' <- lift_outcome (np_set nmdls ii (length mname)) ;;
       let work := PList [PStr inst; PList (PStr <$> mname)] in
       invntry' <- lift_outcome (py_append_method work invntry) ;;
       ret (invntry', nmdls')).

(** [for ik in range(len(expname)):
       invntry[ii][1].insert(2*ij+ik+1, [expname[ik]])]. *)
Definition insert_experiments (ii ij : nat) (expname : list string)
    (invntry : pyval) : io W pyval :=
  fold_each (py_range 0 (length expname)) invntry
    (fun invntry ik =>
       e <- lift_outcome (py_index expname ik) ;;
       lift_outcome
         (py_update [ii; 1%nat]
            (py_insert_method (2 * ij + ik + 1) (PList [PStr e]))
            invntry)).

(** The body of [for ij in range(nmdls[ii])]; [twork] is the copy of
    [invntry[ii]] taken before the loop. *)
Definition experiments_of_model (ii : nat) (twork : pyval)
    (acc : pyval * list nat * nat) (ij : nat)
  : io W (pyval * list nat * nat) :=
  let '(invntry, nxpts, icnt1) := acc in
  t0 <- lift_outcome (py_getitem twork 0) ;;
  inst <- lift_outcome (py_str t0) ;;
  t1 <- lift_outcome (py_getitem twork 1) ;;
  t1j <- lift_outcome (py_getitem t1 ij) ;;
  model <- lift_outcome (py_str t1j) ;;
  expname <- titles (of_model inst model) ;;
  invntry' <- insert_experiments ii ij expname invntry ;;
  nxpts' <- lift_outcome (np_set nxpts icnt1 (length expname)) ;;
  ret (invntry', nxpts', S icnt1).

(** The body of [for ii in range(ninst)]. *)
Definition experiments_of_institution (nmdls : list nat)
    (acc : pyval * list nat * nat) (ii : nat)
  : io W (pyval * list nat * nat) :=
  twork <- lift_outcome (py_getitem acc.1.1 ii) ;;
  n <- lift_outcome (py_index nmdls ii) ;;
  fold_each (py_range 0 n) acc (experiments_of_model ii twork).

(** Level 2: the experiments of each model. *)
Definition experiments_loop (ninst : nat) (invntry : pyval)
    (nmdls : list nat) : io W (pyval * list nat) :=
  r <- fold_each (py_range 0 ninst)
         (invntry, np_zeros (sum_list nmdls), O)
         (experiments_of_institution nmdls) ;;
  ret (r.1.1, r.1.2).
End Levels.

(** The catalog of an institution and of a model under [root_url]. *)
Definition catalog_of_inst (root_url inst : string) : string :=
  root_url +:+ inst +:+ "/catalog.xml".
Definition catalog_of_model (root_url inst model : string) : string :=
  root_url +:+ inst +:+ "/" +:+ model +:+ "/catalog.xml".

(** A server that answers every request with an HTTP error. *)
Definition failing_env : env :=
  Env (fun _ _ => OpenHTTPError)
      (fun _ _ => GetRaises)
      (fun _ _ => false)
      (fun _ _ => Written).

(** How the retry loop of [get_elements] is left. *)
Inductive loop_exit : Type :=
  | Returned (result : list string)
  | Fell (usock : option body).

Module Ccmi1.

(** [for ntry in range(5)]: [break] on success, [return []] on the
    fifth [HTTPError] and on any other exception that [except Exception]
    catches. *)
Fixpoint retry_loop (E : env) (ntries : list nat) (url : string)
  : io world loop_exit :=
  match ntries with
  | [] => ret (Fell None)
  | ntry :: rest =>
      o <- do_urlopen E url ;;
      match o with
      | Opened b => ret (Fell (Some b))
      | OpenHTTPError =>
          if (ntry =? 4)%nat then ret (Returned []) else retry_loop E rest url
      | OpenOtherError => ret (Returned [])
      | OpenInterrupted => raise KeyboardInterrupt
      end
  end.

(** The two nested [findall] loops: an element without the attribute
    is passed over. *)
Definition attributes_of (root : element) (tag1 tag2 : qname)
    (attribute_name : string) : list string :=
  child ← findall tag1 root;
  work1 ← findall tag2 child;
  match el_attrib work1 !! attribute_name with
  | Some attribute => [attribute]
  | None => []
  end.

Definition get_elements (E : env) (url : string) (tag1 tag2 : qname)
    (attribute_name : string) : io world (list string) :=
  modify (note_listed url) ;;;
  r <- retry_loop E (py_range 0 5) url ;;
  match r with
  | Returned result => ret result
  | Fell None => ret []
  | Fell (Some Malformed) => ret []
  | Fell (Some (Document root)) =>
      ret (attributes_of root tag1 tag2 attribute_name)
  | Fell (Some ParseInterrupted) => raise KeyboardInterrupt
  end.

(** The two nested [findall] loops for tag paths given as text, as the
    function takes them: the paths are read when the loops reach them,
    outside any [try]. *)
Definition attributes_of_paths
    (lib : string -> element -> outcome (list element)) (root : element)
    (tag1 tag2 attribute_name : string) : outcome (list string) :=
  obind (findall_path lib tag1 root) (fun children =>
  obind (traverse
           (fun child =>
              obind (findall_path lib tag2 child) (fun works =>
              Ok (work1 ← works;
                  match el_attrib work1 !! attribute_name with
                  | Some attribute => [attribute]
                  | None => []
                  end)))
           children) (fun rows =>
  Ok (concat rows))).

(** [get_elements(url, tag1, tag2, attribute_name)] for any two tag
    paths; [get_elements] above is this function at two names. *)
Definition get_elements_of_paths
    (lib : string -> element -> outcome (list element)) (E : env)
    (url tag1 tag2 attribute_name : string) : io world (list string) :=
  modify (note_listed url) ;;;
  r <- retry_loop E (py_range 0 5) url ;;
  match r with
  | Returned result => ret result
  | Fell None => ret []
  | Fell (Some Malformed) => ret []
  | Fell (Some (Document root)) =>
      lift_outcome (attributes_of_paths lib root tag1 tag2 attribute_name)
  | Fell (Some ParseInterrupted) => raise KeyboardInterrupt
  end.

(** The listing of a container: the titles of its catalog references. *)
Definition titles (E : env) (url : string) : io world (list string) :=
  get_elements E url default_dataset default_catalogRef xlink_title.

Definition create_inventory_file (E : env) (inventory_file : string)
    (root_url : string) : io world pyval :=
  instts <- titles E (root_url +:+ "catalog.xml") ;;
  let ninst := length instts in
  l1 <- models_loop (titles E) (catalog_of_inst root_url) instts ;;
  l2 <- experiments_loop (titles E) (catalog_of_model root_url) ninst
          l1.1 l1.2 ;;
  let fullinvntry :=
    PList [l2.1; PList [PInt (Z.of_nat ninst)];
           PList (py_len_list l1.2); PList (py_len_list l2.2)] in
  write_file E inventory_file (pformat fullinvntry) ;;;
  ret fullinvntry.

(** [try: body except: ... continue]: [None] stands for [continue];
    the clause entered is recorded under the name of its site. *)
Definition guarded {A} (site : string) (body : io world (option A))
  : io world (option A) :=
  try_except body (fun _ => modify (note_caught site) ;;; ret None).

Definition member (x : string) (l : list string) : bool :=
  bool_decide (x ∈ l).

(** [for var in trgvar: if var in variables: ...] for one version. *)
Definition search_variables (E : env) (root_url var_path : string)
    (trgvar variables : list string) (found_files : list string)
  : io world (list string) :=
  fold_each trgvar found_files
    (fun found_files var =>
       if member var variables then
         let file_path := var_path +:+ "/" +:+ var in
         let file_url := root_url +:+ file_path +:+ "/catalog.xml" in
         try_except
           (files <- get_elements E file_url default_dataset
                       default_dataset urlPath ;;
            ret (found_files ++ files))
           (fun _ => modify (note_caught "files") ;;; ret found_files)
       else ret found_files).

(** [for version in sorted(versions): ...] for one ensemble member. *)
Definition search_versions (E : env) (root_url version_path : string)
    (trgvar versions : list string) (found_files : list string)
  : io world (list string) :=
  fold_each (merge_sort String.le versions) found_files
    (fun found_files version =>
       let var_path := version_path +:+ "/" +:+ version in
       let var_url := root_url +:+ var_path +:+ "/catalog.xml" in
       r <- guarded "variables" (Some <$$> titles E var_url) ;;
       match r with
       | None => ret found_files
       | Some variables =>
           search_variables E root_url var_path trgvar variables found_files
       end).

(** [for ensemble in ensembles: ...]. *)
Definition search_ensembles (E : env) (root_url ensemble_path : string)
    (trgvar ensembles : list string) (found_files : list string)
  : io world (list string) :=
  fold_each ensembles found_files
    (fun found_files ensemble =>
       let version_path := ensemble_path +:+ "/" +:+ ensemble in
       let version_url := root_url +:+ version_path +:+ "/catalog.xml" in
       r <- guarded "versions" (Some <$$> titles E version_url) ;;
       match r with
       | None => ret found_files
       | Some versions =>
           search_versions E root_url version_path trgvar versions
                           found_files
       end).

(** The body of [for expt in trgexpt]. *)
Definition search_experiment (E : env) (root_url : string)
    (trgvar : list string) (trgfreq trgrealm trgfreqname : string)
    (inst model : string) (found_files : list string) (expt : string)
  : io world (list string) :=
  let expt_path := inst +:+ "/" +:+ model +:+ "/" +:+ expt in
  let freq_url := root_url +:+ expt_path +:+ "/" +:+ trgfreq +:+ "/catalog.xml" in
  r1 <- guarded "realms"
          (realms <- titles E freq_url ;;
           ret (if member trgrealm realms then Some tt else None)) ;;
  match r1 with
  | None => ret found_files
  | Some _ =>
      let realm_path := expt_path +:+ "/" +:+ trgfreq +:+ "/" +:+ trgrealm in
      let freqname_url := root_url +:+ realm_path +:+ "/catalog.xml" in
      r2 <- guarded "freqnames"
              (freqnames <- titles E freqname_url ;;
               ret (if member trgfreqname freqnames then Some tt else None)) ;;
      match r2 with
      | None => ret found_files
      | Some _ =>
          let ensemble_path := realm_path +:+ "/" +:+ trgfreqname in
          let ensemble_url := root_url +:+ ensemble_path +:+ "/catalog.xml" in
          r3 <- guarded "ensembles" (Some <$$> titles E ensemble_url) ;;
          match r3 with
          | None => ret found_files
          | Some ensembles =>
              search_ensembles E root_url ensemble_path trgvar ensembles
                               found_files
          end
      end
  end.

(** The body of [for inst in instts]. *)
Definition search_institution (E : env) (root_url : string)
    (trgexpt trgvar : list string) (trgfreq trgrealm trgfreqname : string)
    (found_files : list string) (inst : string) : io world (list string) :=
  let url := root_url +:+ inst +:+ "/catalog.xml" in
  r <- guarded "models" (Some <$$> titles E url) ;;
  match r with
  | None => ret found_files
  | Some models =>
      fold_each models found_files
        (fun found_files model =>
           fold_each trgexpt found_files
             (search_experiment E root_url trgvar trgfreq trgrealm
                                trgfreqname inst model))
  end.

Definition searchfile : string := "CCMI-1_search.log".

Definition search_inventory_ccmi1 (E : env) (root_url : string)
    (trgexpt trgvar : list string) (trgfreq trgrealm trgfreqname : string)
  : io world (list string) :=
  instts <- titles E (root_url +:+ "catalog.xml") ;;
  found_files <- fold_each instts []
    (search_institution E root_url trgexpt trgvar trgfreq trgrealm
                        trgfreqname) ;;
  write_file E searchfile (pformat (PList (PStr <$> found_files))) ;;;
  ret found_files.

(** [response.raise_for_status()]. *)
Definition raise_for_status (status : Z) : io world unit :=
  if (400 <=? status) && (status <? 600) then raise RequestException
  else ret tt.

(** The lines of the loop body before the test: the destination, and
    its directory made. *)
Definition prepare (E : env) (downloaddir afile : string) : io world string :=
  destfile <- lift_outcome (destination downloaddir afile) ;;
  makedirs E (dirname destfile) ;;;
  ret destfile.

(** The [try] statement of the loop body. *)
Definition fetch (E : env) (fileURL destfile : string) : io world unit :=
  try_except
    (response <- do_get E fileURL ;;
     raise_for_status response.1 ;;;
     write_file E destfile response.2 ;;;
     modify (note_printed (MsgDownloaded destfile)))
    (fun e =>
       match e with
       | RequestException => modify (note_printed (MsgDownloadFailed fileURL))
       | _ => modify (note_printed (MsgUnexpected fileURL))
       end).

(** The body of [for afile in filelist]. *)
Definition download_file (E : env) (downloaddir : string)
    (OverwriteExistingFile verbose : bool) (afile : string)
  : io world unit :=
  let fileURL := file_url afile in
  destfile <- prepare E downloaddir afile ;;
  w <- get_world ;;
  if negb OverwriteExistingFile && path_exists (disk w) destfile then
    say verbose (MsgSkipping destfile)
  else
    say verbose (MsgDownloading fileURL) ;;;
    say verbose (MsgDestination destfile) ;;;
    fetch E fileURL destfile.

Definition download (E : env) (downloaddir : string)
    (OverwriteExistingFile verbose : bool) (filelist : list string)
  : io world unit :=
  for_each filelist (download_file E downloaddir OverwriteExistingFile verbose).

(** The script from the search on: an empty [trgexpt] asks for the
    inventory only. *)
Definition search_and_download (E : env) (root_url downloaddir : string)
    (trgexpt trgvar : list string) (trgfreq trgrealm trgfreqname : string)
    (OverwriteExistingFile verbose : bool) : io world unit :=
  filelist <- match trgexpt with
              | [] => ret []
              | _ => search_inventory_ccmi1 E root_url trgexpt trgvar trgfreq
                       trgrealm trgfreqname
              end ;;
  download E downloaddir OverwriteExistingFile verbose filelist.

End Ccmi1.

Module Ccmi2022.

(** [for ntry in range(5)]: only [HTTPError] is caught, and the loop
    has no exit of its own when every attempt fails. *)
Fixpoint retry_loop (E : env) (ntries : list nat) (url : string)
  : io world (option body) :=
  match ntries with
  | [] => ret None
  | ntry :: rest =>
      o <- do_urlopen E url ;;
      match o with
      | Opened b => ret (Some b)
      | OpenHTTPError => retry_loop E rest url
      | OpenOtherError => raise URLError
      | OpenInterrupted => raise KeyboardInterrupt
      end
  end.

(** [attributes.append(work1.attrib[attribute_name])]: a missing
    attribute raises [KeyError]. *)
Fixpoint attributes_of_row (works : list element) (attribute_name : string)
  : outcome (list string) :=
  match works with
  | [] => Ok []
  | work1 :: rest =>
      match el_attrib work1 !! attribute_name with
      | None => Raise (KeyError attribute_name)
      | Some attribute =>
          match attributes_of_row rest attribute_name with
          | Ok l => Ok (attribute :: l)
          | Raise e => Raise e
          end
      end
  end.

Definition attributes_of (root : element) (tag1 tag2 : qname)
    (attribute_name : string) : outcome (list string) :=
  attributes_of_row (child ← findall tag1 root; findall tag2 child)
                    attribute_name.

Definition get_elements (E : env) (url : string) (tag1 tag2 : qname)
    (attribute_name : string) : io world (list string) :=
  modify (note_listed url) ;;;
  usock <- retry_loop E (py_range 0 5) url ;;
  match usock with
  | None => raise (UnboundLocalError "usock")
  | Some Malformed => raise ParseError
  | Some (Document root) =>
      lift_outcome (attributes_of root tag1 tag2 attribute_name)
  | Some ParseInterrupted => raise KeyboardInterrupt
  end.

Definition titles (E : env) (url : string) : io world (list string) :=
  get_elements E url default_dataset default_catalogRef xlink_title.

(** [for i in range(len(names)): invntry[path].insert(i+1, [names[i]])]. *)
Definition insert_children (path : list nat) (names : list string)
    (invntry : pyval) : io world pyval :=
  fold_each (py_range 0 (length names)) invntry
    (fun invntry i =>
       name <- lift_outcome (py_index names i) ;;
       lift_outcome
         (py_update path (py_insert_method (i + 1) (PList [PStr name]))
                    invntry)).

(** The counters [icnt1] ... [icnt4] of the nested loops. *)
Record cursor : Type := Cursor {
  icnt1 : nat; icnt2 : nat; icnt3 : nat; icnt4 : nat
}.
Definition next1 (c : cursor) : cursor :=
  Cursor (S (icnt1 c)) (icnt2 c) (icnt3 c) (icnt4 c).
Definition next2 (c : cursor) : cursor :=
  Cursor (icnt1 c) (S (icnt2 c)) (icnt3 c) (icnt4 c).
Definition next3 (c : cursor) : cursor :=
  Cursor (icnt1 c) (icnt2 c) (S (icnt3 c)) (icnt4 c).
Definition next4 (c : cursor) : cursor :=
  Cursor (icnt1 c) (icnt2 c) (icnt3 c) (S (icnt4 c)).

Definition count_range (lo : nat) (a : list nat) (i : nat)
  : outcome (list nat) :=
  obind (py_index a i) (fun n => Ok (py_range lo (n + 1))).

(** The state of a level: the inventory, the array being filled and
    the counters. *)
Definition level_state : Type := pyval * list nat * cursor.

(** Level 3: the simulations of each experiment. *)
Definition simulations_loop (E : env) (root_url : string) (ninst : nat)
    (invntry : pyval) (nmdls nxpts : list nat)
  : io world (pyval * list nat) :=
  r <- fold_each (py_range 0 ninst)
    (invntry, np_zeros (sum_list nxpts), Cursor 0 0 0 0)
    (fun (st : level_state) ii =>
       ijs <- lift_outcome (count_range 1 nmdls ii) ;;
       fold_each ijs st
         (fun (st : level_state) ij =>
            twork <- lift_outcome (py_get_path st.1.1 [ii; ij]) ;;
            iks <- lift_outcome (count_range 1 nxpts (icnt1 st.2)) ;;
            st' <- fold_each iks st
              (fun (st : level_state) ik =>
                 let '(invntry, nsims, c) := st in
                 inst <- lift_outcome (py_str_at invntry [ii; 0%nat]) ;;
                 model <- lift_outcome (py_str_at invntry [ii; ij; 0%nat]) ;;
                 expt <- lift_outcome (py_str_at twork [ik; 0%nat]) ;;
                 sims <- titles E
                   (root_url +:+ inst +:+ "/" +:+ model +:+ "/" +:+ expt
                             +:+ "/catalog.xml") ;;
                 invntry' <- insert_children [ii; ij; ik] sims invntry ;;
                 nsims' <- lift_outcome (np_set nsims (icnt2 c) (length sims)) ;;
                 ret (invntry', nsims', next2 c)) ;;
            ret (st'.1, next1 st'.2))) ;;
  ret (r.1.1, r.1.2).

(** Level 4: the MIP tables of each simulation. *)
Definition tables_loop (E : env) (root_url : string) (ninst : nat)
    (invntry : pyval) (nmdls nxpts nsims : list nat)
  : io world (pyval * list nat) :=
  r <- fold_each (py_range 0 ninst)
    (invntry, np_zeros (sum_list nsims), Cursor 0 0 0 0)
    (fun (st : level_state) ii =>
       ijs <- lift_outcome (count_range 1 nmdls ii) ;;
       fold_each ijs st
         (fun (st : level_state) ij =>
            iks <- lift_outcome (count_range 1 nxpts (icnt1 st.2)) ;;
            st' <- fold_each iks st
              (fun (st : level_state) ik =>
                 twork <- lift_outcome (py_get_path st.1.1 [ii; ij; ik]) ;;
                 ils <- lift_outcome (count_range 1 nsims (icnt2 st.2)) ;;
                 st' <- fold_each ils st
                   (fun (st : level_state) il =>
                      let '(invntry, ntabs, c) := st in
                      inst <- lift_outcome (py_str_at invntry [ii; 0%nat]) ;;
                      model <- lift_outcome
                        (py_str_at invntry [ii; ij; 0%nat]) ;;
                      expt <- lift_outcome
                        (py_str_at invntry [ii; ij; ik; 0%nat]) ;;
                      rsim <- lift_outcome (py_str_at twork [il; 0%nat]) ;;
                      tables <- titles E
                        (root_url +:+ inst +:+ "/" +:+ model +:+ "/" +:+ expt
                                  +:+ "/" +:+ rsim +:+ "/catalog.xml") ;;
                      invntry' <-
                        insert_children [ii; ij; ik; il] tables invntry ;;
                      ntabs' <- lift_outcome
                        (np_set ntabs (icnt3 c) (length tables)) ;;
                      ret (invntry', ntabs', next3 c)) ;;
                 ret (st'.1, next2 st'.2)) ;;
            ret (st'.1, next1 st'.2))) ;;
  ret (r.1.1, r.1.2).

(** [invntry[..][im].insert(1, [varbls[0]])] and then
    [invntry[..][im][1].insert(ip, varbls[ip])] for the others. *)
Definition insert_variables (path : list nat) (varbls : list string)
    (invntry : pyval) : io world pyval :=
  first <- lift_outcome (py_index varbls 0) ;;
  invntry1 <- lift_outcome
    (py_update path (py_insert_method 1 (PList [PStr first])) invntry) ;;
  fold_each (py_range 1 (length varbls)) invntry1
    (fun invntry ip =>
       v <- lift_outcome (py_index varbls ip) ;;
       lift_outcome
         (py_update (path ++ [1%nat]) (py_insert_method ip (PStr v))
                    invntry)).

(** Level 5: the variables of each table. *)
Definition variables_loop (E : env) (root_url : string) (ninst : nat)
    (invntry : pyval) (nmdls nxpts nsims ntabs : list nat)
  : io world (pyval * list nat) :=
  r <- fold_each (py_range 0 ninst)
    (invntry, np_zeros (sum_list ntabs), Cursor 0 0 0 0)
    (fun (st : level_state) ii =>
       ijs <- lift_outcome (count_range 1 nmdls ii) ;;
       fold_each ijs st
         (fun (st : level_state) ij =>
            _ <- lift_outcome (py_get_path st.1.1 [ii; ij; 0%nat]) ;;
            iks <- lift_outcome (count_range 1 nxpts (icnt1 st.2)) ;;
            st' <- fold_each iks st
              (fun (st : level_state) ik =>
                 _ <- lift_outcome (py_get_path st.1.1 [ii; ij; ik; 0%nat]) ;;
                 ils <- lift_outcome (count_range 1 nsims (icnt2 st.2)) ;;
                 st' <- fold_each ils st
                   (fun (st : level_state) il =>
                      _ <- lift_outcome
                        (py_get_path st.1.1 [ii; ij; ik; il; 0%nat]) ;;
                      twork <- lift_outcome
                        (py_get_path st.1.1 [ii; ij; ik; il]) ;;
                      ims <- lift_outcome (count_range 1 ntabs (icnt3 st.2)) ;;
                      st' <- fold_each ims st
                        (fun (st : level_state) im =>
                           let '(invntry, nvars, c) := st in
                           inst <- lift_outcome
                             (py_str_at invntry [ii; 0%nat]) ;;
                           model <- lift_outcome
                             (py_str_at invntry [ii; ij; 0%nat]) ;;
                           expt <- lift_outcome
                             (py_str_at invntry [ii; ij; ik; 0%nat]) ;;
                           rsim <- lift_outcome
                             (py_str_at invntry [ii; ij; ik; il; 0%nat]) ;;
                           mtab <- lift_outcome
                             (py_str_at twork [im; 0%nat]) ;;
                           varbls <- titles E
                             (root_url +:+ inst +:+ "/" +:+ model +:+ "/"
                                +:+ expt +:+ "/" +:+ rsim +:+ "/" +:+ mtab
                                +:+ "/catalog.xml") ;;
                           invntry' <- insert_variables [ii; ij; ik; il; im]
                                         varbls invntry ;;
                           nvars' <- lift_outcome
                             (np_set nvars (icnt4 c) (length varbls)) ;;
                           ret (invntry', nvars', next4 c)) ;;
                      ret (st'.1, next3 st'.2)) ;;
                 ret (st'.1, next2 st'.2)) ;;
            ret (st'.1, next1 st'.2))) ;;
  ret (r.1.1, r.1.2).

Definition create_inventory_file (E : env) (inventory_file : string)
    (root_url : string) : io world pyval :=
  instts <- titles E (root_url +:+ "catalog.xml") ;;
  let ninst := length instts in
  l1 <- models_loop (titles E) (catalog_of_inst root_url) instts ;;
  let nmdls := l1.2 in
  l2 <- experiments_loop (titles E) (catalog_of_model root_url) ninst
          l1.1 nmdls ;;
  let nxpts := l2.2 in
  l3 <- simulations_loop E root_url ninst l2.1 nmdls nxpts ;;
  let nsims := l3.2 in
  l4 <- tables_loop E root_url ninst l3.1 nmdls nxpts nsims ;;
  let ntabs := l4.2 in
  l5 <- variables_loop E root_url ninst l4.1 nmdls nxpts nsims ntabs ;;
  let fullinvntry :=
    PList [l5.1; PList [PInt (Z.of_nat ninst)];
           PList (py_len_list nmdls); PList (py_len_list nxpts);
           PList (py_len_list nsims); PList (py_len_list ntabs);
           PList (py_len_list l5.2)] in
  write_file E inventory_file (pformat fullinvntry) ;;;
  ret fullinvntry.

(** The unpacked [fullinvntry]. *)
Record inventory : Type := Inventory {
  invntry : pyval;
  ninst : pyval;
  nmdls : list Z;
  nxpts : list Z;
  nsims : list Z;
  ntabs : list Z;
  nvars : list Z
}.

(** The first lines of [search_inventory]: the seven components of
    [fullinvntry]; the count lists must hold integers. *)
Definition unpack (fullinvntry : pyval) : outcome inventory :=
  obind (py_getitem fullinvntry 0) (fun invntry =>
  obind (py_get_path fullinvntry [1%nat; 0%nat]) (fun ninst =>
  obind (obind (py_getitem fullinvntry 2) np_array) (fun nmdls =>
  obind (obind (py_getitem fullinvntry 3) np_array) (fun nxpts =>
  obind (obind (py_getitem fullinvntry 4) np_array) (fun nsims =>
  obind (obind (py_getitem fullinvntry 5) np_array) (fun ntabs =>
  obind (obind (py_getitem fullinvntry 6) np_array) (fun nvars =>
  Ok (Inventory invntry ninst nmdls nxpts nsims ntabs nvars)))))))).

(** [range(n)] for a Python value [n]. *)
Definition py_range_of (n : pyval) : outcome (list nat) :=
  match n with
  | PInt z => Ok (py_range 0 (Z.to_nat z))
  | _ => Raise TypeError
  end.

(** [nwork[iv] = int(vers[iv][1:])] for every [iv]. *)
Definition version_numbers (vers : list string) : outcome (list Z) :=
  traverse (fun v => obind (py_int (string_tail v)) np_int64) vers.

(** The choice of the version directory: with several versions the
    name made of ['v'] and the greatest number, with one version (or
    none) [vers[0]]. *)
Definition select_version (vers : list string) : outcome string :=
  if bool_decide (1 < length vers)%nat then
    obind (version_numbers vers) (fun nwork =>
    obind (py_max nwork) (fun m => Ok ("v" +:+ repr_int m)))
  else py_index vers 0.

(** [for iq in range(len(files)): flist[ii][1].insert(ifound, files[iq]);
    ifound += 1], with [ifound] starting at 1. *)
Definition insert_files (ii : nat) (files : list string) (flist : pyval)
  : io world pyval :=
  fold_each (py_range 0 (length files)) flist
    (fun flist iq =>
       f <- lift_outcome (py_index files iq) ;;
       lift_outcome
         (py_update [ii; 1%nat] (py_insert_method (1 + iq) (PStr f)) flist)).

(** The body of [if expt in trgexpt and mtab in trgtble and xvar in
    trgxvar]: three listing calls, the last one under the selected
    version. *)
Definition collect_files (E : env) (root_url : string) (inv : pyval)
    (ii ij ik il im ip : nat) (flist : pyval) : io world pyval :=
  inst <- lift_outcome (py_str_at inv [ii; 0%nat]) ;;
  model <- lift_outcome (py_str_at inv [ii; ij; 0%nat]) ;;
  expt <- lift_outcome (py_str_at inv [ii; ij; ik; 0%nat]) ;;
  rsim <- lift_outcome (py_str_at inv [ii; ij; ik; il; 0%nat]) ;;
  mtab <- lift_outcome (py_str_at inv [ii; ij; ik; il; im; 0%nat]) ;;
  xvar <- lift_outcome (py_str_at inv [ii; ij; ik; il; im; 1%nat; ip]) ;;
  let var_path := root_url +:+ inst +:+ "/" +:+ model +:+ "/" +:+ expt
                    +:+ "/" +:+ rsim +:+ "/" +:+ mtab +:+ "/" +:+ xvar in
  ldirs <- titles E (var_path +:+ "/catalog.xml") ;;
  grid <- lift_outcome (py_index ldirs 0) ;;
  vers <- titles E (var_path +:+ "/" +:+ grid +:+ "/catalog.xml") ;;
  vertrg <- lift_outcome (select_version vers) ;;
  files <- get_elements E
    (var_path +:+ "/" +:+ grid +:+ "/" +:+ vertrg +:+ "/catalog.xml")
    default_dataset default_dataset urlPath ;;
  insert_files ii files flist.

Definition search_state : Type := pyval * cursor.

(** The six nested loops of the search. *)
Definition search_loops (E : env) (root_url : string) (inv : inventory)
    (trgexpt trgxvar trgtble : list string) (iis : list nat)
    (flist : pyval) : io world pyval :=
  r <- fold_each iis (flist, Cursor 0 0 0 0)
    (fun (st : search_state) ii =>
       ijs <- lift_outcome (np_range_to 1 (nmdls inv) ii) ;;
       fold_each ijs st
         (fun (st : search_state) ij =>
            _ <- lift_outcome (py_get_path (invntry inv) [ii; ij; 0%nat]) ;;
            iks <- lift_outcome (np_range_to 1 (nxpts inv) (icnt1 st.2)) ;;
            st' <- fold_each iks st
              (fun (st : search_state) ik =>
                 expt <- lift_outcome
                   (py_get_path (invntry inv) [ii; ij; ik; 0%nat]) ;;
                 ils <- lift_outcome
                   (np_range_to 1 (nsims inv) (icnt2 st.2)) ;;
                 st' <- fold_each ils st
                   (fun (st : search_state) il =>
                      _ <- lift_outcome
                        (py_get_path (invntry inv) [ii; ij; ik; il; 0%nat]) ;;
                      ims <- lift_outcome
                        (np_range_to 1 (ntabs inv) (icnt3 st.2)) ;;
                      st' <- fold_each ims st
                        (fun (st : search_state) im =>
                           mtab <- lift_outcome
                             (py_get_path (invntry inv)
                                [ii; ij; ik; il; im; 0%nat]) ;;
                           ips <- lift_outcome
                             (obind (py_index (nvars inv) (icnt4 st.2))
                                (fun n => Ok (py_range 0 (Z.to_nat n)))) ;;
                           flist' <- fold_each ips st.1
                             (fun flist ip =>
                                xvar <- lift_outcome
                                  (py_get_path (invntry inv)
                                     [ii; ij; ik; il; im; 1%nat; ip]) ;;
                                if py_in expt trgexpt && py_in mtab trgtble
                                   && py_in xvar trgxvar
                                then collect_files E root_url (invntry inv)
                                       ii ij ik il im ip flist
                                else ret flist) ;;
                           ret (flist', next4 st.2)) ;;
                      ret (st'.1, next3 st'.2)) ;;
                 ret (st'.1, next2 st'.2)) ;;
            ret (st'.1, next1 st'.2))) ;;
  ret r.1.

(** The body of [if trgexpt:], which binds [flist]. *)
Definition search_targets (E : env) (root_url : string) (inv : inventory)
    (trgexpt trgxvar trgtble : list string) : io world pyval :=
  iis <- lift_outcome (py_range_of (ninst inv)) ;;
  flist <- fold_each iis (PList [])
    (fun flist ii =>
       inst <- lift_outcome (py_get_path (invntry inv) [ii; 0%nat]) ;;
       lift_outcome (py_append_method (PList [inst; PList []]) flist)) ;;
  search_loops E root_url inv trgexpt trgxvar trgtble iis flist.

Definition searchfile : string := "CCMI-2022_search.log".

(** [with open(searchfile, 'wt') as out: pp.pprint(flist)]: the file
    is opened, and so emptied, before [flist] is read. *)
Definition write_log (E : env) (flist : option pyval) : io world unit :=
  o <- open_for_writing E searchfile ;;
  match flist with
  | None => raise (UnboundLocalError "flist")
  | Some v => write_opened searchfile (pformat v) o
  end.

Definition search_inventory (E : env) (root_url : string)
    (fullinvntry : pyval) (trgexpt trgxvar trgtble : list string)
  : io world pyval :=
  inv <- lift_outcome (unpack fullinvntry) ;;
  flist <- match trgexpt with
           | [] => ret None
           | _ => Some <$$> search_targets E root_url inv trgexpt trgxvar
                              trgtble
           end ;;
  write_log E flist ;;;
  match flist with
  | None => raise (UnboundLocalError "flist")
  | Some v => ret v
  end.

(** [for fentry in flist: filelist += fentry[1]]. *)
Definition file_list (flist : pyval) : outcome (list string) :=
  match flist with
  | PList entries =>
      obind (traverse
               (fun fentry =>
                  obind (py_getitem fentry 1) (fun fs =>
                  match fs with
                  | PList l => traverse py_str l
                  | _ => Raise TypeError
                  end)) entries)
            (fun ls => Ok (concat ls))
  | _ => Raise TypeError
  end.

(** The lines of the loop body before the test: the destination. *)
Definition prepare (downloaddir afile : string) : io world string :=
  lift_outcome (destination downloaddir afile).

(** The [try] statement of the loop body; its [except] catches every
    exception. *)
Definition fetch (E : env) (fileURL destfile : string) : io world unit :=
  try_except
    (response <- do_get E fileURL ;;
     write_file E destfile response.2 ;;;
     modify (note_printed (MsgDownloaded destfile)))
    (fun _ => modify (note_printed (MsgDownloadFailed fileURL))).

(** The body of [for afile in filelist]. *)
Definition download_file (E : env) (downloaddir : string)
    (OverwriteExistingFile verbose : bool) (afile : string)
  : io world unit :=
  let fileURL := file_url afile in
  destfile <- prepare downloaddir afile ;;
  w <- get_world ;;
  if negb OverwriteExistingFile && path_exists (disk w) destfile then
    say verbose (MsgSkipping destfile)
  else
    say verbose (MsgDownloading fileURL) ;;;
    say verbose (MsgDestination destfile) ;;;
    fetch E fileURL destfile.

Definition download (E : env) (downloaddir : string)
    (OverwriteExistingFile verbose : bool) (filelist : list string)
  : io world unit :=
  for_each filelist (download_file E downloaddir OverwriteExistingFile verbose).

(** The script from the search on. *)
Definition search_and_download (E : env) (root_url downloaddir : string)
    (fullinvntry : pyval) (trgexpt trgxvar trgtble : list string)
    (OverwriteExistingFile verbose : bool) : io world unit :=
  flist <- search_inventory E root_url fullinvntry trgexpt trgxvar trgtble ;;
  filelist <- lift_outcome (file_list flist) ;;
  download E downloaddir OverwriteExistingFile verbose filelist.

End Ccmi2022.

(** ** The FTP script *)

Module Ftp.

(** The type fact of an MLSD entry. *)
Inductive entry_type : Type := TypeDir | TypeFile | TypeOther.

Global Instance entry_type_eq_dec : EqDecision entry_type.
Proof. solve_decision. Defined.

Inductive command : Type :=
  | CWD (path : string)
  | MLSD (path : string)
  | RETR (path file : string).

(** The FTP server: the listing of each directory, whether a
    directory can be entered, and the bytes of each file ([None] when
    the transfer fails). *)
Record server : Type := Server {
  mlsd : string -> list (string * entry_type);
  enterable : string -> bool;
  retr : string -> string -> option string
}.

(** The remote working directory, the commands sent so far and the
    files of the local directory. *)
Record session : Type := Session {
  cwd : string;
  sent : list command;
  local_files : gmap string string
}.

(** The directory [d] names when the working directory is [current]. *)
Definition target (current d : string) : string :=
  if starts_with_slash d then d else current +:+ "/" +:+ d.

(** [ftpc.cwd(d)]. *)
Definition ftp_cwd (E : server) (d : string) : io session unit :=
  fun s =>
    let s' := Session (cwd s) (sent s ++ [CWD (target (cwd s) d)])
                      (local_files s) in
    if enterable E (target (cwd s) d)
    then (Ok tt, Session (target (cwd s) d) (sent s') (local_files s'))
    else (Raise FTPError, s').

(** The names of the entries of type [t] in the listing of [path]. *)
Definition names_of (E : server) (t : entry_type) (path : string)
  : list string :=
  fst <$> filter (fun e => e.2 = t) (mlsd E path).

(** [list(ftpc.mlsd())] filtered on the type of the entries. *)
Definition ftp_names (E : server) (t : entry_type) : io session (list string) :=
  fun s =>
    (Ok (names_of E t (cwd s)),
     Session (cwd s) (sent s ++ [MLSD (cwd s)]) (local_files s)).

(** The listing call of the inventory loops: enter the directory and
    take its sub-directories. *)
Definition dirs_of (E : server) (path : string) : io session (list string) :=
  ftp_cwd E path ;;;
  ftp_names E TypeDir.

Definition dir_of_inst (droot inst : string) : string :=
  droot +:+ "/" +:+ inst.
Definition dir_of_model (droot inst model : string) : string :=
  droot +:+ "/" +:+ inst +:+ "/" +:+ model.

(** Institutions, models and experiments, as the script lists them. *)
Definition inventory_levels (E : server) (droot : string)
  : io session (pyval * list nat * list nat) :=
  instts <- dirs_of E droot ;;
  l1 <- models_loop (dirs_of E) (dir_of_inst droot) instts ;;
  l2 <- experiments_loop (dirs_of E) (dir_of_model droot) (length instts)
          l1.1 l1.2 ;;
  ret (l2.1, l1.2, l2.2).

(** [ldirs[-1]]. *)
Definition py_last (l : list string) : outcome string :=
  match last l with
  | Some x => Ok x
  | None => Raise IndexError
  end.

(** [ftpc.retrbinary('RETR %s' % dfile, open(dfile, 'wb').write)]: the
    local file is opened first; a failed transfer raises. *)
Definition retrbinary (E : server) (dfile : string) : io session unit :=
  fun s =>
    let s' := Session (cwd s) (sent s ++ [RETR (cwd s) dfile])
                      (<[dfile:=""]> (local_files s)) in
    match retr E (cwd s) dfile with
    | Some bytes =>
        (Ok tt, Session (cwd s') (sent s') (<[dfile:=bytes]> (local_files s)))
    | None => (Raise FTPError, s')
    end.

(** The body of [if vpull:]: down the grid directory, into the last
    version directory of the listing, and every file fetched. *)
Definition pull (E : server) (var_dir : string) : io session unit :=
  ftp_cwd E var_dir ;;;
  ldirs <- ftp_names E TypeDir ;;
  grid <- lift_outcome (py_index ldirs 0) ;;
  ftp_cwd E grid ;;;
  ldirs <- ftp_names E TypeDir ;;
  version <- lift_outcome (py_last ldirs) ;;
  ftp_cwd E version ;;;
  lfiles <- ftp_names E TypeFile ;;
  for_each lfiles (retrbinary E).

End Ftp.

(** ** The targets of a search

    The CCMI-2022 and the FTP script take the variables and the tables
    to look for from the names [variable_table] of [trgdata]. *)

(** [for name in trgdata: trgxvar.append(name.split('_')[0])] and then
    [for name in trgdata: trgtble.append(name.split('_')[1])]. *)
Definition targets_of (trgdata : list string)
  : outcome (list string * list string) :=
  obind (traverse (fun name => py_index (split_on "_" name) 0) trgdata)
        (fun trgxvar =>
  obind (traverse (fun name => py_index (split_on "_" name) 1) trgdata)
        (fun trgtble =>
  Ok (trgxvar, trgtble))).

(** The test of the FTP script on a table and a variable of the
    archive: [vpull = False] and then, for [ih] in [range(nvsrch)],
    [if mtab == trgtble[ih] and xvar == trgxvar[ih]: vpull = True]. *)
Fixpoint vpull_from (ihs : list nat) (trgtble trgxvar : list string)
    (mtab xvar : string) (vpull : bool) : outcome bool :=
  match ihs with
  | [] => Ok vpull
  | ih :: rest =>
      obind (py_index trgtble ih) (fun t =>
      if String.eqb mtab t then
        obind (py_index trgxvar ih) (fun x =>
        vpull_from rest trgtble trgxvar mtab xvar
                   (if String.eqb xvar x then true else vpull))
      else vpull_from rest trgtble trgxvar mtab xvar vpull)
  end.

Definition vpull (trgtble trgxvar : list string) (mtab xvar : string)
  : outcome bool :=
  vpull_from (py_range 0 (length trgxvar)) trgtble trgxvar mtab xvar false.

(** ** Level 3 of the FTP inventory

    The simulations of each experiment, as the FTP script lists them. *)

(** [ip = 0] and, for every directory [name] of the listing,
    [invntry[path].insert(1+ip, [name]); ip += 1]. *)
Definition ftp_insert_children (path : list nat) (names : list string)
    (invntry : pyval) : io Ftp.session pyval :=
  fold_each (py_range 0 (length names)) invntry
    (fun invntry ip =>
       name <- lift_outcome (py_index names ip) ;;
       lift_outcome
         (py_update path (py_insert_method (1 + ip) (PList [PStr name]))
                    invntry)).

(** The state of the level: the inventory, [nsims], [icnt1] and
    [icnt2]. *)
Definition ftp_level_state : Type := pyval * list nat * (nat * nat).

Definition ftp_simulations_loop (E : Ftp.server) (droot : string)
    (ninst : nat) (invntry : pyval) (nmdls nxpts : list nat)
  : io Ftp.session (pyval * list nat) :=
  r <- fold_each (py_range 0 ninst)
    (invntry, np_zeros (sum_list nxpts), (O, O))
    (fun (st : ftp_level_state) ia =>
       ibs <- lift_outcome (Ccmi2022.count_range 1 nmdls ia) ;;
       fold_each ibs st
         (fun (st : ftp_level_state) ib =>
            mdl <- lift_outcome (py_get_path st.1.1 [ia; ib; 0%nat]) ;;
            twork <- lift_outcome (py_get_path st.1.1 [ia; ib]) ;;
            ics <- lift_outcome (Ccmi2022.count_range 1 nxpts st.2.1) ;;
            st' <- fold_each ics st
              (fun (st : ftp_level_state) ic =>
                 let '(invntry, nsims, (icnt1, icnt2)) := st in
                 expt <- lift_outcome (py_get_path twork [ic; 0%nat]) ;;
                 inst <- lift_outcome (py_str_at invntry [ia; 0%nat]) ;;
                 mdl <- lift_outcome (py_str mdl) ;;
                 expt <- lift_outcome (py_str expt) ;;
                 names <- Ftp.dirs_of E
                   (droot +:+ "/" +:+ inst +:+ "/" +:+ mdl +:+ "/" +:+ expt) ;;
                 invntry' <- ftp_insert_children [ia; ib; ic] names invntry ;;
                 nsims' <- lift_outcome (np_set nsims icnt2 (length names)) ;;
                 ret (invntry', nsims', (icnt1, S icnt2))) ;;
            ret (st'.1, (S st'.2.1, st'.2.2)))) ;;
  ret (r.1.1, r.1.2).

(** The inventory of the FTP script down to the simulations. *)
Definition ftp_inventory_to_simulations (E : Ftp.server) (droot : string)
  : io Ftp.session (pyval * list nat * list nat * list nat) :=
  instts <- Ftp.dirs_of E droot ;;
  l1 <- models_loop (Ftp.dirs_of E) (Ftp.dir_of_inst droot) instts ;;
  l2 <- experiments_loop (Ftp.dirs_of E) (Ftp.dir_of_model droot)
          (length instts) l1.1 l1.2 ;;
  l3 <- ftp_simulations_loop E droot (length instts) l2.1 l1.2 l2.2 ;;
  ret (l3.1, l1.2, l2.2, l3.2).

(** * The vocabulary of the properties *)

(** [keeps I m]: the world invariant [I] survives [m], whether [m]
    returns or raises. *)
Definition keeps {W A} (I : W -> Prop) (m : io W A) : Prop :=
  forall w, I w -> I (m w).2.

(** [returns I m]: from a world in [I], [m] returns, in a world in [I]. *)
Definition returns {W A} (I : W -> Prop) (m : io W A) : Prop :=
  forall w, I w -> exists a w', m w = (Ok a, w') /\ I w'.

(** No call of [urlopen] is interrupted, nor the parsing of what it
    returns. *)
Definition uninterrupted (E : env) : Prop :=
  forall history url,
    urlopen E history url <> OpenInterrupted
    /\ urlopen E history url <> Opened ParseInterrupted.

(** The world after [k] more attempts on [url]. *)
Definition opened_more (k : nat) (url : string) (w : world) : world :=
  World (opened w ++ replicate k url) (listed w) (caught w) (requests w)
        (stdout w) (disk w).

(** Every catalog below [path] may be listed, for a set [P] of URLs. *)
Definition below (P : string -> Prop) (root_url path : string) : Prop :=
  forall rest, P (root_url +:+ path +:+ "/" +:+ rest).

(** The name of a directory holds no slash. *)
Definition slash_free (name : string) : Prop := has_char slash name = false.

(** The catalogs that the server sends name their sub-catalogs without
    slashes. *)
Definition slash_free_listings (E : env) : Prop :=
  forall history url root,
    urlopen E history url = Opened (Document root) ->
    Forall slash_free
      (Ccmi1.attributes_of root default_dataset default_catalogRef
         xlink_title).

(** The listing calls the live search may issue: the root catalog, the
    catalog of the directory of an institution, and catalogs below
    [inst/model/expt] for two directories [inst] and [model] and an
    experiment [expt] of [trgexpt]. *)
Definition issued_by_search (root_url : string) (trgexpt : list string)
    (url : string) : Prop :=
  url = root_url +:+ "catalog.xml"
  \/ (exists inst,
        slash_free inst /\ url = root_url +:+ inst +:+ "/catalog.xml")
  \/ (exists inst model expt rest,
        slash_free inst /\ slash_free model /\ expt ∈ trgexpt
        /\ url = root_url +:+ inst +:+ "/" +:+ model +:+ "/" +:+ expt
                  +:+ "/" +:+ rest).

(** [triple I m Q X]: from a world in [I], [m] ends in a world in [I];
    what it returns is in [Q], what it raises is in [X]. *)
Definition triple {W A} (I : W -> Prop) (m : io W A) (Q : A -> Prop)
    (X : exn -> Prop) : Prop :=
  forall w, I w ->
    match m w with
    | (Ok a, w') => I w' /\ Q a
    | (Raise e, w') => I w' /\ X e
    end.

(** A server that interrupts the listing of the institution [InstA]. *)
Definition interrupting_archive : env :=
  Env (fun _ url =>
         if String.eqb url "R/catalog.xml"
         then Opened (Document (stub_document ["InstA"] []))
         else OpenInterrupted)
      (fun _ _ => GetRaises)
      (fun _ _ => false)
      (fun _ _ => Written).

(** The inventory the CCMI-1 builder makes of an archive without
    institutions. *)
Definition empty_inventory : pyval :=
  PList [PList []; PList [PInt 0]; PList []; PList []].

(** A build that aborts: it raises and leaves the inventory file as it
    was. *)
Definition aborts_without_artifact (build : io world pyval)
    (inventory_file : string) (w : world) : Prop :=
  exists e w',
    build w = (Raise e, w')
    /\ disk w' !! inventory_file = disk w !! inventory_file.

(** An archive of two institutions in which the catalog of the first
    answers every request with an HTTP error. *)
Definition flaky_archive : env :=
  Env (fun _ url =>
         if String.eqb url "R/catalog.xml"
         then Opened (Document (stub_document ["InstA"; "InstB"] []))
         else if String.eqb url "R/InstA/catalog.xml" then OpenHTTPError
         else if String.eqb url "R/InstB/catalog.xml"
         then Opened (Document (stub_document ["ModelB"] []))
         else if String.eqb url "R/InstB/ModelB/catalog.xml"
         then Opened (Document (stub_document ["refC1"] []))
         else Opened (Document (stub_document [] [])))
      (fun _ _ => GetRaises)
      (fun _ _ => false)
      (fun _ _ => Written).

(** [selected] is the version of [vers] with the greatest number after
    its first character. *)
Definition selects_greatest (vers : list string) (selected : string) : Prop :=
  selected ∈ vers
  /\ exists m, py_int (string_tail selected) = Ok m
     /\ forall v n, v ∈ vers -> py_int (string_tail v) = Ok n -> n <= m.

(** An FTP server with one variable directory, one grid and two version
    directories, listed in the order of their names. *)
Definition versions_server : Ftp.server :=
  Ftp.Server
    (fun path =>
       if String.eqb path "/d/h2o" then [("gnz", Ftp.TypeDir)]
       else if String.eqb path "/d/h2o/gnz"
       then [("v10", Ftp.TypeDir); ("v2", Ftp.TypeDir)]
       else if String.eqb path "/d/h2o/gnz/v10" then [("new.nc", Ftp.TypeFile)]
       else if String.eqb path "/d/h2o/gnz/v2" then [("old.nc", Ftp.TypeFile)]
       else [])
    (fun _ => true)
    (fun _ file => Some file).

Definition ftp_start : Ftp.session := Ftp.Session "/" [] ∅.

(** A CCMI-1 archive with one ensemble member that has two versions. *)
Definition versions_archive : env :=
  stub_env
    (fun url =>
       if String.eqb url "R/catalog.xml" then ["I"]
       else if String.eqb url "R/I/catalog.xml" then ["M"]
       else if String.eqb url "R/I/M/refC1/mon/catalog.xml" then ["atmos"]
       else if String.eqb url "R/I/M/refC1/mon/atmos/catalog.xml"
       then ["monthly"]
       else if String.eqb url "R/I/M/refC1/mon/atmos/monthly/catalog.xml"
       then ["r1i1p1"]
       else if String.eqb url
                 "R/I/M/refC1/mon/atmos/monthly/r1i1p1/catalog.xml"
       then ["v1"; "v2"]
       else if String.eqb url
                 "R/I/M/refC1/mon/atmos/monthly/r1i1p1/v1/catalog.xml"
       then ["zmcly"]
       else if String.eqb url
                 "R/I/M/refC1/mon/atmos/monthly/r1i1p1/v2/catalog.xml"
       then ["zmcly"]
       else [])
    (fun url =>
       if String.eqb url
            "R/I/M/refC1/mon/atmos/monthly/r1i1p1/v1/zmcly/catalog.xml"
       then ["old.nc"]
       else if String.eqb url
                 "R/I/M/refC1/mon/atmos/monthly/r1i1p1/v2/zmcly/catalog.xml"
       then ["new.nc"]
       else []).

(** The common shape of the download loops of the two catalog scripts. *)
Definition download_body (prepare : string -> io world string)
    (fetch : string -> string -> io world unit)
    (OverwriteExistingFile verbose : bool) (afile : string) : io world unit :=
  destfile <- prepare afile ;;
  w <- get_world ;;
  if negb OverwriteExistingFile && path_exists (disk w) destfile then
    say verbose (MsgSkipping destfile)
  else
    say verbose (MsgDownloading (file_url afile)) ;;;
    say verbose (MsgDestination destfile) ;;;
    fetch (file_url afile) destfile.

(** The file [afile] was asked for, or its destination is on the disk. *)
Definition attended (downloaddir : string) (w : world) (afile : string) : Prop :=
  file_url afile ∈ requests w
  \/ exists destfile,
       destination downloaddir afile = Ok destfile
       /\ path_exists (disk w) destfile = true.

(** What the [try] statement of either loop does between [w] and [w']:
    one request, at most the destination file changed, and a request
    that raised reported and nothing written. *)
Definition fetched (E : env) (fileURL destfile : string) (w w' : world)
  : Prop :=
  requests w' = requests w ++ [fileURL]
  /\ (disk w' = disk w \/ exists c, disk w' = <[destfile:=File c]> (disk w))
  /\ (session_get E (requests w) fileURL = GetRaises ->
      disk w' = disk w
      /\ stdout w' = stdout w ++ [MsgDownloadFailed fileURL]).

(** The invariant of a download loop with overwriting disabled: what
    was on the disk at [w0] is still there, unchanged, and every request
    since is for a file whose destination was not there. *)
Definition skip_invariant (downloaddir : string) (w0 w : world) : Prop :=
  disk w0 ⊆ disk w
  /\ exists new,
       requests w = requests w0 ++ new
       /\ Forall (fun u => exists a d,
                     u = file_url a /\ destination downloaddir a = Ok d
                     /\ disk w0 !! d = None) new.

(** From [w] to [w'] requests were added and nothing left the disk. *)
Definition grows (w w' : world) : Prop :=
  (exists new, requests w' = requests w ++ new)
  /\ forall p, path_exists (disk w) p = true -> path_exists (disk w') p = true.

(** A download server that answers every request with the bytes [new],
    and a disk that already holds the destination of one file. *)
Definition serving_env : env :=
  Env (fun _ _ => OpenHTTPError)
      (fun _ _ => Response 200 "new")
      (fun _ _ => false)
      (fun _ _ => Written).

Definition sample_file : string :=
  "badc/CMAM/zmcly_mon_CMAM_refC1_r1i1p1_197201-197212.nc".

Definition sample_destination : string :=
  "downloads/refC1/zmcly_mon_CMAM_refC1_r1i1p1_197201-197212.nc".

Definition stocked_world : world :=
  World [] [] [] [] [] {[sample_destination := File "old"]}.

(** An FTP server on which the transfer of the first of two files
    fails. *)
Definition failing_retr_server : Ftp.server :=
  Ftp.Server
    (fun path =>
       if String.eqb path "/d/h2o" then [("gnz", Ftp.TypeDir)]
       else if String.eqb path "/d/h2o/gnz" then [("v1", Ftp.TypeDir)]
       else if String.eqb path "/d/h2o/gnz/v1"
       then [("a.nc", Ftp.TypeFile); ("b.nc", Ftp.TypeFile)]
       else [])
    (fun _ => true)
    (fun _ file => if String.eqb file "a.nc" then None else Some file).

(** The nodes of the inventory: the entry of an institution is
    [[inst, L]], where [L] holds the names of the models and, after
    level 2, the one-element lists of the experiments. *)
Definition is_name (v : pyval) : bool :=
  match v with PStr _ => true | _ => false end.

Definition is_branch (v : pyval) : bool :=
  match v with PList _ => true | _ => false end.

Fixpoint count_where (p : pyval -> bool) (l : list pyval) : nat :=
  match l with
  | [] => O
  | v :: rest => ((if p v then 1 else 0) + count_where p rest)%nat
  end.

(** The entry of [inst] after level 1, for a lister that reports
    [children]. *)
Definition model_entry (children : string -> list string)
    (of_inst : string -> string) (inst : string) : pyval :=
  PList [PStr inst; PList (PStr <$> children (of_inst inst))].

(** The number of models of [inst], and the numbers of experiments of
    its models, as the lister reports them. *)
Definition model_count (children : string -> list string)
    (of_inst : string -> string) (inst : string) : nat :=
  length (children (of_inst inst)).

Definition experiment_counts (children : string -> list string)
    (of_inst : string -> string) (of_model : string -> string -> string)
    (inst : string) : list nat :=
  (fun model => length (children (of_model inst model)))
    <$> children (of_inst inst).

(** The entry [e] of [inst] holds [nm] model names and [nx] experiments. *)
Definition entry_counts (inst : string) (nm nx : nat) (e : pyval) : Prop :=
  exists L, e = PList [PStr inst; PList L]
            /\ count_where is_name L = nm /\ count_where is_branch L = nx.

(** What levels 1 and 2 record for the institutions [instts], over a
    lister that reports [children]: the number of models of each
    institution, the number of experiments of each model, and an entry
    per institution that holds as many model names and as many
    experiments. *)
Definition levels_recorded (children : string -> list string)
    (of_inst : string -> string) (of_model : string -> string -> string)
    (instts : list string) (invntry : pyval) (nmdls nxpts : list nat) : Prop :=
  nmdls = model_count children of_inst <$> instts
  /\ nxpts = concat (experiment_counts children of_inst of_model <$> instts)
  /\ length nxpts = sum_list nmdls
  /\ exists entries,
       invntry = PList entries
       /\ Forall2 (fun inst e =>
                     entry_counts inst (model_count children of_inst inst)
                       (sum_list (experiment_counts children of_inst of_model
                                    inst)) e)
                  instts entries.

(** The archive of the end-to-end scenario: [InstA/ModelA] with the
    experiments [refC1] and [refC2], [InstB/ModelB] with [refC1]. *)
Definition scenario_refs (url : string) : list string :=
  if String.eqb url "R/catalog.xml" then ["InstA"; "InstB"]
  else if String.eqb url "R/InstA/catalog.xml" then ["ModelA"]
  else if String.eqb url "R/InstB/catalog.xml" then ["ModelB"]
  else if String.eqb url "R/InstA/ModelA/catalog.xml" then ["refC1"; "refC2"]
  else if String.eqb url "R/InstB/ModelB/catalog.xml" then ["refC1"]
  else [].

(** The number read when the digits of [n] follow the number [a]. *)
Fixpoint glue (fuel : nat) (a n : N) : N :=
  match fuel with
  | O => (10 * a + n mod 10)%N
  | S fuel' =>
      if (n <? 10)%N then (10 * a + n mod 10)%N
      else (10 * glue fuel' a (n / 10) + n mod 10)%N
  end.

(** An archive with one institution that has two models. *)
Definition two_models_refs (url : string) : list string :=
  if String.eqb url "R/catalog.xml" then ["InstA"]
  else if String.eqb url "R/InstA/catalog.xml" then ["ModelA"; "ModelB"]
  else if String.eqb url "R/InstA/ModelA/catalog.xml" then ["refD1"]
  else if String.eqb url "R/InstA/ModelB/catalog.xml" then ["refD1"]
  else [].

(** Every entry of the inventory is a two-element list [[inst, L]]. *)
Definition pairs (v : pyval) : Prop :=
  exists es, v = PList es /\ Forall (fun e => exists a b, e = PList [a; b]) es.

(** A catalog server that answers the first two requests with an HTTP
    error and every later one with a catalog of one reference. *)
Definition recovering_env : env :=
  Env (fun history _ =>
         if bool_decide (length history < 2)%nat then OpenHTTPError
         else Opened (Document (stub_document ["InstA"] [])))
      (fun _ _ => GetRaises)
      (fun _ _ => false)
      (fun _ _ => Written).

(** A catalog server that cannot be reached: [urlopen] raises an error
    that is not an [HTTPError]. *)
Definition unreachable_env : env :=
  Env (fun _ _ => OpenOtherError)
      (fun _ _ => GetRaises)
      (fun _ _ => false)
      (fun _ _ => Written).

(** No character of [s] is white space. *)
Fixpoint no_space (s : string) : bool :=
  match s with
  | EmptyString => true
  | String c rest => negb (is_space c) && no_space rest
  end.

(** A letter of the Latin alphabet. *)
Definition is_letter (c : ascii) : bool :=
  let n := N_of_ascii c in
  ((65 <=? n)%N && (n <=? 90)%N) || ((97 <=? n)%N && (n <=? 122)%N).

Fixpoint has_letter (s : string) : bool :=
  match s with
  | EmptyString => false
  | String c rest => is_letter c || has_letter rest
  end.

(** The entry of an institution in the list of the files found:
    [[inst, [file, ...]]]. *)
Definition found_entry (e : string * list string) : pyval :=
  PList [PStr e.1; PList (PStr <$> e.2)].

(** The catalogs below the directory of a variable that matches the
    targets of the search: its experiment, its table and its name are
    each in the list asked for. *)
Definition matching_catalog (root_url : string)
    (trgexpt trgtble trgxvar : list string) (url : string) : Prop :=
  exists inst model expt rsim mtab xvar rest,
    expt ∈ trgexpt /\ mtab ∈ trgtble /\ xvar ∈ trgxvar
    /\ url = root_url +:+ inst +:+ "/" +:+ model +:+ "/" +:+ expt +:+ "/"
               +:+ rsim +:+ "/" +:+ mtab +:+ "/" +:+ xvar +:+ "/" +:+ rest.

(** Since the listing calls [l0], only catalogs of [P] were listed. *)
Definition lists_only (P : string -> Prop) (l0 : list string) (w : world)
  : Prop :=
  exists calls, listed w = l0 ++ calls /\ Forall P calls.

(** A download server that answers every request with status 404 and
    an error page. *)
Definition missing_env : env :=
  Env (fun _ _ => OpenHTTPError)
      (fun _ _ => Response 404 "not found")
      (fun _ _ => false)
      (fun _ _ => Written).

(** A server that answers every request, and a disk on which no file
    can be opened for writing. *)
Definition readonly_env : env :=
  Env (fun _ _ => OpenHTTPError)
      (fun _ _ => Response 200 "payload")
      (fun _ _ => false)
      (fun _ _ => OpenFails).

(** The name [variable_table] of a pair. *)
Definition target_name (p : string * string) : string :=
  p.1 +:+ "_" +:+ p.2.

(** An FTP server with a variable directory that has no sub-directory. *)
Definition bare_server : Ftp.server :=
  Ftp.Server (fun _ => [("readme.txt", Ftp.TypeFile)])
             (fun _ => true)
             (fun _ file => Some file).

(** The one-element list [[e]] of an experiment in the inventory. *)
Definition branch (e : string) : pyval := PList [PStr e].

(** The record of an institution with a single model, for a lister that
    reports [children]: the entry [[inst, [model, [e1], ..., [en]]]]
    with the experiments in the order of the listing, and their
    number. *)
Definition single_model_record (children : string -> list string)
    (of_inst : string -> string) (of_model : string -> string -> string)
    (inst : string) (r : pyval * nat) : Prop :=
  exists model,
    children (of_inst inst) = [model]
    /\ r.1 = PList [PStr inst;
                    PList (PStr model
                             :: (branch <$> children (of_model inst model)))]
    /\ r.2 = length (children (of_model inst model)).

(** An FTP archive of one institution with one model, one experiment
    and one simulation. *)
Definition ftp_archive : Ftp.server :=
  Ftp.Server
    (fun path =>
       if String.eqb path "/a" then [("InstA", Ftp.TypeDir)]
       else if String.eqb path "/a/InstA" then [("ModelA", Ftp.TypeDir)]
       else if String.eqb path "/a/InstA/ModelA" then [("refD1", Ftp.TypeDir)]
       else if String.eqb path "/a/InstA/ModelA/refD1"
       then [("r1i1p1f1", Ftp.TypeDir)]
       else [])
    (fun _ => true)
    (fun _ file => Some file).

(** Since [w0] no download was asked for and no file but [f] was
    written. *)
Definition only_writes (f : string) (w0 w : world) : Prop :=
  requests w = requests w0
  /\ forall p, p <> f -> disk w !! p = disk w0 !! p.

(** Since [s0] the FTP session sent no [RETR] and wrote no local file. *)
Definition only_lists (s0 s : Ftp.session) : Prop :=
  Ftp.local_files s = Ftp.local_files s0
  /\ exists new,
       Ftp.sent s = Ftp.sent s0 ++ new
       /\ Forall (fun c => match c with Ftp.RETR _ _ => False | _ => True end)
                 new.

(** A list of entries [[name, [file, ...]]] whose files are strings. *)
Definition found_list (flist : pyval) : Prop :=
  exists entries,
    flist = PList entries
    /\ Forall (fun e => exists name (fs : list string),
                          e = PList [name; PList (PStr <$> fs)]) entries.

(** A file path that some catalog of the server gives as the [urlPath]
    of a data set. *)
Definition listed_file (E : env) (file : string) : Prop :=
  exists history url root,
    urlopen E history url = Opened (Document root)
    /\ file ∈ Ccmi1.attributes_of root default_dataset default_dataset urlPath.



(** A CCMI-2022 archive of one simulation with two variables, the first
    of them in three versions. *)
Definition dated_archive : env :=
  stub_env
    (fun url =>
       if String.eqb url "R/catalog.xml" then ["I"]
       else if String.eqb url "R/I/catalog.xml" then ["M"]
       else if String.eqb url "R/I/M/catalog.xml" then ["refD1"]
       else if String.eqb url "R/I/M/refD1/catalog.xml" then ["r1i1p1f1"]
       else if String.eqb url "R/I/M/refD1/r1i1p1f1/catalog.xml" then ["AmonZ"]
       else if String.eqb url "R/I/M/refD1/r1i1p1f1/AmonZ/catalog.xml"
       then ["h2o"; "o3"]
       else if String.eqb url "R/I/M/refD1/r1i1p1f1/AmonZ/h2o/catalog.xml"
       then ["gnz"]
       else if String.eqb url "R/I/M/refD1/r1i1p1f1/AmonZ/h2o/gnz/catalog.xml"
       then ["v20210101"; "v20230615"; "v20220301"]
       else [])
    (fun url =>
       if String.eqb url
            "R/I/M/refD1/r1i1p1f1/AmonZ/h2o/gnz/v20230615/catalog.xml"
       then ["a.nc"; "b.nc"]
       else if String.eqb url
                 "R/I/M/refD1/r1i1p1f1/AmonZ/h2o/gnz/v20210101/catalog.xml"
       then ["old.nc"]
       else []).

(** The inventory that the CCMI-2022 builder makes of it. *)
Definition dated_inventory : pyval :=
  PList
    [PList
       [PList
          [PStr "I";
           PList
             [PStr "M";
              PList
                [PStr "refD1";
                 PList
                   [PStr "r1i1p1f1";
                    PList [PStr "AmonZ"; PList [PStr "h2o"; PStr "o3"]]]]]]];
     PList [PInt 1]; PList [PInt 1]; PList [PInt 1]; PList [PInt 1];
     PList [PInt 1]; PList [PInt 2]].

(** * Properties *)

(** ** The program monad *)

Section MonadFacts.
Context {W : Type}.
Implicit Types (w : W) (I : W -> Prop).



Lemma bind_ok {A B} (m : io W A) (k : A -> io W B) w a w' :
  m w = (Ok a, w') -> bind m k w = k a w'.
Proof. intros H. unfold bind. now rewrite H. Qed.

Lemma bind_raise {A B} (m : io W A) (k : A -> io W B) w e w' :
  m w = (Raise e, w') -> bind m k w = (Raise e, w').
Proof. intros H. unfold bind. now rewrite H. Qed.

Lemma bind_ret {A B} (a : A) (k : A -> io W B) w : bind (ret a) k w = k a w.
Proof. reflexivity. Qed.

Lemma bind_inv_ok {A B} (m : io W A) (k : A -> io W B) w b w2 :
  bind m k w = (Ok b, w2) ->
  exists a w1, m w = (Ok a, w1) /\ k a w1 = (Ok b, w2).
Proof.
  unfold bind. destruct (m w) as [[a|e] w1]; intros H; [eauto | discriminate].
Qed.

Lemma bind_lift_inv_ok {A B} (o : outcome A) (k : A -> io W B) w b w2 :
  bind (lift_outcome o) k w = (Ok b, w2) ->
  exists a, o = Ok a /\ k a w = (Ok b, w2).
Proof. destruct o as [a|e]; [eauto | discriminate]. Qed.

Lemma keeps_ret {A} I (a : A) : keeps I (ret a).
Proof. now intros w Hw. Qed.

Lemma keeps_raise {A} I e : keeps I (raise (A:=A) e).
Proof. now intros w Hw. Qed.

Lemma keeps_lift {A} I (o : outcome A) : keeps I (lift_outcome o).
Proof. destruct o; [apply keeps_ret | apply keeps_raise]. Qed.

Lemma keeps_bind {A B} I (m : io W A) (k : A -> io W B) :
  keeps I m -> (forall a, keeps I (k a)) -> keeps I (bind m k).
Proof.
  intros Hm Hk w Hw. unfold bind. specialize (Hm w Hw).
  destruct (m w) as [[a|e] w1]; simpl in *; [now apply Hk | exact Hm].
Qed.

Lemma keeps_map {A B} I (f : A -> B) (m : io W A) :
  keeps I m -> keeps I (f <$$> m).
Proof. intros Hm. apply keeps_bind; [exact Hm | intros a; apply keeps_ret]. Qed.

Lemma keeps_try {A} I (body : io W A) handler :
  keeps I body -> (forall e, keeps I (handler e)) ->
  keeps I (try_except body handler).
Proof.
  intros Hb Hh w Hw. unfold try_except. specialize (Hb w Hw).
  destruct (body w) as [[a|e] w1]; simpl in *; [exact Hb | now apply Hh].
Qed.

Lemma keeps_fold_each {A B} I (xs : list A) (body : B -> A -> io W B) :
  (forall acc x, x ∈ xs -> keeps I (body acc x)) ->
  forall acc, keeps I (fold_each xs acc body).
Proof.
  induction xs as [|x xs IH]; intros Hb acc; simpl.
  - apply keeps_ret.
  - apply keeps_bind.
    + apply Hb. left.
    + intros acc'. apply IH. intros acc'' y Hy. apply Hb. now right.
Qed.

Lemma keeps_for_each {A} I (xs : list A) (body : A -> io W unit) :
  (forall x, x ∈ xs -> keeps I (body x)) -> keeps I (for_each xs body).
Proof.
  induction xs as [|x xs IH]; intros Hb; simpl.
  - apply keeps_ret.
  - apply keeps_bind.
    + apply Hb. left.
    + intros _. apply IH. intros y Hy. apply Hb. now right.
Qed.

Lemma keeps_modify I (f : W -> W) :
  (forall w, I w -> I (f w)) -> keeps I (modify f).
Proof. intros H w Hw. now apply H. Qed.

Lemma returns_ret {A} I (a : A) : returns I (ret a).
Proof. intros w Hw. now exists a, w. Qed.

Lemma returns_bind {A B} I (m : io W A) (k : A -> io W B) :
  returns I m -> (forall a, returns I (k a)) -> returns I (bind m k).
Proof.
  intros Hm Hk w Hw. destruct (Hm w Hw) as (a & w1 & E1 & H1).
  destruct (Hk a w1 H1) as (b & w2 & E2 & H2).
  exists b, w2. split; [|exact H2]. now rewrite (bind_ok _ _ _ _ _ E1).
Qed.

Lemma returns_map {A B} I (f : A -> B) (m : io W A) :
  returns I m -> returns I (f <$$> m).
Proof. intros Hm. apply returns_bind; [exact Hm | intros a; apply returns_ret]. Qed.

Lemma returns_try {A} I (body : io W A) handler :
  returns I body -> returns I (try_except body handler).
Proof.
  intros Hb w Hw. destruct (Hb w Hw) as (a & w1 & E1 & H1).
  exists a, w1. split; [|exact H1]. unfold try_except. now rewrite E1.
Qed.

Lemma returns_fold_each {A B} I (xs : list A) (body : B -> A -> io W B) :
  (forall acc x, x ∈ xs -> returns I (body acc x)) ->
  forall acc, returns I (fold_each xs acc body).
Proof.
  induction xs as [|x xs IH]; intros Hb acc; simpl.
  - apply returns_ret.
  - apply returns_bind.
    + apply Hb. left.
    + intros acc'. apply IH. intros acc'' y Hy. apply Hb. now right.
Qed.

Lemma returns_modify I (f : W -> W) :
  (forall w, I w -> I (f w)) -> returns I (modify f).
Proof. intros H w Hw. exists tt, (f w). split; [reflexivity | now apply H]. Qed.

Lemma returns_keeps {A} I (m : io W A) : returns I m -> keeps I m.
Proof.
  intros H w Hw. destruct (H w Hw) as (a & w' & E1 & H1). now rewrite E1.
Qed.
End MonadFacts.

(** ** The listing call *)


Lemma opened_more_0 url w : opened_more 0 url w = w.
Proof. destruct w. unfold opened_more. simpl. now rewrite app_nil_r. Qed.

Lemma opened_more_S k url w :
  opened_more k url (note_opened url w) = opened_more (S k) url w.
Proof. unfold opened_more, note_opened. simpl. now rewrite <- app_assoc. Qed.

Lemma note_listed_opened_more k url u w :
  opened_more k url (note_listed u w) = note_listed u (opened_more k url w).
Proof. reflexivity. Qed.

Section Listing.
Variable E : env.

Lemma ccmi1_retry_loop_attempts ntries url w :
  exists r k,
    Ccmi1.retry_loop E ntries url w = (r, opened_more k url w)
    /\ (k <= length ntries)%nat.
Proof.
  revert w. induction ntries as [|ntry rest IH]; intros w.
  - exists (Ok (Fell None)), O. rewrite opened_more_0.
    split; [reflexivity | lia].
  - cbn [Ccmi1.retry_loop]. unfold bind, do_urlopen.
    destruct (urlopen E (opened w) url) as [b| | |].
    + exists (Ok (Fell (Some b))), 1%nat. split; [reflexivity | simpl; lia].
    + destruct (ntry =? 4)%nat.
      * exists (Ok (Returned [])), 1%nat. split; [reflexivity | simpl; lia].
      * destruct (IH (note_opened url w)) as (r & k & Hr & Hk).
        exists r, (S k). rewrite Hr, opened_more_S.
        split; [reflexivity | simpl; lia].
    + exists (Ok (Returned [])), 1%nat. split; [reflexivity | simpl; lia].
    + exists (Raise KeyboardInterrupt), 1%nat.
      split; [reflexivity | simpl; lia].
Qed.

(** The CCMI-1 listing call makes at most five attempts and changes
    nothing but the two traces. *)
Lemma ccmi1_get_elements_attempts url tag1 tag2 attribute_name w :
  exists r k,
    Ccmi1.get_elements E url tag1 tag2 attribute_name w
    = (r, note_listed url (opened_more k url w))
    /\ (k <= 5)%nat.
Proof.
  unfold Ccmi1.get_elements, bind, modify.
  destruct (ccmi1_retry_loop_attempts (py_range 0 5) url (note_listed url w))
    as (r & k & Hr & Hk).
  rewrite Hr, note_listed_opened_more.
  destruct r as [[result|[[|root|]|]]|e]; eauto.
Qed.

Lemma ccmi1_retry_loop_body url ntries :
  forall w b w',
    Ccmi1.retry_loop E ntries url w = (Ok (Fell (Some b)), w') ->
    exists history, urlopen E history url = Opened b.
Proof.
  induction ntries as [|ntry ntries IH]; intros w b w' H;
    cbn [Ccmi1.retry_loop] in H; [discriminate|].
  unfold bind at 1, do_urlopen in H.
  destruct (urlopen E (opened w) url) as [b'| | |] eqn:Ho.
  - injection H as <- _. now exists (opened w).
  - destruct (ntry =? 4)%nat; [discriminate|]. now apply IH in H.
  - discriminate.
  - discriminate.
Qed.

Lemma ccmi1_retry_loop_returns ntries url w :
  uninterrupted E ->
  exists r k,
    Ccmi1.retry_loop E ntries url w = (Ok r, opened_more k url w)
    /\ (k <= length ntries)%nat.
Proof.
  intros HE. revert w. induction ntries as [|ntry rest IH]; intros w.
  - exists (Fell None), O. rewrite opened_more_0. split; [reflexivity | lia].
  - cbn [Ccmi1.retry_loop]. unfold bind, do_urlopen.
    destruct (urlopen E (opened w) url) as [b| | |] eqn:Ho.
    + exists (Fell (Some b)), 1%nat. split; [reflexivity | simpl; lia].
    + destruct (ntry =? 4)%nat.
      * exists (Returned []), 1%nat. split; [reflexivity | simpl; lia].
      * destruct (IH (note_opened url w)) as (r & k & Hr & Hk).
        exists r, (S k). rewrite Hr, opened_more_S. split; [reflexivity | simpl; lia].
    + exists (Returned []), 1%nat. split; [reflexivity | simpl; lia].
    + now apply HE in Ho.
Qed.

(** Unless [urlopen] or the parser is interrupted, the CCMI-1 listing
    call returns, after at most five attempts, and changes nothing but
    the two traces. *)
Lemma ccmi1_get_elements_returns url tag1 tag2 attribute_name w :
  uninterrupted E ->
  exists l k,
    Ccmi1.get_elements E url tag1 tag2 attribute_name w
    = (Ok l, note_listed url (opened_more k url w))
    /\ (k <= 5)%nat.
Proof.
  intros HE. unfold Ccmi1.get_elements, bind, modify.
  destruct (ccmi1_retry_loop_returns (py_range 0 5) url (note_listed url w) HE)
    as (r & k & Hr & Hk).
  rewrite Hr, note_listed_opened_more.
  destruct r as [result|[[|root|]|]]; eauto.
  apply ccmi1_retry_loop_body in Hr as (history & Hh). now apply HE in Hh.
Qed.

Lemma ccmi2022_retry_loop_attempts ntries url w :
  exists r k,
    Ccmi2022.retry_loop E ntries url w = (r, opened_more k url w)
    /\ (k <= length ntries)%nat.
Proof.
  revert w. induction ntries as [|ntry rest IH]; intros w.
  - exists (Ok None), O. rewrite opened_more_0. split; [reflexivity | lia].
  - cbn [Ccmi2022.retry_loop]. unfold bind, do_urlopen.
    destruct (urlopen E (opened w) url) as [b| | |].
    + exists (Ok (Some b)), 1%nat. split; [reflexivity | simpl; lia].
    + destruct (IH (note_opened url w)) as (r & k & Hr & Hk).
      exists r, (S k). rewrite Hr, opened_more_S. split; [reflexivity | simpl; lia].
    + exists (Raise URLError), 1%nat. split; [reflexivity | simpl; lia].
    + exists (Raise KeyboardInterrupt), 1%nat.
      split; [reflexivity | simpl; lia].
Qed.

(** The CCMI-2022 listing call makes at most five attempts too, and
    changes nothing but the two traces. *)
Lemma ccmi2022_get_elements_attempts url tag1 tag2 attribute_name w :
  exists r k,
    Ccmi2022.get_elements E url tag1 tag2 attribute_name w
    = (r, note_listed url (opened_more k url w))
    /\ (k <= 5)%nat.
Proof.
  unfold Ccmi2022.get_elements, bind, modify.
  destruct (ccmi2022_retry_loop_attempts (py_range 0 5) url (note_listed url w))
    as (r & k & Hr & Hk).
  rewrite Hr, note_listed_opened_more.
  destruct r as [[[|root|]|]|e]; try (eexists _, k; split; [reflexivity|exact Hk]).
  unfold lift_outcome.
  destruct (Ccmi2022.attributes_of root tag1 tag2 attribute_name);
    eexists _, k; (split; [reflexivity|exact Hk]).
Qed.

(** When every attempt meets an HTTP error, the CCMI-1 call gives up
    after the fifth and returns the empty list. *)
Lemma ccmi1_get_elements_exhausted url tag1 tag2 attribute_name w :
  (forall history, urlopen E history url = OpenHTTPError) ->
  Ccmi1.get_elements E url tag1 tag2 attribute_name w
  = (Ok [], note_listed url (opened_more 5 url w)).
Proof.
  intros H. unfold Ccmi1.get_elements, bind, modify, py_range. simpl.
  unfold bind, do_urlopen. simpl. rewrite !H. simpl.
  unfold opened_more, note_listed, note_opened. simpl.
  now rewrite <- !app_assoc.
Qed.

(** Any other exception of [urlopen] that [except Exception] catches
    ends the CCMI-1 call at once, with the empty list. *)
Lemma ccmi1_get_elements_other_error url tag1 tag2 attribute_name w :
  urlopen E (opened w) url = OpenOtherError ->
  Ccmi1.get_elements E url tag1 tag2 attribute_name w
  = (Ok [], note_listed url (opened_more 1 url w)).
Proof.
  intros H. unfold Ccmi1.get_elements, bind, modify, py_range. simpl.
  unfold bind, do_urlopen. simpl. now rewrite H.
Qed.

(** A response that does not parse gives the empty list. *)
Lemma ccmi1_get_elements_malformed url tag1 tag2 attribute_name w :
  urlopen E (opened w) url = Opened Malformed ->
  Ccmi1.get_elements E url tag1 tag2 attribute_name w
  = (Ok [], note_listed url (opened_more 1 url w)).
Proof.
  intros H. unfold Ccmi1.get_elements, bind, modify, py_range. simpl.
  unfold bind, do_urlopen. simpl. now rewrite H.
Qed.

(** When every attempt meets an HTTP error, the CCMI-2022 call leaves
    the loop with [usock] unbound and raises. *)
Lemma ccmi2022_get_elements_exhausted url tag1 tag2 attribute_name w :
  (forall history, urlopen E history url = OpenHTTPError) ->
  Ccmi2022.get_elements E url tag1 tag2 attribute_name w
  = (Raise (UnboundLocalError "usock"),
     note_listed url (opened_more 5 url w)).
Proof.
  intros H. unfold Ccmi2022.get_elements, bind, modify, py_range. simpl.
  unfold bind, do_urlopen. simpl. rewrite !H. simpl.
  unfold opened_more, note_listed, note_opened. simpl.
  now rewrite <- !app_assoc.
Qed.
End Listing.

(** ** Strings *)

Lemma app_String c s t : String c s +:+ t = String c (s +:+ t).
Proof. reflexivity. Qed.

Lemma app_empty_l t : "" +:+ t = t.
Proof. reflexivity. Qed.

Lemma app_empty_r s : s +:+ "" = s.
Proof. induction s as [|c s IH]; [reflexivity|]. now rewrite app_String, IH. Qed.

Lemma string_app_assoc s t u : (s +:+ t) +:+ u = s +:+ (t +:+ u).
Proof.
  induction s as [|c s IH]; [reflexivity|]. now rewrite !app_String, IH.
Qed.

Lemma string_app_length s t :
  String.length (s +:+ t) = (String.length s + String.length t)%nat.
Proof.
  induction s as [|c s IH]; [reflexivity|].
  rewrite app_String. simpl. now rewrite IH.
Qed.

(** ** Writing a file changes the disk only *)

Lemma open_for_writing_frame E path w :
  exists d, (open_for_writing E path w).2 = set_disk d w.
Proof.
  unfold open_for_writing.
  assert (Hw : w = set_disk (disk w) w) by now destruct w.
  destruct (disk w !! path) as [[bytes|]|]; simpl; eauto;
    destruct (os_write E (disk w) path); simpl; eauto.
Qed.

Lemma write_file_frame E path content w :
  exists d, (write_file E path content w).2 = set_disk d w.
Proof.
  unfold write_file, bind, open_for_writing, write_opened.
  assert (Hw : w = set_disk (disk w) w) by now destruct w.
  destruct (disk w !! path) as [[bytes|]|]; simpl; eauto;
    destruct (os_write E (disk w) path); simpl; eauto.
Qed.

Lemma write_file_written E path content w :
  disk w !! path <> Some Directory ->
  os_write E (disk w) path = Written ->
  write_file E path content w
  = (Ok tt, set_disk (<[path:=File content]> (disk w)) w).
Proof.
  intros Hdir Hwrite. unfold write_file, bind, open_for_writing, write_opened.
  destruct (disk w !! path) as [[bytes|]|] eqn:Hd; try congruence;
    rewrite Hwrite; unfold set_disk; cbn; now rewrite insert_insert_eq.
Qed.

Lemma write_file_keeps E path content (I : world -> Prop) :
  (forall d w, I w -> I (set_disk d w)) -> keeps I (write_file E path content).
Proof.
  intros H w Hw. destruct (write_file_frame E path content w) as (d & ->).
  now apply H.
Qed.

(** ** Failing listings *)

(** C1. When each of the five attempts of a listing call meets an HTTP
    error, the CCMI-2022 [get_elements] raises [UnboundLocalError] where
    the CCMI-1 one returns the empty list; a build of the CCMI-2022
    script over an archive with one such catalog is aborted at that
    node, where the CCMI-1 build goes on to the sibling institution. *)
Theorem ccmi2022_get_elements_raises_when_exhausted :
  (forall (url : string) (tag1 tag2 : qname) (attribute_name : string)
          (w : world),
      Ccmi2022.get_elements failing_env url tag1 tag2 attribute_name w
      = (Raise (UnboundLocalError "usock"),
         note_listed url (opened_more 5 url w))
      /\ Ccmi1.get_elements failing_env url tag1 tag2 attribute_name w
         = (Ok [], note_listed url (opened_more 5 url w)))
  /\ (Ccmi2022.create_inventory_file flaky_archive "inventory" "R/"
        empty_world).1 = Raise (UnboundLocalError "usock")
  /\ (Ccmi1.create_inventory_file flaky_archive "inventory" "R/"
        empty_world).1
     = Ok (PList [PList [PList [PStr "InstA"; PList []];
                         PList [PStr "InstB";
                                PList [PStr "ModelB"; PList [PStr "refC1"]]]];
                  PList [PInt 2]; PList [PInt 0; PInt 1]; PList [PInt 1]]).
Proof.
  split; [|split].
  - intros url tag1 tag2 attribute_name w. split.
    + now apply ccmi2022_get_elements_exhausted.
    + now apply ccmi1_get_elements_exhausted.
  - vm_compute. reflexivity.
  - vm_compute. reflexivity.
Qed.

(** The CCMI-1 build over a server whose root catalog fails: it
    returns, and the inventory file is written. *)
Lemma ccmi1_root_failure_run :
  exists w',
    Ccmi1.create_inventory_file failing_env "CCMI-1_archive_202504031936"
      "https://dap.ceda.ac.uk/thredds/badc/wcrp-ccmi/data/CCMI-1/output/"
      empty_world
    = (Ok empty_inventory, w')
    /\ disk w' !! "CCMI-1_archive_202504031936"
       = Some (File ("[[], [0], [], []]" +:+ newline)).
Proof. eexists. split; vm_compute; reflexivity. Qed.

(** C2, as stated, fails on the CCMI-1 script: with a root catalog that
    answers five HTTP errors the build does not abort. *)
Lemma ccmi1_root_failure_is_not_fatal :
  ~ aborts_without_artifact
      (Ccmi1.create_inventory_file failing_env "CCMI-1_archive_202504031936"
         "https://dap.ceda.ac.uk/thredds/badc/wcrp-ccmi/data/CCMI-1/output/")
      "CCMI-1_archive_202504031936" empty_world.
Proof.
  intros (e & w' & Hrun & _).
  destruct ccmi1_root_failure_run as (w1 & Hok & _).
  rewrite Hok in Hrun. discriminate.
Qed.

(** C2, amended. When the root catalog answers five HTTP errors, the
    CCMI-1 build makes no other listing call, writes the inventory of
    an archive without institutions to the inventory file and returns
    it. *)
Theorem ccmi1_root_failure_gives_empty_inventory
    (E : env) (inventory_file root_url : string) (w : world) :
  (forall history,
      urlopen E history (root_url +:+ "catalog.xml") = OpenHTTPError) ->
  disk w !! inventory_file <> Some Directory ->
  os_write E (disk w) inventory_file = Written ->
  Ccmi1.create_inventory_file E inventory_file root_url w
  = (Ok empty_inventory,
     set_disk (<[inventory_file:=File ("[[], [0], [], []]" +:+ newline)]>
                 (disk w))
       (note_listed (root_url +:+ "catalog.xml")
          (opened_more 5 (root_url +:+ "catalog.xml") w))).
Proof.
  intros Hroot Hdir Hwrite. unfold Ccmi1.create_inventory_file, Ccmi1.titles.
  rewrite (bind_ok _ _ _ _ _
             (ccmi1_get_elements_exhausted E _ _ _ _ w Hroot)).
  erewrite bind_ok by reflexivity.
  erewrite bind_ok by reflexivity.
  erewrite bind_ok by (apply write_file_written; assumption).
  reflexivity.
Qed.

(** The amended C2 at a concrete failing server. *)
Lemma ccmi1_root_failure_gives_empty_inventory_witness :
  Ccmi1.create_inventory_file failing_env "inventory" "R/" empty_world
  = (Ok empty_inventory,
     set_disk (<["inventory":=File ("[[], [0], [], []]" +:+ newline)]> ∅)
       (note_listed "R/catalog.xml" (opened_more 5 "R/catalog.xml" empty_world))).
Proof.
  apply (ccmi1_root_failure_gives_empty_inventory failing_env "inventory" "R/"
           empty_world).
  - reflexivity.
  - vm_compute. discriminate.
  - reflexivity.
Defined.

(** ** The search of the CCMI-2022 script without target experiments *)

Lemma write_log_unbound E w :
  forall r w', Ccmi2022.write_log E None w = (r, w') -> exists e, r = Raise e.
Proof.
  intros r w'. unfold Ccmi2022.write_log, bind, raise.
  destruct (open_for_writing E Ccmi2022.searchfile w) as [[o|e] w1];
    intros [= <- <-]; eauto.
Qed.

(** C9. With an empty [trgexpt] the CCMI-2022 [search_inventory] never
    returns: once [fullinvntry] is unpacked and the log file opened,
    reading [flist], which only the [if trgexpt:] branch binds, raises
    [UnboundLocalError]; so a call that returns had a non-empty
    [trgexpt]. *)
Theorem search_inventory_needs_trgexpt :
  (forall (E : env) (root_url : string) (fullinvntry : pyval)
          (trgxvar trgtble : list string) (w : world)
          (inv : Ccmi2022.inventory) (o : write_outcome) (w1 : world),
      Ccmi2022.unpack fullinvntry = Ok inv ->
      open_for_writing E Ccmi2022.searchfile w = (Ok o, w1) ->
      Ccmi2022.search_inventory E root_url fullinvntry [] trgxvar trgtble w
      = (Raise (UnboundLocalError "flist"), w1))
  /\ (forall (E : env) (root_url : string) (fullinvntry : pyval)
             (trgexpt trgxvar trgtble : list string) (w : world)
             (flist : pyval) (w' : world),
        Ccmi2022.search_inventory E root_url fullinvntry trgexpt trgxvar
          trgtble w = (Ok flist, w') ->
        trgexpt <> []).
Proof.
  split.
  - intros E root_url fullinvntry trgxvar trgtble w inv o w1 Hinv Hopen.
    unfold Ccmi2022.search_inventory. rewrite Hinv.
    unfold Ccmi2022.write_log, bind, lift_outcome, ret, raise.
    now rewrite Hopen.
  - intros E root_url fullinvntry trgexpt trgxvar trgtble w flist w' Hrun ->.
    unfold Ccmi2022.search_inventory in Hrun.
    apply bind_inv_ok in Hrun as (inv & w1 & _ & Hrun).
    apply bind_inv_ok in Hrun as (fl & w2 & Hfl & Hrun).
    injection Hfl as <- <-.
    apply bind_inv_ok in Hrun as (u & w3 & Hlog & _).
    apply write_log_unbound in Hlog as (e & He). discriminate.
Qed.

(** C9 at the inventory of an archive without institutions. *)
Lemma search_inventory_needs_trgexpt_witness :
  Ccmi2022.search_inventory failing_env "R/"
    (PList [PList []; PList [PInt 0]; PList []; PList []; PList []; PList [];
            PList []])
    [] ["h2o"] ["AmonZ"] empty_world
  = (Raise (UnboundLocalError "flist"),
     set_disk (<[Ccmi2022.searchfile:=File ""]> ∅) empty_world).
Proof.
  eapply (proj1 search_inventory_needs_trgexpt failing_env "R/" _ _ _ _ _
            Written).
  - vm_compute. reflexivity.
  - reflexivity.
Defined.

(** ** The choice of the version directory *)

Lemma foldl_max_spec (x : Z) (rest : list Z) :
  foldl Z.max x rest ∈ x :: rest
  /\ Forall (fun n => n <= foldl Z.max x rest) (x :: rest).
Proof.
  revert x. induction rest as [|y rest IH]; intros x.
  - split; [left | constructor; [cbn; lia | constructor]].
  - cbn [foldl]. destruct (IH (Z.max x y)) as [Hin Hall].
    apply Forall_cons in Hall as [Hm Hall]. split.
    + apply elem_of_cons in Hin as [Heq|Hin].
      * rewrite Heq. destruct (Z.max_spec x y) as [[_ ->]|[_ ->]].
        -- right; left.
        -- left.
      * now right; right.
    + constructor; [lia|]. constructor; [lia|exact Hall].
Qed.

Lemma traverse_Forall2 {A B} (f : A -> outcome B) (l : list A) (l' : list B) :
  Forall2 (fun x y => f x = Ok y) l l' -> traverse f l = Ok l'.
Proof.
  induction 1 as [|x y l l' Hxy _ IH]; [reflexivity|].
  cbn [traverse]. rewrite Hxy. cbn [obind]. rewrite IH. reflexivity.
Qed.

Lemma np_int64_in_range (n : Z) : - 2 ^ 63 <= n < 2 ^ 63 -> np_int64 n = Ok n.
Proof.
  intros H. unfold np_int64.
  assert ((- 2 ^ 63 <=? n) && (n <? 2 ^ 63) = true) as ->; [|reflexivity].
  apply andb_true_iff. split; [apply Z.leb_le | apply Z.ltb_lt]; lia.
Qed.

Lemma version_numbers_spec (vers : list string) (nums : list Z) :
  Forall2 (fun v n => py_int (string_tail v) = Ok n
                      /\ - 2 ^ 63 <= n < 2 ^ 63) vers nums ->
  Ccmi2022.version_numbers vers = Ok nums.
Proof.
  intros H. apply traverse_Forall2.
  eapply Forall2_impl; [exact H|]. intros v n [Hint Hrange].
  rewrite Hint. cbn [obind]. now apply np_int64_in_range.
Qed.

Section CollectFiles.
Variable E : env.

Lemma insert_files_listed ii files flist :
  forall l, keeps (fun w => listed w = l) (Ccmi2022.insert_files ii files flist).
Proof.
  intros l. apply keeps_fold_each. intros acc iq _.
  apply keeps_bind; [apply keeps_lift | intros; apply keeps_lift].
Qed.



End CollectFiles.

Section FtpPull.
Variable E : Ftp.server.



Lemma ftp_names_inv t s l s' :
  Ftp.ftp_names E t s = (Ok l, s') ->
  l = Ftp.names_of E t (Ftp.cwd s) /\ Ftp.cwd s' = Ftp.cwd s.
Proof. unfold Ftp.ftp_names. now intros [= <- <-]. Qed.

End FtpPull.

(** On a listing in the order of the names, the FTP script fetches the
    files of [v2] and none of [v10]. *)
Lemma ftp_pull_takes_the_last_listed_version :
  Ftp.sent (Ftp.pull versions_server "/d/h2o" ftp_start).2
  = [Ftp.CWD "/d/h2o"; Ftp.MLSD "/d/h2o";
     Ftp.CWD "/d/h2o/gnz"; Ftp.MLSD "/d/h2o/gnz";
     Ftp.CWD "/d/h2o/gnz/v2"; Ftp.MLSD "/d/h2o/gnz/v2";
     Ftp.RETR "/d/h2o/gnz/v2" "old.nc"].
Proof. vm_compute. reflexivity. Qed.


(** The live search of the CCMI-1 script goes through every version:
    over an archive with versions [v1] and [v2] it collects the files of
    both. *)
Lemma ccmi1_search_collects_every_version :
  (Ccmi1.search_inventory_ccmi1 versions_archive "R/" ["refC1"] ["zmcly"]
     "mon" "atmos" "monthly" empty_world).1
  = Ok ["old.nc"; "new.nc"].
Proof. vm_compute. reflexivity. Qed.



(** Among [v1], [v2] and [v10] the CCMI-2022 search selects [v10]; a
    single version [v3] is selected as it is. *)
Lemma version_selection_examples :
  Ccmi2022.select_version ["v1"; "v2"; "v10"] = Ok "v10"
  /\ Ccmi2022.select_version ["v3"] = Ok "v3".
Proof. split; vm_compute; reflexivity. Qed.

(** ** The download loops *)

Lemma say_spec verbose m w :
  exists w', say verbose m w = (Ok tt, w')
             /\ requests w' = requests w /\ disk w' = disk w.
Proof. destruct verbose; cbn; eauto. Qed.

Lemma foldl_add_directory_subseteq (chain : list string) (d : gmap string node) :
  d ⊆ foldl add_directory d chain.
Proof.
  revert d. induction chain as [|p chain IH]; intros d; [reflexivity|].
  cbn [foldl]. etrans; [|apply IH]. unfold add_directory.
  destruct (d !! p) eqn:Hp; [reflexivity|]. now apply insert_subseteq.
Qed.

Lemma makedirs_spec E d w r w' :
  makedirs E d w = (r, w') ->
  requests w' = requests w /\ disk w ⊆ disk w'.
Proof.
  unfold makedirs.
  destruct (String.eqb d ""); [intros [= <- <-]; split; reflexivity|].
  destruct (existsb _ _); [intros [= <- <-]; split; reflexivity|].
  destruct (os_mkdir_denied E (disk w) d); intros [= <- <-].
  - split; reflexivity.
  - split; [reflexivity|]. apply foldl_add_directory_subseteq.
Qed.

Lemma ccmi1_prepare_spec E downloaddir afile w r w' :
  Ccmi1.prepare E downloaddir afile w = (r, w') ->
  requests w' = requests w /\ disk w ⊆ disk w'
  /\ (forall d, r = Ok d -> destination downloaddir afile = Ok d).
Proof.
  unfold Ccmi1.prepare, bind, lift_outcome.
  destruct (destination downloaddir afile) as [d|e]; cbn.
  - destruct (makedirs E (dirname d) w) as [[[]|e] w1] eqn:Hm;
      apply makedirs_spec in Hm as [Hr Hd]; intros [= <- <-];
      (split; [exact Hr|]; split; [exact Hd|]); intros d'; congruence.
  - intros [= <- <-]. split; [reflexivity|]. split; [reflexivity|]. discriminate.
Qed.

Lemma ccmi2022_prepare_spec downloaddir afile w r w' :
  Ccmi2022.prepare downloaddir afile w = (r, w') ->
  requests w' = requests w /\ disk w ⊆ disk w'
  /\ (forall d, r = Ok d -> destination downloaddir afile = Ok d).
Proof.
  unfold Ccmi2022.prepare, lift_outcome.
  destruct (destination downloaddir afile) as [d|e]; intros [= <- <-];
    (split; [reflexivity|]; split; [reflexivity|]); congruence.
Qed.

Lemma write_file_disk E path content w r w' :
  write_file E path content w = (r, w') ->
  requests w' = requests w
  /\ (disk w' = disk w \/ exists c, disk w' = <[path:=File c]> (disk w)).
Proof.
  unfold write_file, bind, open_for_writing, write_opened.
  destruct (disk w !! path) as [[bytes|]|];
    try (intros [= <- <-]; split; [reflexivity | now left]);
    destruct (os_write E (disk w) path); intros [= <- <-];
    (split; [reflexivity|]); cbn; rewrite ?insert_insert_eq; eauto.
Qed.

(** The [try] statement of the CCMI-1 loop always returns. *)
Lemma ccmi1_fetch_spec E fileURL destfile w :
  exists w', Ccmi1.fetch E fileURL destfile w = (Ok tt, w')
             /\ fetched E fileURL destfile w w'.
Proof.
  unfold Ccmi1.fetch, try_except, bind, do_get, fetched.
  destruct (session_get E (requests w) fileURL) as [|status content] eqn:Hget.
  { eexists. split; [reflexivity|]. cbn. split; [reflexivity|].
    split; [now left|]. intros _. split; reflexivity. }
  cbn [fst snd]. unfold Ccmi1.raise_for_status.
  destruct ((400 <=? status) && (status <? 600)).
  { eexists. split; [reflexivity|]. cbn. split; [reflexivity|].
    split; [now left|]. discriminate. }
  cbn [ret].
  destruct (write_file E destfile content (note_request fileURL w))
    as [[[]|e] w1] eqn:Hw; apply write_file_disk in Hw as [Hr Hd]; cbn in Hr, Hd.
  - eexists. split; [reflexivity|]. cbn.
    split; [exact Hr|]. split; [exact Hd|]. discriminate.
  - destruct e; (eexists; split; [reflexivity|]; cbn;
      split; [exact Hr|]; split; [exact Hd|]; discriminate).
Qed.

(** The [try] statement of the CCMI-2022 loop always returns. *)
Lemma ccmi2022_fetch_spec E fileURL destfile w :
  exists w', Ccmi2022.fetch E fileURL destfile w = (Ok tt, w')
             /\ fetched E fileURL destfile w w'.
Proof.
  unfold Ccmi2022.fetch, try_except, bind, do_get, fetched.
  destruct (session_get E (requests w) fileURL) as [|status content] eqn:Hget.
  { eexists. split; [reflexivity|]. cbn. split; [reflexivity|].
    split; [now left|]. intros _. split; reflexivity. }
  cbn [fst snd].
  destruct (write_file E destfile content (note_request fileURL w))
    as [[[]|e] w1] eqn:Hw; apply write_file_disk in Hw as [Hr Hd]; cbn in Hr, Hd.
  - eexists. split; [reflexivity|]. cbn.
    split; [exact Hr|]. split; [exact Hd|]. discriminate.
  - eexists. split; [reflexivity|]. cbn.
    split; [exact Hr|]. split; [exact Hd|]. discriminate.
Qed.

Section DownloadLoop.
Variable E : env.
Variable downloaddir : string.
Variable prepare : string -> io world string.
Variable fetch : string -> string -> io world unit.
Hypothesis prepare_spec : forall afile w r w',
  prepare afile w = (r, w') ->
  requests w' = requests w /\ disk w ⊆ disk w'
  /\ (forall d, r = Ok d -> destination downloaddir afile = Ok d).
Hypothesis fetch_spec : forall fileURL destfile w,
  exists w', fetch fileURL destfile w = (Ok tt, w')
             /\ fetched E fileURL destfile w w'.

(** One turn of the loop: the destination cannot be prepared and the
    exception leaves the loop, or the file is skipped, or it is
    fetched. *)
Lemma download_body_step ow vb afile w :
  (exists e w', prepare afile w = (Raise e, w')
                /\ download_body prepare fetch ow vb afile w = (Raise e, w'))
  \/ (exists d w1 w',
        prepare afile w = (Ok d, w1)
        /\ download_body prepare fetch ow vb afile w = (Ok tt, w')
        /\ ((negb ow && path_exists (disk w1) d = true
             /\ requests w' = requests w1 /\ disk w' = disk w1)
            \/ (negb ow && path_exists (disk w1) d = false
                /\ exists w2, requests w2 = requests w1 /\ disk w2 = disk w1
                              /\ fetched E (file_url afile) d w2 w'))).
Proof.
  unfold download_body, bind.
  destruct (prepare afile w) as [[d|e] w1] eqn:Hp; [|left; eauto].
  right. exists d, w1. unfold get_world.
  destruct (negb ow && path_exists (disk w1) d) eqn:Hskip.
  - destruct (say_spec vb (MsgSkipping d) w1) as (w' & Hs & Hr & Hd).
    exists w'. split; [reflexivity|]. split; [exact Hs|]. left. auto.
  - destruct (say_spec vb (MsgDownloading (file_url afile)) w1)
      as (wa & Hsa & Hra & Hda).
    destruct (say_spec vb (MsgDestination d) wa) as (wb & Hsb & Hrb & Hdb).
    destruct (fetch_spec (file_url afile) d wb) as (w' & Hf & Hfetched).
    exists w'. split; [reflexivity|]. rewrite Hsa, Hsb, Hf.
    split; [reflexivity|]. right. split; [reflexivity|].
    exists wb. split; [congruence|]. split; [congruence|]. exact Hfetched.
Qed.

Lemma path_exists_true d p : path_exists d p = true <-> is_Some (d !! p).
Proof. unfold path_exists. apply bool_decide_eq_true. Qed.

Lemma path_exists_false d p : path_exists d p = false <-> d !! p = None.
Proof.
  unfold path_exists. rewrite bool_decide_eq_false, eq_None_not_Some. tauto.
Qed.

Lemma path_exists_subseteq d d' p :
  d ⊆ d' -> path_exists d p = true -> path_exists d' p = true.
Proof.
  rewrite !path_exists_true. intros Hsub [n Hn].
  exists n. eapply lookup_weaken; eassumption.
Qed.

Lemma path_exists_insert d q n p :
  path_exists d p = true -> path_exists (<[q:=n]> d) p = true.
Proof.
  rewrite !path_exists_true. intros [m Hm].
  destruct (decide (q = p)) as [->|Hne].
  - rewrite lookup_insert_eq. eauto.
  - rewrite lookup_insert_ne by exact Hne. eauto.
Qed.

Lemma grows_refl w : grows w w.
Proof. split; [exists []; now rewrite app_nil_r | auto]. Qed.

Lemma grows_trans w1 w2 w3 : grows w1 w2 -> grows w2 w3 -> grows w1 w3.
Proof.
  intros [[n1 H1] G1] [[n2 H2] G2]. split; [|auto].
  exists (n1 ++ n2). now rewrite H2, H1, app_assoc.
Qed.

Lemma attended_grows w w' afile :
  grows w w' -> attended downloaddir w afile -> attended downloaddir w' afile.
Proof.
  intros [[new Hnew] Hdisk] [Hreq|(d & Hd & Hex)].
  - left. rewrite Hnew. apply elem_of_app. now left.
  - right. exists d. split; [exact Hd | now apply Hdisk].
Qed.

Lemma file_url_inj a b : file_url a = file_url b -> a = b.
Proof. unfold file_url. apply String.app_inj. Qed.

Lemma download_body_grows ow vb afile w :
  grows w (download_body prepare fetch ow vb afile w).2.
Proof.
  destruct (download_body_step ow vb afile w)
    as [(e & w' & Hp & ->)|(d & w1 & w' & Hp & -> & Hcase)]; cbn [snd];
    apply prepare_spec in Hp as (Hr & Hd & _).
  - split; [exists []; now rewrite app_nil_r, Hr|].
    intros p. now apply path_exists_subseteq.
  - destruct Hcase as [(_ & Hr' & Hd')|(_ & w2 & Hr2 & Hd2 & Hr' & Hd' & _)].
    + split; [exists []; rewrite app_nil_r; congruence|].
      intros p Hp. rewrite Hd'. eapply path_exists_subseteq; eassumption.
    + split; [eexists; rewrite Hr', Hr2, Hr; reflexivity|].
      intros p Hp. apply (path_exists_subseteq _ _ _ Hd) in Hp.
      rewrite <- Hd2 in Hp.
      destruct Hd' as [->|(c & ->)]; [exact Hp | now apply path_exists_insert].
Qed.

Lemma download_loop_grows ow vb filelist w :
  grows w (for_each filelist (download_body prepare fetch ow vb) w).2.
Proof.
  apply (keeps_for_each (grows w)); [|apply grows_refl].
  intros afile _ w1 H1. eapply grows_trans; [exact H1|].
  apply download_body_grows.
Qed.

(** A turn that returns has attended to its file. *)
Lemma download_body_attends ow vb afile w w' :
  download_body prepare fetch ow vb afile w = (Ok tt, w') ->
  attended downloaddir w' afile.
Proof.
  intros Hrun.
  destruct (download_body_step ow vb afile w)
    as [(e & w1 & Hp & Hb)|(d & w1 & w2 & Hp & Hb & Hcase)];
    rewrite Hb in Hrun; [discriminate|]. injection Hrun as ->.
  apply prepare_spec in Hp as (Hr & Hd & Hdest).
  destruct Hcase as [(Hskip & _ & Hd')|(_ & w3 & _ & _ & Hr' & _)].
  - right. exists d. split; [now apply Hdest|].
    apply andb_true_iff in Hskip as [_ Hex]. now rewrite Hd'.
  - left. rewrite Hr'. apply elem_of_app. right. left.
Qed.

(** The loop returns, every file attended to, or it stops at a file
    whose destination could not be prepared. *)
Lemma download_loop_outcome ow vb filelist w r w' :
  for_each filelist (download_body prepare fetch ow vb) w = (r, w') ->
  (r = Ok tt /\ Forall (attended downloaddir w') filelist)
  \/ (exists done afile rest e w1,
        filelist = done ++ afile :: rest
        /\ for_each done (download_body prepare fetch ow vb) w = (Ok tt, w1)
        /\ prepare afile w1 = (Raise e, w')
        /\ r = Raise e).
Proof.
  revert w. induction filelist as [|afile rest IH]; intros w Hrun.
  - injection Hrun as <- <-. left. split; [reflexivity | constructor].
  - cbn [for_each] in Hrun.
    destruct (download_body_step ow vb afile w)
      as [(e & w1 & Hp & Hb)|(d & w0 & w1 & Hp & Hb & _)].
    + rewrite (bind_raise _ _ _ _ _ Hb) in Hrun. injection Hrun as <- <-.
      right. exists [], afile, rest, e, w.
      split; [reflexivity|]. split; [reflexivity|]. split; [exact Hp | reflexivity].
    + rewrite (bind_ok _ _ _ _ _ Hb) in Hrun.
      destruct (IH w1 Hrun)
        as [[-> Hall]|(done & a & rest' & e & w2 & -> & Hdone & Hprep & ->)].
      * left. split; [reflexivity|]. constructor; [|exact Hall].
        apply (attended_grows w1); [|now apply (download_body_attends ow vb _ w)].
        pose proof (download_loop_grows ow vb rest w1) as Hg.
        now rewrite Hrun in Hg.
      * right. exists (afile :: done), a, rest', e, w2.
        split; [reflexivity|]. split; [|split; [exact Hprep | reflexivity]].
        cbn [for_each]. now rewrite (bind_ok _ _ _ _ _ Hb).
Qed.

Lemma download_body_keeps_skip_invariant w0 vb afile :
  keeps (skip_invariant downloaddir w0)
        (download_body prepare fetch false vb afile).
Proof.
  intros w (Hsub & new & Hreq & Hall).
  destruct (download_body_step false vb afile w)
    as [(e & w' & Hp & ->)|(d & w1 & w' & Hp & -> & Hcase)]; cbn [snd];
    apply prepare_spec in Hp as (Hr & Hd & Hdest).
  - split; [etrans; eassumption|]. exists new. split; [congruence | exact Hall].
  - destruct Hcase as [(_ & Hr' & Hd')|(Hne & w2 & Hr2 & Hd2 & Hr' & Hd' & _)].
    + split; [rewrite Hd'; etrans; eassumption|].
      exists new. split; [congruence | exact Hall].
    + cbn [negb andb] in Hne. apply path_exists_false in Hne.
      assert (Hnone : disk w0 !! d = None).
      { eapply lookup_weaken_None; [exact Hne | etrans; eassumption]. }
      split.
      * destruct Hd' as [->|(c & ->)]; rewrite Hd2; [etrans; eassumption|].
        apply insert_subseteq_r; [exact Hnone | etrans; eassumption].
      * exists (new ++ [file_url afile]). split.
        -- rewrite Hr', Hr2, Hr, Hreq. now rewrite app_assoc.
        -- apply Forall_app. split; [exact Hall|]. constructor; [|constructor].
           exists afile, d. auto.
Qed.

(** With overwriting disabled, a file whose destination is on the disk
    is not asked for again, and the destination is left as it is. *)
Lemma download_loop_skips vb filelist w afile destfile :
  destination downloaddir afile = Ok destfile ->
  path_exists (disk w) destfile = true ->
  let w' := (for_each filelist (download_body prepare fetch false vb) w).2 in
  (exists new, requests w' = requests w ++ new /\ file_url afile ∉ new)
  /\ disk w' !! destfile = disk w !! destfile.
Proof.
  intros Hdest Hex w'.
  assert (Hinv : skip_invariant downloaddir w w').
  { apply (keeps_for_each (skip_invariant downloaddir w)).
    - intros a _. apply download_body_keeps_skip_invariant.
    - split; [reflexivity|]. exists []. split; [now rewrite app_nil_r|constructor]. }
  destruct Hinv as (Hsub & new & Hreq & Hall). split.
  - exists new. split; [exact Hreq|]. intros Hin.
    rewrite Forall_forall in Hall.
    destruct (Hall _ Hin) as (a & d & Hurl & Hd & Hnone).
    apply file_url_inj in Hurl as <-.
    apply path_exists_true in Hex as [n Hn]. congruence.
  - apply path_exists_true in Hex as [n Hn]. rewrite Hn.
    eapply lookup_weaken; eassumption.
Qed.
End DownloadLoop.

(** C7. With overwriting disabled, a file of the list whose destination
    is already on the disk is never requested and its destination keeps
    its bytes, in the download loop of either catalog script. *)
Theorem download_skips_existing_files
    (E : env) (downloaddir : string) (verbose : bool)
    (filelist : list string) (w : world) (afile destfile : string) :
  afile ∈ filelist ->
  destination downloaddir afile = Ok destfile ->
  path_exists (disk w) destfile = true ->
  ((exists new,
       requests (Ccmi1.download E downloaddir false verbose filelist w).2
       = requests w ++ new
       /\ file_url afile ∉ new)
   /\ disk (Ccmi1.download E downloaddir false verbose filelist w).2
        !! destfile = disk w !! destfile)
  /\ ((exists new,
          requests (Ccmi2022.download E downloaddir false verbose filelist w).2
          = requests w ++ new
          /\ file_url afile ∉ new)
      /\ disk (Ccmi2022.download E downloaddir false verbose filelist w).2
           !! destfile = disk w !! destfile).
Proof.
  intros _ Hdest Hex. split.
  - apply (download_loop_skips E downloaddir (Ccmi1.prepare E downloaddir)
             (Ccmi1.fetch E)); auto.
    + intros a w0 r w0'. apply ccmi1_prepare_spec.
    + intros u d w0. apply ccmi1_fetch_spec.
  - apply (download_loop_skips E downloaddir (Ccmi2022.prepare downloaddir)
             (Ccmi2022.fetch E)); auto.
    + intros a w0 r w0'. apply ccmi2022_prepare_spec.
    + intros u d w0. apply ccmi2022_fetch_spec.
Qed.

(** C7 at a disk that holds the destination of the one file listed. *)
Lemma download_skips_existing_files_witness :
  ((exists new,
       requests (Ccmi1.download serving_env "downloads" false true
                   [sample_file] stocked_world).2
       = requests stocked_world ++ new
       /\ file_url sample_file ∉ new)
   /\ disk (Ccmi1.download serving_env "downloads" false true [sample_file]
              stocked_world).2 !! sample_destination
      = disk stocked_world !! sample_destination)
  /\ ((exists new,
          requests (Ccmi2022.download serving_env "downloads" false true
                      [sample_file] stocked_world).2
          = requests stocked_world ++ new
          /\ file_url sample_file ∉ new)
      /\ disk (Ccmi2022.download serving_env "downloads" false true
                 [sample_file] stocked_world).2 !! sample_destination
         = disk stocked_world !! sample_destination).
Proof.
  apply (download_skips_existing_files serving_env "downloads" true
           [sample_file] stocked_world sample_file sample_destination).
  - left.
  - vm_compute. reflexivity.
  - vm_compute. reflexivity.
Defined.

(** ** Failing transfers *)

Lemma retrbinary_failure E dfile rest s :
  Ftp.retr E (Ftp.cwd s) dfile = None ->
  for_each (dfile :: rest) (Ftp.retrbinary E) s
  = (Raise FTPError,
     Ftp.Session (Ftp.cwd s) (Ftp.sent s ++ [Ftp.RETR (Ftp.cwd s) dfile])
                 (<[dfile:=""]> (Ftp.local_files s))).
Proof.
  intros H. cbn [for_each]. unfold bind, Ftp.retrbinary. now rewrite H.
Qed.

(** C8, as stated, fails on the FTP script: when the transfer of the
    first of two files fails, the run ends and the second file is never
    asked for. *)
Lemma ftp_failed_transfer_ends_the_run :
  Ftp.pull failing_retr_server "/d/h2o" ftp_start
  = (Raise FTPError,
     Ftp.Session "/d/h2o/gnz/v1"
       [Ftp.CWD "/d/h2o"; Ftp.MLSD "/d/h2o";
        Ftp.CWD "/d/h2o/gnz"; Ftp.MLSD "/d/h2o/gnz";
        Ftp.CWD "/d/h2o/gnz/v1"; Ftp.MLSD "/d/h2o/gnz/v1";
        Ftp.RETR "/d/h2o/gnz/v1" "a.nc"]
       {["a.nc" := ""]}).
Proof. vm_compute. reflexivity. Qed.

Lemma write_file_raises E path content w e w' :
  write_file E path content w = (Raise e, w') -> e = OSError.
Proof.
  unfold write_file, bind, open_for_writing, write_opened.
  destruct (disk w !! path) as [[bytes|]|];
    try (intros [= <- _]; reflexivity);
    destruct (os_write E (disk w) path); intros [= <- _]; reflexivity.
Qed.

Lemma fetch_request_raises E fileURL destfile w :
  session_get E (requests w) fileURL = GetRaises ->
  Ccmi1.fetch E fileURL destfile w
  = (Ok tt, note_printed (MsgDownloadFailed fileURL) (note_request fileURL w))
  /\ Ccmi2022.fetch E fileURL destfile w
     = (Ok tt,
        note_printed (MsgDownloadFailed fileURL) (note_request fileURL w)).
Proof.
  intros Hget.
  unfold Ccmi1.fetch, Ccmi2022.fetch, try_except, bind, do_get.
  rewrite Hget. split; reflexivity.
Qed.

Lemma ccmi1_fetch_bad_status E fileURL destfile w status content :
  session_get E (requests w) fileURL = Response status content ->
  400 <= status < 600 ->
  Ccmi1.fetch E fileURL destfile w
  = (Ok tt, note_printed (MsgDownloadFailed fileURL) (note_request fileURL w)).
Proof.
  intros Hget Hs. unfold Ccmi1.fetch, try_except, bind, do_get.
  rewrite Hget. cbn [fst snd]. unfold Ccmi1.raise_for_status.
  assert ((400 <=? status) && (status <? 600) = true) as ->; [|reflexivity].
  apply andb_true_iff. split; [apply Z.leb_le | apply Z.ltb_lt]; lia.
Qed.

Lemma fetch_write_fails E fileURL destfile w status content e w1 :
  session_get E (requests w) fileURL = Response status content ->
  write_file E destfile content (note_request fileURL w) = (Raise e, w1) ->
  (~ 400 <= status < 600 ->
   Ccmi1.fetch E fileURL destfile w
   = (Ok tt, note_printed (MsgUnexpected fileURL) w1))
  /\ Ccmi2022.fetch E fileURL destfile w
     = (Ok tt, note_printed (MsgDownloadFailed fileURL) w1).
Proof.
  intros Hget Hw. pose proof (write_file_raises _ _ _ _ _ _ Hw) as ->. split.
  - intros Hs. unfold Ccmi1.fetch, try_except, bind, do_get.
    rewrite Hget. cbn [fst snd]. unfold Ccmi1.raise_for_status.
    assert ((400 <=? status) && (status <? 600) = false) as ->.
    { apply andb_false_iff.
      destruct (Z.leb_spec 400 status); [right; apply Z.ltb_ge; lia | now left]. }
    cbn [ret]. now rewrite Hw.
  - unfold Ccmi2022.fetch, try_except, bind, do_get.
    rewrite Hget. cbn [fst snd]. now rewrite Hw.
Qed.

(** C8, amended. In the two catalog scripts the [try] statement of the
    download loop lets no exception of the request or of the disk
    through. A request that raises is
    reported as a failed download and nothing is written, in both
    scripts; in the CCMI-1 script so is a response with a status from
    400 to 599; when the destination cannot be opened or written the
    CCMI-1 script reports an unexpected error and the CCMI-2022 script a
    failed download. Hence the loop returns with every file requested or
    present at its destination, unless the destination of a file cannot
    be prepared, which is outside the [try] and ends the loop; with file
    names of four fields the CCMI-2022 loop always returns. In the FTP
    script a failed transfer ends the run. *)
Theorem transfer_failures_are_skipped :
  (forall (E : env) (fileURL destfile : string) (w : world),
      session_get E (requests w) fileURL = GetRaises ->
      Ccmi1.fetch E fileURL destfile w
      = (Ok tt,
         note_printed (MsgDownloadFailed fileURL) (note_request fileURL w))
      /\ Ccmi2022.fetch E fileURL destfile w
         = (Ok tt,
            note_printed (MsgDownloadFailed fileURL)
              (note_request fileURL w)))
  /\ (forall (E : env) (fileURL destfile : string) (w : world)
             (status : Z) (content : string),
        session_get E (requests w) fileURL = Response status content ->
        400 <= status < 600 ->
        Ccmi1.fetch E fileURL destfile w
        = (Ok tt,
           note_printed (MsgDownloadFailed fileURL) (note_request fileURL w)))
  /\ (forall (E : env) (fileURL destfile : string) (w : world)
             (status : Z) (content : string) (e : exn) (w1 : world),
        session_get E (requests w) fileURL = Response status content ->
        write_file E destfile content (note_request fileURL w)
        = (Raise e, w1) ->
        (~ 400 <= status < 600 ->
         Ccmi1.fetch E fileURL destfile w
         = (Ok tt, note_printed (MsgUnexpected fileURL) w1))
        /\ Ccmi2022.fetch E fileURL destfile w
           = (Ok tt, note_printed (MsgDownloadFailed fileURL) w1))
  /\ (forall (E : env) (fileURL destfile : string) (w : world),
        (exists w', Ccmi1.fetch E fileURL destfile w = (Ok tt, w')
                    /\ fetched E fileURL destfile w w')
        /\ (exists w', Ccmi2022.fetch E fileURL destfile w = (Ok tt, w')
                       /\ fetched E fileURL destfile w w'))
  /\ (forall (E : env) (downloaddir : string) (ow vb : bool)
             (filelist : list string) (w : world) (r : outcome unit)
             (w' : world),
        Ccmi1.download E downloaddir ow vb filelist w = (r, w') ->
        (r = Ok tt /\ Forall (attended downloaddir w') filelist)
        \/ (exists done afile rest e w1,
              filelist = done ++ afile :: rest
              /\ Ccmi1.download E downloaddir ow vb done w = (Ok tt, w1)
              /\ Ccmi1.prepare E downloaddir afile w1 = (Raise e, w')
              /\ r = Raise e))
  /\ (forall (E : env) (downloaddir : string) (ow vb : bool)
             (filelist : list string) (w : world),
        Forall (fun afile => exists d, destination downloaddir afile = Ok d)
               filelist ->
        exists w',
          Ccmi2022.download E downloaddir ow vb filelist w = (Ok tt, w')
          /\ Forall (attended downloaddir w') filelist)
  /\ (forall (E : Ftp.server) (dfile : string) (rest : list string)
             (s : Ftp.session),
        Ftp.retr E (Ftp.cwd s) dfile = None ->
        for_each (dfile :: rest) (Ftp.retrbinary E) s
        = (Raise FTPError,
           Ftp.Session (Ftp.cwd s)
             (Ftp.sent s ++ [Ftp.RETR (Ftp.cwd s) dfile])
             (<[dfile:=""]> (Ftp.local_files s)))).
Proof.
  split; [|split; [|split; [|split; [|split; [|split]]]]].
  - intros E fileURL destfile w. apply fetch_request_raises.
  - intros E fileURL destfile w status content.
    apply ccmi1_fetch_bad_status.
  - intros E fileURL destfile w status content e w1.
    apply fetch_write_fails.
  - intros E fileURL destfile w. split;
      [apply ccmi1_fetch_spec | apply ccmi2022_fetch_spec].
  - intros E downloaddir ow vb filelist w r w' Hrun.
    apply (download_loop_outcome E downloaddir (Ccmi1.prepare E downloaddir)
             (Ccmi1.fetch E)) in Hrun; [exact Hrun| |].
    + intros a w0 r0 w0'. apply ccmi1_prepare_spec.
    + intros u d w0. apply ccmi1_fetch_spec.
  - intros E downloaddir ow vb filelist w Hnames.
    destruct (Ccmi2022.download E downloaddir ow vb filelist w) as [r w'] eqn:Hrun.
    apply (download_loop_outcome E downloaddir (Ccmi2022.prepare downloaddir)
             (Ccmi2022.fetch E)) in Hrun.
    + destruct Hrun as [[-> Hall]|(done & a & rest & e & w1 & -> & _ & Hp & _)].
      * eauto.
      * apply Forall_app in Hnames as [_ Hnames].
        apply Forall_cons in Hnames as [(d & Hd) _].
        unfold Ccmi2022.prepare in Hp. rewrite Hd in Hp. discriminate.
    + intros a w0 r0 w0'. apply ccmi2022_prepare_spec.
    + intros u d w0. apply ccmi2022_fetch_spec.
  - intros E dfile rest s. apply retrbinary_failure.
Qed.

(** The amended C8 at a server whose every download request raises, at a
    server that answers 404, and at a destination that cannot be
    opened. *)
Lemma transfer_failures_are_skipped_witness :
  (Ccmi1.fetch failing_env (file_url sample_file) sample_destination
     empty_world
   = (Ok tt,
      note_printed (MsgDownloadFailed (file_url sample_file))
        (note_request (file_url sample_file) empty_world))
   /\ Ccmi2022.fetch failing_env (file_url sample_file) sample_destination
        empty_world
      = (Ok tt,
         note_printed (MsgDownloadFailed (file_url sample_file))
           (note_request (file_url sample_file) empty_world)))
  /\ Ccmi1.fetch missing_env (file_url sample_file) sample_destination
       empty_world
     = (Ok tt,
        note_printed (MsgDownloadFailed (file_url sample_file))
          (note_request (file_url sample_file) empty_world))
  /\ ((~ 400 <= 200 < 600 ->
       Ccmi1.fetch readonly_env (file_url sample_file) sample_destination
         empty_world
       = (Ok tt,
          note_printed (MsgUnexpected (file_url sample_file))
            (note_request (file_url sample_file) empty_world)))
      /\ Ccmi2022.fetch readonly_env (file_url sample_file)
           sample_destination empty_world
         = (Ok tt,
            note_printed (MsgDownloadFailed (file_url sample_file))
              (note_request (file_url sample_file) empty_world)))
  /\ (exists w',
        Ccmi2022.download failing_env "downloads" false true
          [sample_file; "badc/CMAM/ta_mon_CMAM_refC1_r1i1p1_1972.nc"]
          empty_world
        = (Ok tt, w')
        /\ Forall (attended "downloads" w')
             [sample_file; "badc/CMAM/ta_mon_CMAM_refC1_r1i1p1_1972.nc"]).
Proof.
  split; [|split; [|split]].
  - apply (proj1 transfer_failures_are_skipped failing_env). reflexivity.
  - apply (proj1 (proj2 transfer_failures_are_skipped) missing_env
             (file_url sample_file) sample_destination empty_world 404
             "not found"); [reflexivity | lia].
  - apply (proj1 (proj2 (proj2 transfer_failures_are_skipped)) readonly_env
             (file_url sample_file) sample_destination empty_world 200
             "payload" OSError); reflexivity.
  - apply (proj1 (proj2 (proj2 (proj2 (proj2 (proj2
             transfer_failures_are_skipped)))))).
    repeat constructor; eexists; vm_compute; reflexivity.
Defined.

(** ** The first two levels of the inventory over a lister stub *)

(** Runs the pure steps at the head of a program. *)
Ltac run_pure :=
  repeat (progress (cbn [py_getitem py_str lift_outcome obind];
                    rewrite ?bind_ret)).

Lemma count_where_app p l1 l2 :
  count_where p (l1 ++ l2) = (count_where p l1 + count_where p l2)%nat.
Proof. induction l1 as [|v l1 IH]; cbn; [reflexivity | rewrite IH; lia]. Qed.

Lemma count_where_insert p i x l :
  count_where p (py_insert i x l)
  = ((if p x then 1 else 0) + count_where p l)%nat.
Proof.
  unfold py_insert. rewrite count_where_app. cbn.
  rewrite <- (take_drop i l) at 3. rewrite count_where_app. lia.
Qed.

Lemma count_where_names names :
  count_where is_name (PStr <$> names) = length names
  /\ count_where is_branch (PStr <$> names) = O.
Proof. induction names as [|n names [IH1 IH2]]; cbn; [auto | split; lia]. Qed.

Section LevelsOverStub.
Context {W : Type} (titles : string -> io W (list string)).
Context (of_inst : string -> string) (of_model : string -> string -> string).
Variable children : string -> list string.
Variable good : string -> Prop.
Hypothesis titles_stub : forall url w,
  good url -> exists w', titles url w = (Ok (children url), w').
Hypothesis good_inst : forall inst, good (of_inst inst).
Hypothesis good_model : forall inst model, good (of_model inst model).

Abbreviation entry := (model_entry children of_inst).
Abbreviation cnt := (model_count children of_inst).

Lemma models_loop_from instts k m w :
  (k + m)%nat = length instts ->
  exists w',
    fold_each (seq k m)
      (PList (entry <$> take k instts),
       (cnt <$> take k instts) ++ replicate m O)
      (fun '(invntry, nmdls) ii =>
         inst <- lift_outcome (py_index instts ii) ;;
         mname <- titles (of_inst inst) ;;
         nmdls' <- lift_outcome (np_set nmdls ii (length mname)) ;;
         let work := PList [PStr inst; PList (PStr <$> mname)] in
         invntry' <- lift_outcome (py_append_method work invntry) ;;
         ret (invntry', nmdls')) w
    = (Ok (PList (entry <$> instts), cnt <$> instts), w').
Proof.
  revert k w. induction m as [|m IH]; intros k w Hlen.
  - exists w. cbn. rewrite Nat.add_0_r in Hlen. subst k.
    now rewrite firstn_all, app_nil_r.
  - cbn [seq fold_each].
    destruct (lookup_lt_is_Some_2 instts k) as [inst Hinst]; [lia|].
    destruct (titles_stub (of_inst inst) w (good_inst inst)) as (w1 & Ht).
    destruct (IH (S k) w1) as (w' & Hrest); [lia|].
    exists w'. rewrite <- Hrest. clear Hrest IH.
    rewrite (bind_ok _ _ w
               (PList (entry <$> take (S k) instts),
                (cnt <$> take (S k) instts) ++ replicate m O) w1);
      [reflexivity|].
    cbn beta iota.
    unfold py_index. rewrite Hinst. cbn [lift_outcome]. rewrite bind_ret.
    rewrite (bind_ok _ _ _ _ _ Ht).
    assert (Hk : length (cnt <$> take k instts) = k).
    { rewrite length_fmap, length_take. lia. }
    unfold np_set. rewrite bool_decide_eq_true_2.
    2:{ rewrite length_app, Hk, length_replicate. lia. }
    cbn [lift_outcome py_append_method]. rewrite !bind_ret. unfold ret.
    rewrite (take_S_r _ _ _ Hinst), !fmap_app. cbn [fmap list_fmap].
    f_equal. f_equal. f_equal.
    rewrite <- (Nat.add_0_r k) at 1. rewrite <- Hk at 1.
    rewrite insert_app_r. cbn. now rewrite <- app_assoc.
Qed.

(** Level 1 over a stub: one entry per institution, with the names of
    its models, and the numbers of models recorded. *)
Lemma models_loop_spec instts w :
  exists w',
    models_loop titles of_inst instts w
    = (Ok (PList (entry <$> instts), cnt <$> instts), w').
Proof.
  unfold models_loop, py_range, np_zeros. rewrite Nat.sub_0_r.
  apply (models_loop_from instts 0 (length instts) w). reflexivity.
Qed.
Abbreviation nxs := (experiment_counts children of_inst of_model).

Lemma py_update_entry (done todo : list pyval) inst L L' f :
  f (PList L) = Ok (PList L') ->
  py_update [length done; 1%nat] f
    (PList (done ++ PList [PStr inst; PList L] :: todo))
  = Ok (PList (done ++ PList [PStr inst; PList L'] :: todo)).
Proof.
  intros Hf. cbn [py_update].
  rewrite (list_lookup_middle done todo _ (length done) eq_refl).
  cbn [lookup list_lookup]. rewrite Hf.
  cbn [insert list_insert].
  rewrite <- (Nat.add_0_r (length done)) at 1.
  now rewrite insert_app_r.
Qed.

(** The experiments of one model are all inserted, wherever the
    computed positions fall. *)
Lemma insert_experiments_from (done todo : list pyval) inst ij expname
    k m L (w : W) :
  (k + m)%nat = length expname ->
  exists L',
    fold_each (seq k m) (PList (done ++ PList [PStr inst; PList L] :: todo))
      (fun invntry ik =>
         e <- lift_outcome (py_index expname ik) ;;
         lift_outcome
           (py_update [length done; 1%nat]
              (py_insert_method (2 * ij + ik + 1) (PList [PStr e]))
              invntry)) w
    = (Ok (PList (done ++ PList [PStr inst; PList L'] :: todo)), w)
    /\ count_where is_name L' = count_where is_name L
    /\ count_where is_branch L' = (count_where is_branch L + m)%nat.
Proof.
  revert k L. induction m as [|m IH]; intros k L Hlen.
  - exists L. cbn. repeat split; lia.
  - cbn [seq fold_each].
    destruct (lookup_lt_is_Some_2 expname k) as [e He]; [lia|].
    set (L1 := py_insert (2 * ij + k + 1) (PList [PStr e]) L).
    destruct (IH (S k) L1) as (L' & Hrun & Hn & Hb); [lia|].
    exists L'. split; [|split].
    + rewrite <- Hrun.
      rewrite (bind_ok _ _ w
                 (PList (done ++ PList [PStr inst; PList L1] :: todo)) w);
        [reflexivity|].
      unfold py_index. rewrite He. cbn [lift_outcome]. rewrite bind_ret.
      now rewrite (py_update_entry done todo inst L L1).
    + rewrite Hn. unfold L1. now rewrite count_where_insert.
    + rewrite Hb. unfold L1. rewrite count_where_insert. cbn. lia.
Qed.

Lemma insert_experiments_spec (done todo : list pyval) inst ij expname L
    (w : W) :
  exists L',
    insert_experiments (length done) ij expname
      (PList (done ++ PList [PStr inst; PList L] :: todo)) w
    = (Ok (PList (done ++ PList [PStr inst; PList L'] :: todo)), w)
    /\ count_where is_name L' = count_where is_name L
    /\ count_where is_branch L' = (count_where is_branch L + length expname)%nat.
Proof.
  unfold insert_experiments, py_range. rewrite Nat.sub_0_r.
  now apply insert_experiments_from.
Qed.

(** The models of one institution, from the [j]-th on. *)
Lemma experiments_of_models_from (done todo : list pyval) inst ms :
  forall j L P R (w : W),
    drop j (children (of_inst inst)) = ms ->
    exists L' w',
      fold_each (seq j (length ms))
        (PList (done ++ PList [PStr inst; PList L] :: todo),
         P ++ replicate (length ms + R) O, length P)
        (experiments_of_model titles of_model (length done) (entry inst)) w
      = (Ok (PList (done ++ PList [PStr inst; PList L'] :: todo),
             P ++ ((fun model => length (children (of_model inst model))) <$> ms)
               ++ replicate R O,
             (length P + length ms)%nat), w')
      /\ count_where is_name L' = count_where is_name L
      /\ count_where is_branch L'
         = (count_where is_branch L
            + sum_list ((fun model => length (children (of_model inst model)))
                          <$> ms))%nat.
Proof.
  induction ms as [|model ms IH]; intros j L P R w Hdrop.
  - exists L, w. cbn. rewrite Nat.add_0_r. repeat split; lia.
  - cbn [length seq fold_each].
    assert (Hj : children (of_inst inst) !! j = Some model).
    { rewrite <- (Nat.add_0_r j), <- lookup_drop, Hdrop. reflexivity. }
    assert (Hdrop' : drop (S j) (children (of_inst inst)) = ms).
    { rewrite (drop_S _ _ _ Hj) in Hdrop. congruence. }
    destruct (titles_stub (of_model inst model) w (good_model inst model))
      as (w1 & Ht).
    set (expname := children (of_model inst model)) in *.
    destruct (insert_experiments_spec done todo inst j expname L w1)
      as (L1 & Hins & Hn1 & Hb1).
    destruct (IH (S j) L1 (P ++ [length expname]) R w1 Hdrop')
      as (L' & w' & Hrun & Hn & Hb).
    exists L', w'. split; [|split].
    + rewrite (bind_ok _ _ w
                 (PList (done ++ PList [PStr inst; PList L1] :: todo),
                  (P ++ [length expname]) ++ replicate (length ms + R) O,
                  length (P ++ [length expname])) w1).
      * rewrite Hrun. rewrite length_app. cbn [length fmap list_fmap].
        rewrite <- !app_assoc. cbn [app]. do 3 f_equal. lia.
      * unfold experiments_of_model, model_entry. cbn [py_getitem].
        unfold py_index at 1 2. cbn [lookup list_lookup]. run_pure.
        unfold py_index. rewrite list_lookup_fmap, Hj.
        cbn [fmap option_fmap option_map]. run_pure.
        rewrite (bind_ok _ _ _ _ _ Ht).
        rewrite (bind_ok _ _ _ _ _ Hins).
        unfold np_set. rewrite bool_decide_eq_true_2.
        2:{ rewrite length_app, length_replicate. cbn. lia. }
        cbn [lift_outcome]. rewrite bind_ret. unfold ret.
        do 3 f_equal.
        -- rewrite <- (Nat.add_0_r (length P)) at 1. rewrite insert_app_r.
           cbn. now rewrite <- app_assoc.
        -- rewrite length_app. cbn. lia.
    + now rewrite Hn.
    + rewrite Hb, Hb1. subst expname. rewrite fmap_cons. cbn. lia.
Qed.

(** One institution: its entry gains the experiments of all its models
    and keeps its model names; the counts of its models are recorded. *)
Lemma experiments_of_institution_spec (done todo : list pyval) inst P R
    nmdls (w : W) :
  nmdls !! length done = Some (cnt inst) ->
  exists e' w',
    experiments_of_institution titles of_model nmdls
      (PList (done ++ entry inst :: todo),
       P ++ replicate (cnt inst + R) O, length P) (length done) w
    = (Ok (PList (done ++ e' :: todo), P ++ nxs inst ++ replicate R O,
           (length P + cnt inst)%nat), w')
    /\ entry_counts inst (cnt inst) (sum_list (nxs inst)) e'.
Proof.
  intros Hnm. unfold experiments_of_institution. cbn [fst py_getitem].
  unfold py_index.
  rewrite (list_lookup_middle done todo _ (length done) eq_refl), Hnm.
  run_pure. unfold py_range. rewrite Nat.sub_0_r.
  destruct (experiments_of_models_from done todo inst (children (of_inst inst))
              0 (PStr <$> children (of_inst inst)) P R w eq_refl)
    as (L' & w' & Hrun & Hn & Hb).
  exists (PList [PStr inst; PList L']), w'. split.
  - exact Hrun.
  - exists L'. split; [reflexivity|].
    destruct (count_where_names (children (of_inst inst))) as [Hn0 Hb0].
    rewrite Hn, Hb, Hn0, Hb0. split; reflexivity.
Qed.

Lemma experiments_loop_from insts :
  forall (done : list pyval) P nmdls (w : W),
    (forall i inst, insts !! i = Some inst ->
                    nmdls !! (length done + i)%nat = Some (cnt inst)) ->
    exists finals icnt w',
      fold_each (seq (length done) (length insts))
        (PList (done ++ (entry <$> insts)),
         P ++ replicate (sum_list (cnt <$> insts)) O, length P)
        (experiments_of_institution titles of_model nmdls) w
      = (Ok (PList (done ++ finals), P ++ concat (nxs <$> insts), icnt), w')
      /\ Forall2 (fun inst e =>
                    entry_counts inst (cnt inst) (sum_list (nxs inst)) e)
                 insts finals.
Proof.
  induction insts as [|inst insts IH]; intros done P nmdls w Hnm.
  - exists [], (length P), w. cbn. split; [|constructor].
    now rewrite !app_nil_r.
  - cbn [length seq fold_each fmap list_fmap].
    destruct (experiments_of_institution_spec done (entry <$> insts) inst P
                (sum_list (cnt <$> insts)) nmdls w) as (e' & w1 & Hstep & He').
    { rewrite <- (Nat.add_0_r (length done)). now apply Hnm. }
    destruct (IH (done ++ [e']) (P ++ nxs inst) nmdls w1)
      as (finals & icnt & w' & Hrun & Hall).
    { intros i inst' Hi. rewrite length_app. cbn [length].
      replace (length done + 1 + i)%nat with (length done + S i)%nat by lia.
      now apply Hnm. }
    exists (e' :: finals), icnt, w'. split; [|now constructor].
    cbn [sum_list sum_list_with] in *.
    rewrite (bind_ok _ _ _ _ _ Hstep).
    rewrite length_app in Hrun. cbn [length] in Hrun.
    rewrite Nat.add_1_r in Hrun. rewrite <- !app_assoc in Hrun.
    cbn [app] in Hrun.
    unfold experiment_counts in Hrun at 2. rewrite length_app, length_fmap in Hrun.
    exact Hrun.
Qed.

(** Level 2 over a stub. *)
Lemma experiments_loop_spec instts (w : W) :
  exists finals w',
    experiments_loop titles of_model (length instts) (PList (entry <$> instts))
      (cnt <$> instts) w
    = (Ok (PList finals, concat (nxs <$> instts)), w')
    /\ Forall2 (fun inst e =>
                  entry_counts inst (cnt inst) (sum_list (nxs inst)) e)
               instts finals.
Proof.
  unfold experiments_loop, py_range, np_zeros. rewrite Nat.sub_0_r.
  destruct (experiments_loop_from instts [] [] (cnt <$> instts) w)
    as (finals & icnt & w' & Hrun & Hall).
  { intros i inst Hi. cbn. now rewrite list_lookup_fmap, Hi. }
  exists finals, w'. split; [|exact Hall].
  cbn [app length] in Hrun. now rewrite (bind_ok _ _ _ _ _ Hrun).
Qed.

Lemma length_experiment_counts instts :
  length (concat (nxs <$> instts)) = sum_list (cnt <$> instts).
Proof.
  induction instts as [|inst instts IH]; [reflexivity|].
  cbn [fmap list_fmap concat sum_list sum_list_with].
  rewrite length_app, IH. unfold experiment_counts, model_count.
  now rewrite length_fmap.
Qed.

(** Levels 1 and 2 over a stub return, and record what the stub
    reports. *)
Lemma levels_spec instts (w : W) :
  exists invntry nmdls nxpts w',
    (l1 <- models_loop titles of_inst instts ;;
     l2 <- experiments_loop titles of_model (length instts) l1.1 l1.2 ;;
     ret (l2.1, l1.2, l2.2)) w
    = (Ok (invntry, nmdls, nxpts), w')
    /\ levels_recorded children of_inst of_model instts invntry nmdls nxpts.
Proof.
  destruct (models_loop_spec instts w) as (w1 & H1).
  destruct (experiments_loop_spec instts w1) as (finals & w' & H2 & Hall).
  exists (PList finals), (cnt <$> instts), (concat (nxs <$> instts)), w'.
  split.
  - rewrite (bind_ok _ _ _ _ _ H1). cbn [fst snd].
    now rewrite (bind_ok _ _ _ _ _ H2).
  - split; [reflexivity|]. split; [reflexivity|].
    split; [apply length_experiment_counts|]. now exists finals.
Qed.
End LevelsOverStub.

(** The two levels keep whatever the listing call keeps. *)
Section LevelsKeep.
Context {W : Type} (titles : string -> io W (list string)).
Context (of_inst : string -> string) (of_model : string -> string -> string).
Variable I : W -> Prop.
Hypothesis titles_keeps : forall url, keeps I (titles url).

Lemma models_loop_keeps instts : keeps I (models_loop titles of_inst instts).
Proof.
  apply keeps_fold_each. intros [invntry nmdls] ii _.
  apply keeps_bind; [apply keeps_lift|]. intros inst.
  apply keeps_bind; [apply titles_keeps|]. intros mname.
  apply keeps_bind; [apply keeps_lift|]. intros nmdls'.
  apply keeps_bind; [apply keeps_lift|]. intros invntry'. apply keeps_ret.
Qed.

Lemma experiments_loop_keeps ninst invntry nmdls :
  keeps I (experiments_loop titles of_model ninst invntry nmdls).
Proof.
  apply keeps_bind; [|intros; apply keeps_ret].
  apply keeps_fold_each. intros acc ii _.
  apply keeps_bind; [apply keeps_lift|]. intros twork.
  apply keeps_bind; [apply keeps_lift|]. intros n.
  apply keeps_fold_each. intros [[inv nxpts] icnt1] ij _.
  unfold experiments_of_model.
  do 5 (apply keeps_bind; [apply keeps_lift|]; intros ?).
  apply keeps_bind; [apply titles_keeps|]. intros expname.
  apply keeps_bind.
  - apply keeps_fold_each. intros inv' ik _.
    apply keeps_bind; [apply keeps_lift|]. intros e. apply keeps_lift.
  - intros inv'. apply keeps_bind; [apply keeps_lift|]. intros.
    apply keeps_ret.
Qed.
End LevelsKeep.

Lemma ccmi1_titles_keeps_disk E url d :
  keeps (fun w => disk w = d) (Ccmi1.titles E url).
Proof.
  intros w Hw. unfold Ccmi1.titles.
  destruct (ccmi1_get_elements_attempts E url default_dataset
              default_catalogRef xlink_title w) as (l & k & -> & _).
  exact Hw.
Qed.

(** ** The lister stubs of the three scripts *)

Lemma clark_tags_differ : clark default_dataset <> clark default_catalogRef.
Proof. intros H. vm_compute in H. discriminate. Qed.

Lemma findall_catalog_refs refs files :
  filter (fun c => el_tag c = clark default_catalogRef)
         ((catalog_ref <$> refs) ++ (file_dataset <$> files))
  = catalog_ref <$> refs.
Proof.
  rewrite filter_app.
  assert (Hfiles : filter (fun c => el_tag c = clark default_catalogRef)
                          (file_dataset <$> files) = []).
  { induction files as [|f files IH]; [reflexivity|].
    rewrite fmap_cons, filter_cons_False; [exact IH|].
    cbn. exact clark_tags_differ. }
  rewrite Hfiles, app_nil_r.
  induction refs as [|r refs IH]; [reflexivity|].
  rewrite fmap_cons, filter_cons_True by reflexivity. now rewrite IH.
Qed.

Lemma findall_stub_root refs files :
  findall default_dataset (stub_document refs files)
  = [Element (clark default_dataset) ∅
       ((catalog_ref <$> refs) ++ (file_dataset <$> files))].
Proof.
  unfold findall, stub_document. cbn [el_children].
  now rewrite filter_cons_True by reflexivity.
Qed.

Lemma ccmi1_attributes_of_stub refs files :
  Ccmi1.attributes_of (stub_document refs files) default_dataset
    default_catalogRef xlink_title = refs.
Proof.
  unfold Ccmi1.attributes_of. rewrite findall_stub_root.
  cbn [mbind list_bind]. rewrite app_nil_r.
  unfold findall at 1. cbn [el_children]. rewrite findall_catalog_refs.
  induction refs as [|r refs IH]; [reflexivity|].
  rewrite fmap_cons. cbn [mbind list_bind]. rewrite IH.
  unfold catalog_ref at 1. cbn [el_attrib]. now rewrite lookup_singleton_eq.
Qed.

Lemma ccmi2022_attributes_of_stub refs files :
  Ccmi2022.attributes_of (stub_document refs files) default_dataset
    default_catalogRef xlink_title = Ok refs.
Proof.
  unfold Ccmi2022.attributes_of. rewrite findall_stub_root.
  cbn [mbind list_bind]. rewrite app_nil_r.
  unfold findall at 1. cbn [el_children]. rewrite findall_catalog_refs.
  induction refs as [|r refs IH]; [reflexivity|].
  rewrite fmap_cons. cbn [Ccmi2022.attributes_of_row]. rewrite IH.
  unfold catalog_ref at 1. cbn [el_attrib]. now rewrite lookup_singleton_eq.
Qed.

Lemma ccmi1_titles_stub refs files url w :
  True ->
  exists w', Ccmi1.titles (stub_env refs files) url w = (Ok (refs url), w').
Proof.
  intros _. eexists. unfold Ccmi1.titles, Ccmi1.get_elements, bind, modify.
  cbn -[Ccmi1.attributes_of stub_document].
  now rewrite ccmi1_attributes_of_stub.
Qed.

Lemma ccmi2022_titles_stub refs files url w :
  True ->
  exists w', Ccmi2022.titles (stub_env refs files) url w = (Ok (refs url), w').
Proof.
  intros _. eexists. unfold Ccmi2022.titles, Ccmi2022.get_elements, bind, modify.
  cbn -[Ccmi2022.attributes_of stub_document].
  now rewrite ccmi2022_attributes_of_stub.
Qed.

Lemma starts_with_slash_app s t :
  starts_with_slash s = true -> starts_with_slash (s +:+ t) = true.
Proof. destruct s as [|c s]; [discriminate | now rewrite app_String]. Qed.

Lemma ftp_dirs_of_stub E url s :
  (forall p, Ftp.enterable E p = true) ->
  starts_with_slash url = true ->
  exists s', Ftp.dirs_of E url s = (Ok (Ftp.names_of E Ftp.TypeDir url), s').
Proof.
  intros Henter Habs. eexists.
  unfold Ftp.dirs_of, bind, Ftp.ftp_cwd, Ftp.ftp_names, Ftp.target.
  rewrite Habs, Henter. cbn. reflexivity.
Qed.

(** The inventory of the scenario: two institutions, one model each,
    two and one experiments. *)
Lemma scenario_inventory :
  (Ccmi1.create_inventory_file (stub_env scenario_refs (fun _ => []))
     "inventory" "R/" empty_world).1
  = Ok (PList [PList [PList [PStr "InstA";
                             PList [PStr "ModelA"; PList [PStr "refC1"];
                                    PList [PStr "refC2"]]];
                      PList [PStr "InstB";
                             PList [PStr "ModelB"; PList [PStr "refC1"]]]];
               PList [PInt 2]; PList [PInt 1; PInt 1]; PList [PInt 2; PInt 1]]).
Proof. vm_compute. reflexivity. Qed.

(** Beyond level 2 the CCMI-2022 builder reads the models of an
    institution at [invntry[ii][ij]], where level 1 put them in
    [invntry[ii][1]]: over an institution with two models it raises
    [IndexError], while levels 1 and 2 record both models. *)
Lemma ccmi2022_builder_two_models :
  (Ccmi2022.create_inventory_file (stub_env two_models_refs (fun _ => []))
     "inventory" "R/" empty_world).1 = Raise IndexError
  /\ (Ccmi1.create_inventory_file (stub_env two_models_refs (fun _ => []))
        "inventory" "R/" empty_world).1
     = Ok (PList [PList [PList [PStr "InstA";
                                PList [PStr "ModelA"; PList [PStr "refD1"];
                                       PStr "ModelB"; PList [PStr "refD1"]]]];
                  PList [PInt 1]; PList [PInt 2]; PList [PInt 1; PInt 1]]).
Proof. split; vm_compute; reflexivity. Qed.

(** * Further properties of the scripts *)

(** ** The shape of the inventory *)

Lemma fold_each_acc {W A B} (P : B -> Prop) (xs : list A)
    (body : B -> A -> io W B) :
  (forall acc x w acc' w',
      x ∈ xs -> P acc -> body acc x w = (Ok acc', w') -> P acc') ->
  forall acc w r w',
    P acc -> fold_each xs acc body w = (Ok r, w') -> P r.
Proof.
  induction xs as [|x xs IH]; intros Hbody acc w r w' Hacc Hrun.
  - cbn in Hrun. injection Hrun as <- _. exact Hacc.
  - cbn [fold_each] in Hrun. apply bind_inv_ok in Hrun as (a & w1 & H1 & H2).
    eapply IH; [| |exact H2].
    + intros acc0 y w0 acc' w0' Hy. apply Hbody. now right.
    + eapply Hbody; [left | exact Hacc | exact H1].
Qed.

Lemma fold_each_each {W A B} (P : B -> Prop) (xs : list A)
    (body : B -> A -> io W B) :
  (forall acc x w acc' w',
      x ∈ xs -> P acc -> body acc x w = (Ok acc', w') -> P acc') ->
  forall acc w r w',
    P acc -> fold_each xs acc body w = (Ok r, w') ->
    Forall (fun x => exists acc0 w0 acc1 w1,
                P acc0 /\ body acc0 x w0 = (Ok acc1, w1)) xs.
Proof.
  induction xs as [|x xs IH]; intros Hbody acc w r w' Hacc Hrun; [constructor|].
  cbn [fold_each] in Hrun. apply bind_inv_ok in Hrun as (a & w1 & H1 & H2).
  constructor; [now eauto 6|].
  eapply IH; [| |exact H2].
  - intros acc0 y w0 acc' w0' Hy. apply Hbody. now right.
  - eapply Hbody; [left | exact Hacc | exact H1].
Qed.

Lemma py_update_pairs i j rest f v v' :
  pairs v -> py_update (i :: j :: rest) f v = Ok v' -> pairs v'.
Proof.
  intros (es & -> & Hes) H. cbn [py_update] in H.
  destruct (es !! i) as [e|] eqn:He; [|discriminate].
  destruct (Forall_lookup_1 _ _ _ _ Hes He) as (a & b & ->).
  destruct ([a; b] !! j) as [x|] eqn:Hx; [|discriminate].
  destruct (py_update rest f x) as [x'|]; [|discriminate].
  injection H as <-. exists (<[i:=PList (<[j:=x']> [a; b])]> es).
  split; [reflexivity|]. apply Forall_insert; [exact Hes|].
  destruct j as [|[|j]]; cbn; eauto.
Qed.

Lemma py_get_path_pairs v ii ij x :
  pairs v -> py_get_path v [ii; ij] = Ok x -> (ij < 2)%nat.
Proof.
  intros (es & -> & Hes) H. cbn in H. unfold py_index in H.
  destruct (es !! ii) as [e|] eqn:He; [|discriminate].
  destruct (Forall_lookup_1 _ _ _ _ Hes He) as (a & b & ->).
  cbn in H. unfold py_index in H.
  destruct ([a; b] !! ij) eqn:Hx; [|discriminate].
  apply lookup_lt_Some in Hx. cbn in Hx. lia.
Qed.

Lemma insert_children_pairs i j rest names inv w inv' w' :
  pairs inv ->
  Ccmi2022.insert_children (i :: j :: rest) names inv w = (Ok inv', w') ->
  pairs inv'.
Proof.
  intros Hinv. unfold Ccmi2022.insert_children.
  apply (fold_each_acc pairs); [|exact Hinv].
  intros acc x w0 acc' w0' _ Hacc Hstep.
  apply bind_lift_inv_ok in Hstep as (name & _ & Hstep).
  destruct (py_update _ _ acc) as [u|] eqn:Hu; [|discriminate].
  injection Hstep as <- _. now apply py_update_pairs in Hu.
Qed.

Section Shape.
Context {W : Type} (titles : string -> io W (list string)).
Context (of_inst : string -> string) (of_model : string -> string -> string).

Lemma models_loop_pairs instts w r w' :
  models_loop titles of_inst instts w = (Ok r, w') ->
  pairs r.1 /\ length r.2 = length instts.
Proof.
  unfold models_loop.
  apply (fold_each_acc
           (fun st : pyval * list nat =>
              pairs st.1 /\ length st.2 = length instts)).
  - intros [inv nm] ii w0 acc' w0' _ [Hinv Hlen] Hstep. cbn [fst snd] in *.
    apply bind_lift_inv_ok in Hstep as (inst & _ & Hstep).
    apply bind_inv_ok in Hstep as (mname & w1 & _ & Hstep).
    apply bind_lift_inv_ok in Hstep as (nm' & Hset & Hstep).
    apply bind_lift_inv_ok in Hstep as (inv' & Happ & Hstep).
    injection Hstep as <- _. cbn [fst snd]. split.
    + destruct Hinv as (es & -> & Hes). cbn in Happ. injection Happ as <-.
      eexists. split; [reflexivity|]. apply Forall_app. split; [exact Hes|].
      repeat constructor. eauto.
    + unfold np_set in Hset. case_bool_decide; [|discriminate].
      injection Hset as <-. now rewrite length_insert.
  - split; [exists []; split; [reflexivity | constructor]|].
    cbn. unfold np_zeros. now rewrite length_replicate.
Qed.

Lemma insert_experiments_pairs ii ij expname inv (w : W) inv' w' :
  pairs inv ->
  insert_experiments ii ij expname inv w = (Ok inv', w') -> pairs inv'.
Proof.
  intros Hinv. unfold insert_experiments.
  apply (fold_each_acc pairs); [|exact Hinv].
  intros acc x w0 acc' w0' _ Hacc Hstep.
  apply bind_lift_inv_ok in Hstep as (e & _ & Hstep).
  destruct (py_update _ _ acc) as [u|] eqn:Hu; [|discriminate].
  injection Hstep as <- _. now apply py_update_pairs in Hu.
Qed.

Lemma experiments_loop_pairs ninst inv nmdls w r w' :
  pairs inv ->
  experiments_loop titles of_model ninst inv nmdls w = (Ok r, w') ->
  pairs r.1.
Proof.
  intros Hinv Hrun. unfold experiments_loop in Hrun.
  apply bind_inv_ok in Hrun as (st & w1 & Hrun & Hret).
  injection Hret as <- _. cbn [fst].
  revert Hrun.
  apply (fold_each_acc (fun st : pyval * list nat * nat => pairs st.1.1));
    [|exact Hinv].
  intros acc ii w0 acc' w0' _ Hacc Hstep.
  unfold experiments_of_institution in Hstep.
  apply bind_lift_inv_ok in Hstep as (twork & _ & Hstep).
  apply bind_lift_inv_ok in Hstep as (n & _ & Hstep).
  revert Hstep.
  apply (fold_each_acc (fun st : pyval * list nat * nat => pairs st.1.1));
    [|exact Hacc].
  intros [[inv0 nx] c] ij w2 acc2 w2' _ Hacc2 Hstep. cbn [fst] in Hacc2.
  unfold experiments_of_model in Hstep.
  apply bind_lift_inv_ok in Hstep as (t0 & _ & Hstep).
  apply bind_lift_inv_ok in Hstep as (inst & _ & Hstep).
  apply bind_lift_inv_ok in Hstep as (t1 & _ & Hstep).
  apply bind_lift_inv_ok in Hstep as (t1j & _ & Hstep).
  apply bind_lift_inv_ok in Hstep as (model & _ & Hstep).
  apply bind_inv_ok in Hstep as (expname & w3 & _ & Hstep).
  apply bind_inv_ok in Hstep as (inv1 & w4 & Hins & Hstep).
  apply bind_lift_inv_ok in Hstep as (nx' & _ & Hstep).
  injection Hstep as <- _. cbn [fst].
  now apply insert_experiments_pairs in Hins.
Qed.
End Shape.

Lemma simulations_loop_single E root_url ninst inv nmdls nxpts w r w' :
  pairs inv ->
  Ccmi2022.simulations_loop E root_url ninst inv nmdls nxpts w = (Ok r, w') ->
  forall ii n, (ii < ninst)%nat -> nmdls !! ii = Some n -> (n <= 1)%nat.
Proof.
  intros Hinv Hrun ii n Hii Hn. unfold Ccmi2022.simulations_loop in Hrun.
  apply bind_inv_ok in Hrun as (st & w1 & Hrun & _).
  set (P := fun st : Ccmi2022.level_state => pairs st.1.1).
  assert (Hinner : forall ii ij (twork : pyval) iks st0 w0 st1 w0',
             P st0 ->
             fold_each iks st0
               (fun (st : Ccmi2022.level_state) ik =>
                  let '(invntry, nsims, c) := st in
                  inst <- lift_outcome (py_str_at invntry [ii; 0%nat]) ;;
                  model <- lift_outcome (py_str_at invntry [ii; ij; 0%nat]) ;;
                  expt <- lift_outcome (py_str_at twork [ik; 0%nat]) ;;
                  sims <- Ccmi2022.titles E
                    (root_url +:+ inst +:+ "/" +:+ model +:+ "/" +:+ expt
                              +:+ "/catalog.xml") ;;
                  invntry' <- Ccmi2022.insert_children [ii; ij; ik] sims invntry ;;
                  nsims' <- lift_outcome
                    (np_set nsims (Ccmi2022.icnt2 c) (length sims)) ;;
                  ret (invntry', nsims', Ccmi2022.next2 c)) w0 = (Ok st1, w0') ->
             P st1).
  { intros ii0 ij twork iks st0 w0 st1 w0' H0.
    apply (fold_each_acc P); [|exact H0].
    intros [[inv0 ns] c] ik w2 acc2 w2' _ Hacc2 Hstep. unfold P in *.
    cbn [fst] in Hacc2.
    apply bind_lift_inv_ok in Hstep as (inst & _ & Hstep).
    apply bind_lift_inv_ok in Hstep as (model & _ & Hstep).
    apply bind_lift_inv_ok in Hstep as (expt & _ & Hstep).
    apply bind_inv_ok in Hstep as (sims & w3 & _ & Hstep).
    apply bind_inv_ok in Hstep as (inv1 & w4 & Hins & Hstep).
    apply bind_lift_inv_ok in Hstep as (ns' & _ & Hstep).
    injection Hstep as <- _. cbn [fst].
    now apply insert_children_pairs in Hins. }
  assert (Hmid : forall ii ij st0 w0 st1 w0',
             P st0 ->
             (twork <- lift_outcome (py_get_path st0.1.1 [ii; ij]) ;;
              iks <- lift_outcome
                (Ccmi2022.count_range 1 nxpts (Ccmi2022.icnt1 st0.2)) ;;
              st' <- fold_each iks st0
                (fun (st : Ccmi2022.level_state) ik =>
                   let '(invntry, nsims, c) := st in
                   inst <- lift_outcome (py_str_at invntry [ii; 0%nat]) ;;
                   model <- lift_outcome (py_str_at invntry [ii; ij; 0%nat]) ;;
                   expt <- lift_outcome (py_str_at twork [ik; 0%nat]) ;;
                   sims <- Ccmi2022.titles E
                     (root_url +:+ inst +:+ "/" +:+ model +:+ "/" +:+ expt
                               +:+ "/catalog.xml") ;;
                   invntry' <- Ccmi2022.insert_children [ii; ij; ik] sims invntry ;;
                   nsims' <- lift_outcome
                     (np_set nsims (Ccmi2022.icnt2 c) (length sims)) ;;
                   ret (invntry', nsims', Ccmi2022.next2 c)) ;;
              ret (st'.1, Ccmi2022.next1 st'.2)) w0 = (Ok st1, w0') ->
             P st1 /\ (ij < 2)%nat).
  { intros ii0 ij st0 w0 st1 w0' H0 Hstep.
    apply bind_lift_inv_ok in Hstep as (twork & Htw & Hstep).
    apply bind_lift_inv_ok in Hstep as (iks & _ & Hstep).
    apply bind_inv_ok in Hstep as (st' & w3 & Hfold & Hstep).
    injection Hstep as <- _. split.
    - apply Hinner in Hfold; [|exact H0]. exact Hfold.
    - now apply py_get_path_pairs in Htw. }
  match type of Hrun with
  | fold_each _ _ ?body _ = _ =>
      assert (Hpres : forall acc x w0 acc' w0',
                 P acc -> body acc x w0 = (Ok acc', w0') -> P acc')
  end.
  { intros acc x w0 acc' w0' Hacc Hstep. cbv beta in Hstep.
    apply bind_lift_inv_ok in Hstep as (ijs & _ & Hstep).
    revert Hstep. apply (fold_each_acc P); [|exact Hacc].
    intros a ij w5 a' w5' _ Ha Hs. exact (proj1 (Hmid _ _ _ _ _ _ Ha Hs)). }
  pose proof (fold_each_each P _ _
    (fun acc x w0 acc' w0' _ => Hpres acc x w0 acc' w0')
    _ _ _ _
    (Hinv : P (inv, np_zeros (sum_list nxpts), Ccmi2022.Cursor 0 0 0 0))
    Hrun) as Hall.
  rewrite Forall_forall in Hall.
  destruct (Hall ii) as (st0 & w0 & st1 & w0' & H0 & Hstep).
  { unfold py_range. apply elem_of_seq. lia. }
  apply bind_lift_inv_ok in Hstep as (ijs & Hijs & Hstep).
  unfold Ccmi2022.count_range, py_index in Hijs. rewrite Hn in Hijs.
  cbn in Hijs. injection Hijs as <-.
  pose proof (fold_each_each P _ _
    (fun a ij w5 a' w5' _ Ha Hs => proj1 (Hmid _ _ _ _ _ _ Ha Hs))
    _ _ _ _ H0 Hstep) as Hijs.
  rewrite Forall_forall in Hijs.
  destruct (decide (n <= 1)%nat) as [|Hgt]; [assumption|].
  destruct (Hijs 2%nat) as (a0 & w5 & a1 & w5' & Ha & Hs).
  { unfold py_range. apply elem_of_seq. lia. }
  apply Hmid in Hs; [lia | exact Ha].
Qed.

(** X1. Levels 3 to 5 of the CCMI-2022 builder read the models of an
    institution at [invntry[ii][ij]] for [ij] from 1 to [nmdls[ii]],
    and the entry of an institution has two elements: whenever the
    builder returns, whatever the servers answered, the inventory
    records at most one model for every institution. *)
Theorem ccmi2022_builder_returns_for_single_models
    (E : env) (inventory_file root_url : string) (w : world) (T : pyval)
    (w' : world) :
  Ccmi2022.create_inventory_file E inventory_file root_url w = (Ok T, w') ->
  exists nmdls,
    py_getitem T 2 = Ok (PList (py_len_list nmdls))
    /\ Forall (fun n => (n <= 1)%nat) nmdls.
Proof.
  intros Hrun. unfold Ccmi2022.create_inventory_file in Hrun.
  apply bind_inv_ok in Hrun as (instts & w1 & _ & Hrun).
  apply bind_inv_ok in Hrun as (l1 & w2 & H1 & Hrun).
  apply bind_inv_ok in Hrun as (l2 & w3 & H2 & Hrun).
  apply bind_inv_ok in Hrun as (l3 & w4 & H3 & Hrun).
  apply bind_inv_ok in Hrun as (l4 & w5 & _ & Hrun).
  apply bind_inv_ok in Hrun as (l5 & w6 & _ & Hrun).
  apply bind_inv_ok in Hrun as (u & w7 & _ & Hrun).
  injection Hrun as <- _.
  exists l1.2. split; [reflexivity|].
  apply models_loop_pairs in H1 as [Hp Hlen].
  apply experiments_loop_pairs in H2; [|exact Hp].
  apply Forall_lookup_2. intros ii n Hn.
  eapply simulations_loop_single; [exact H2 | exact H3 | | exact Hn].
  apply lookup_lt_Some in Hn. lia.
Qed.

(** X1 at the archive of the end-to-end scenario, one model per
    institution. *)
Lemma ccmi2022_builder_returns_for_single_models_witness :
  exists nmdls,
    py_getitem
      (PList [PList [PList [PStr "InstA";
                            PList [PStr "ModelA"; PList [PStr "refC1"];
                                   PList [PStr "refC2"]]];
                     PList [PStr "InstB";
                            PList [PStr "ModelB"; PList [PStr "refC1"]]]];
              PList [PInt 2]; PList [PInt 1; PInt 1]; PList [PInt 2; PInt 1];
              PList [PInt 0; PInt 0; PInt 0]; PList []; PList []]) 2
    = Ok (PList (py_len_list nmdls))
    /\ Forall (fun n => (n <= 1)%nat) nmdls.
Proof.
  apply (ccmi2022_builder_returns_for_single_models
           (stub_env scenario_refs (fun _ => [])) "inventory" "R/" empty_world
           _
           (Ccmi2022.create_inventory_file
              (stub_env scenario_refs (fun _ => [])) "inventory" "R/"
              empty_world).2).
  vm_compute. reflexivity.
Defined.

(** ** The listing call: retries, other errors, attributes *)

Section Retry.
Variable E : env.
Variable url : string.

Lemma replicate_snoc_app (l : list string) j :
  (l ++ [url]) ++ replicate j url = l ++ replicate (S j) url.
Proof. now rewrite <- app_assoc. Qed.

Lemma ccmi1_retry_loop_opens b k :
  forall a m w,
    (a + m = 5)%nat -> (k < m)%nat ->
    (forall j, (j < k)%nat ->
               urlopen E (opened w ++ replicate j url) url = OpenHTTPError) ->
    urlopen E (opened w ++ replicate k url) url = Opened b ->
    Ccmi1.retry_loop E (seq a m) url w
    = (Ok (Fell (Some b)), opened_more (S k) url w).
Proof.
  induction k as [|k IH]; intros a m w Ham Hk Hfail Hopen;
    (destruct m as [|m]; [lia|]); cbn [seq Ccmi1.retry_loop];
    unfold bind at 1, do_urlopen.
  - cbn [replicate] in Hopen. rewrite app_nil_r in Hopen. rewrite Hopen.
    now rewrite <- opened_more_S, opened_more_0.
  - pose proof (Hfail O ltac:(lia)) as H0. cbn [replicate] in H0.
    rewrite app_nil_r in H0. rewrite H0.
    replace (a =? 4)%nat with false by (symmetry; apply Nat.eqb_neq; lia).
    rewrite (IH (S a) m (note_opened url w)); [| lia | lia | |].
    + now rewrite opened_more_S.
    + intros j Hj. cbn [opened note_opened]. rewrite replicate_snoc_app.
      apply Hfail. lia.
    + cbn [opened note_opened]. now rewrite replicate_snoc_app.
Qed.

Lemma ccmi2022_retry_loop_opens b k :
  forall (ntries : list nat) w,
    (k < length ntries)%nat ->
    (forall j, (j < k)%nat ->
               urlopen E (opened w ++ replicate j url) url = OpenHTTPError) ->
    urlopen E (opened w ++ replicate k url) url = Opened b ->
    Ccmi2022.retry_loop E ntries url w
    = (Ok (Some b), opened_more (S k) url w).
Proof.
  induction k as [|k IH]; intros ntries w Hk Hfail Hopen;
    (destruct ntries as [|ntry ntries]; [cbn in Hk; lia|]);
    cbn [Ccmi2022.retry_loop]; unfold bind at 1, do_urlopen.
  - cbn [replicate] in Hopen. rewrite app_nil_r in Hopen. rewrite Hopen.
    now rewrite <- opened_more_S, opened_more_0.
  - pose proof (Hfail O ltac:(lia)) as H0. cbn [replicate] in H0.
    rewrite app_nil_r in H0. rewrite H0.
    rewrite (IH ntries (note_opened url w)).
    + now rewrite opened_more_S.
    + cbn [length] in Hk. lia.
    + intros j Hj. cbn [opened note_opened]. rewrite replicate_snoc_app.
      apply Hfail. lia.
    + cbn [opened note_opened]. now rewrite replicate_snoc_app.
Qed.
End Retry.

(** X2. When the first [k] attempts of a listing call meet an HTTP
    error and the next one, among the five, opens a well-formed catalog,
    [get_elements] makes exactly [k + 1] attempts and gives the
    attributes of that catalog, in both catalog scripts. *)
Theorem get_elements_retries_until_opened
    (E : env) (url : string) (tag1 tag2 : qname) (attribute_name : string)
    (w : world) (k : nat) (root : element) :
  (k < 5)%nat ->
  (forall j, (j < k)%nat ->
             urlopen E (opened w ++ replicate j url) url = OpenHTTPError) ->
  urlopen E (opened w ++ replicate k url) url = Opened (Document root) ->
  Ccmi1.get_elements E url tag1 tag2 attribute_name w
  = (Ok (Ccmi1.attributes_of root tag1 tag2 attribute_name),
     note_listed url (opened_more (S k) url w))
  /\ Ccmi2022.get_elements E url tag1 tag2 attribute_name w
     = (Ccmi2022.attributes_of root tag1 tag2 attribute_name,
        note_listed url (opened_more (S k) url w)).
Proof.
  intros Hk Hfail Hopen. split.
  - unfold Ccmi1.get_elements.
    rewrite (bind_ok _ _ w tt (note_listed url w) eq_refl).
    rewrite (bind_ok _ _ _ _ _
               (ccmi1_retry_loop_opens E url (Document root) k 0 5
                  (note_listed url w) eq_refl Hk Hfail Hopen)).
    now rewrite note_listed_opened_more.
  - unfold Ccmi2022.get_elements.
    rewrite (bind_ok _ _ w tt (note_listed url w) eq_refl).
    rewrite (bind_ok _ _ _ _ _
               (ccmi2022_retry_loop_opens E url (Document root) k
                  (py_range 0 5) (note_listed url w) Hk Hfail Hopen)).
    rewrite note_listed_opened_more.
    now destruct (Ccmi2022.attributes_of root tag1 tag2 attribute_name).
Qed.

(** X2 at a server that answers at the third attempt. *)
Lemma get_elements_retries_until_opened_witness :
  Ccmi1.get_elements recovering_env "R/catalog.xml" default_dataset
    default_catalogRef xlink_title empty_world
  = (Ok (Ccmi1.attributes_of (stub_document ["InstA"] []) default_dataset
           default_catalogRef xlink_title),
     note_listed "R/catalog.xml" (opened_more 3 "R/catalog.xml" empty_world))
  /\ Ccmi2022.get_elements recovering_env "R/catalog.xml" default_dataset
       default_catalogRef xlink_title empty_world
     = (Ccmi2022.attributes_of (stub_document ["InstA"] []) default_dataset
          default_catalogRef xlink_title,
        note_listed "R/catalog.xml" (opened_more 3 "R/catalog.xml" empty_world)).
Proof.
  apply (get_elements_retries_until_opened recovering_env "R/catalog.xml"
           default_dataset default_catalogRef xlink_title empty_world 2).
  - lia.
  - intros j Hj. cbn. rewrite length_replicate. now case_bool_decide; [|lia].
  - reflexivity.
Defined.

(** X3. An error of [urlopen] that is not an [HTTPError] is not tried
    again: the CCMI-1 [get_elements] returns the empty list after that
    one attempt, the CCMI-2022 one lets the error through. *)
Theorem other_errors_are_not_retried
    (E : env) (url : string) (tag1 tag2 : qname) (attribute_name : string)
    (w : world) :
  urlopen E (opened w) url = OpenOtherError ->
  Ccmi1.get_elements E url tag1 tag2 attribute_name w
  = (Ok [], note_listed url (opened_more 1 url w))
  /\ Ccmi2022.get_elements E url tag1 tag2 attribute_name w
     = (Raise URLError, note_listed url (opened_more 1 url w)).
Proof.
  intros Hopen. split.
  - now apply ccmi1_get_elements_other_error.
  - unfold Ccmi2022.get_elements.
    rewrite (bind_ok _ _ w tt (note_listed url w) eq_refl).
    cbn [py_range seq Nat.sub Ccmi2022.retry_loop].
    unfold bind, do_urlopen. cbn [opened note_listed]. rewrite Hopen.
    reflexivity.
Qed.

Lemma other_errors_are_not_retried_witness :
  Ccmi1.get_elements unreachable_env "R/catalog.xml" default_dataset
    default_catalogRef xlink_title empty_world
  = (Ok [], note_listed "R/catalog.xml"
              (opened_more 1 "R/catalog.xml" empty_world))
  /\ Ccmi2022.get_elements unreachable_env "R/catalog.xml" default_dataset
       default_catalogRef xlink_title empty_world
     = (Raise URLError,
        note_listed "R/catalog.xml" (opened_more 1 "R/catalog.xml" empty_world)).
Proof.
  apply (other_errors_are_not_retried unreachable_env). reflexivity.
Defined.

Lemma attributes_of_row_ok works attribute_name l :
  Ccmi2022.attributes_of_row works attribute_name = Ok l ->
  (work1 ← works;
   match el_attrib work1 !! attribute_name with
   | Some attribute => [attribute]
   | None => []
   end) = l.
Proof.
  revert l. induction works as [|x works IH]; intros l H; cbn in H |- *.
  - now injection H as <-.
  - destruct (el_attrib x !! attribute_name) as [v|]; [|discriminate].
    destruct (Ccmi2022.attributes_of_row works attribute_name) as [l'|];
      [|discriminate].
    injection H as <-. cbn. f_equal. now apply IH.
Qed.

Lemma attributes_of_row_raise works attribute_name e :
  Ccmi2022.attributes_of_row works attribute_name = Raise e ->
  e = KeyError attribute_name
  /\ exists work1, work1 ∈ works /\ el_attrib work1 !! attribute_name = None.
Proof.
  induction works as [|x works IH]; intros H; cbn in H; [discriminate|].
  destruct (el_attrib x !! attribute_name) as [v|] eqn:Hx.
  - destruct (Ccmi2022.attributes_of_row works attribute_name) as [l'|e'];
      [discriminate|].
    injection H as <-. destruct (IH eq_refl) as (He & y & Hy & Hnone).
    split; [exact He|]. exists y. split; [now right | exact Hnone].
  - injection H as <-. split; [reflexivity|]. exists x. split; [left | exact Hx].
Qed.

(** X4. The two scripts read the same attributes from a catalog in which
    every matched element has the attribute; an element without it
    makes the CCMI-2022 [get_elements] raise [KeyError], where the
    CCMI-1 one passes it over. *)
Theorem attributes_of_agree
    (root : element) (tag1 tag2 : qname) (attribute_name : string) :
  (forall l,
      Ccmi2022.attributes_of root tag1 tag2 attribute_name = Ok l ->
      Ccmi1.attributes_of root tag1 tag2 attribute_name = l)
  /\ (forall e,
        Ccmi2022.attributes_of root tag1 tag2 attribute_name = Raise e ->
        e = KeyError attribute_name
        /\ exists child work1,
             child ∈ findall tag1 root /\ work1 ∈ findall tag2 child
             /\ el_attrib work1 !! attribute_name = None).
Proof.
  unfold Ccmi2022.attributes_of, Ccmi1.attributes_of. split.
  - intros l H. apply attributes_of_row_ok in H. rewrite <- H. clear H.
    induction (findall tag1 root) as [|c cs IH]; [reflexivity|].
    rewrite !bind_cons, bind_app. now f_equal.
  - intros e H. apply attributes_of_row_raise in H as (He & y & Hy & Hnone).
    split; [exact He|]. apply list_elem_of_bind in Hy as (c & Hy & Hc).
    now exists c, y.
Qed.

(** X4 at a catalog of two references, read for the titles and for an
    attribute the references do not have. *)
Lemma attributes_of_agree_witness :
  Ccmi1.attributes_of (stub_document ["InstA"; "InstB"] []) default_dataset
    default_catalogRef xlink_title = ["InstA"; "InstB"]
  /\ exists child work1,
       child ∈ findall default_dataset (stub_document ["InstA"; "InstB"] [])
       /\ work1 ∈ findall default_catalogRef child
       /\ el_attrib work1 !! urlPath = None.
Proof.
  split.
  - apply (proj1 (attributes_of_agree (stub_document ["InstA"; "InstB"] [])
                    default_dataset default_catalogRef xlink_title)).
    vm_compute. reflexivity.
  - apply (proj2 (attributes_of_agree (stub_document ["InstA"; "InstB"] [])
                    default_dataset default_catalogRef urlPath)
             (KeyError urlPath)).
    vm_compute. reflexivity.
Defined.

(** ** Version names and their numbers *)

Lemma digit_of_digit (d : N) :
  (d < 10)%N -> digit_of (ascii_of_N (48 + d)) = Some d.
Proof.
  intros Hd.
  assert (H : (d = 0 \/ d = 1 \/ d = 2 \/ d = 3 \/ d = 4 \/ d = 5 \/ d = 6
               \/ d = 7 \/ d = 8 \/ d = 9)%N) by lia.
  repeat (destruct H as [->|H]; [reflexivity|]). now subst.
Qed.

Lemma glue_zero fuel :
  forall n, (n < 10 ^ N.of_nat (S fuel))%N -> glue fuel 0 n = n.
Proof.
  induction fuel as [|fuel IH]; intros n Hn; cbn [glue].
  - change (10 ^ N.of_nat 1)%N with 10%N in Hn.
    rewrite N.mod_small by exact Hn. lia.
  - destruct (n <? 10)%N eqn:Hlt.
    + apply N.ltb_lt in Hlt. rewrite N.mod_small by exact Hlt. lia.
    + rewrite IH.
      * pose proof (N.div_mod n 10 ltac:(discriminate)). lia.
      * apply N.Div0.div_lt_upper_bound.
        rewrite Nat2N.inj_succ, N.pow_succ_r' in Hn. exact Hn.
Qed.

Lemma pos_below_power (p : positive) :
  (N.pos p < 10 ^ N.of_nat (Pos.size_nat p))%N.
Proof.
  induction p as [p IH|p IH|]; cbn [Pos.size_nat];
    rewrite ?Nat2N.inj_succ, ?N.pow_succ_r'; lia.
Qed.

Lemma glue_digits n : glue (N.size_nat n) 0 n = n.
Proof.
  apply glue_zero. rewrite Nat2N.inj_succ, N.pow_succ_r'.
  destruct n as [|p]; [reflexivity|]. cbn [N.size_nat].
  pose proof (pos_below_power p). lia.
Qed.

Lemma digits_before_head fuel :
  forall n tail,
    exists c rest d,
      digits_before fuel n tail = String c rest /\ digit_of c = Some d.
Proof.
  induction fuel as [|fuel IH]; intros n tail; cbn [digits_before].
  - eexists _, _, _. split; [reflexivity|]. apply digit_of_digit.
    apply N.mod_lt. discriminate.
  - destruct (n <? 10)%N; [|apply IH].
    eexists _, _, _. split; [reflexivity|]. apply digit_of_digit.
    apply N.mod_lt. discriminate.
Qed.

Lemma lstrip_no_space s : no_space s = true -> lstrip s = s.
Proof.
  destruct s as [|c s]; [reflexivity|]. cbn [no_space lstrip].
  intros H. apply andb_true_iff in H as [Hc _].
  apply negb_true_iff in Hc. now rewrite Hc.
Qed.

Lemma rstrip_no_space s : no_space s = true -> rstrip s = s.
Proof.
  induction s as [|c s IH]; [reflexivity|]. cbn [no_space rstrip].
  intros H. apply andb_true_iff in H as [Hc Hs].
  apply negb_true_iff in Hc. rewrite (IH Hs), Hc. now destruct s.
Qed.

Lemma digit_no_space (d : N) :
  (d < 10)%N -> is_space (ascii_of_N (48 + d)) = false.
Proof.
  intros Hd.
  assert (H : (d = 0 \/ d = 1 \/ d = 2 \/ d = 3 \/ d = 4 \/ d = 5 \/ d = 6
               \/ d = 7 \/ d = 8 \/ d = 9)%N) by lia.
  repeat (destruct H as [->|H]; [reflexivity|]). now subst.
Qed.

Lemma digits_before_no_space fuel :
  forall n tail,
    no_space tail = true -> no_space (digits_before fuel n tail) = true.
Proof.
  assert (Hone : forall n tail,
             no_space tail = true ->
             no_space (String (ascii_of_N (48 + n mod 10)) tail) = true).
  { intros n tail Ht. cbn [no_space]. rewrite digit_no_space, Ht; [reflexivity|].
    apply N.mod_lt. discriminate. }
  induction fuel as [|fuel IH]; intros n tail Ht; cbn [digits_before].
  - now apply Hone.
  - destruct (n <? 10)%N; [now apply Hone|]. apply IH. now apply Hone.
Qed.

Lemma int_digits_digits fuel :
  forall n acc after tail,
    int_digits acc after (digits_before fuel n tail)
    = int_digits (Some (glue fuel (default 0%N acc) n)) false tail.
Proof.
  assert (Hone : forall n acc after tail,
             int_digits acc after (String (ascii_of_N (48 + n mod 10)) tail)
             = int_digits (Some (10 * default 0 acc + n mod 10)%N) false tail).
  { intros n acc after tail. cbn [int_digits].
    rewrite digit_of_digit; [reflexivity|]. apply N.mod_lt. discriminate. }
  induction fuel as [|fuel IH]; intros n acc after tail;
    cbn [digits_before glue].
  - apply Hone.
  - destruct (n <? 10)%N; [apply Hone|]. now rewrite IH, Hone.
Qed.

Lemma int_digits_of_digits n : int_digits None false (digits n) = Some n.
Proof.
  unfold digits. rewrite int_digits_digits. cbn [default int_digits].
  now rewrite glue_digits.
Qed.

Lemma digit_is_no_sign c d rest :
  digit_of c = Some d ->
  match String c rest with
  | String "-" rest' => (true, rest')
  | String "+" rest' => (false, rest')
  | _ => (false, String c rest)
  end = (false, String c rest).
Proof.
  destruct c as [[] [] [] [] [] [] [] []]; vm_compute; congruence.
Qed.

Lemma pos_size_nat_le (p : positive) :
  (2 ^ N.of_nat (Pos.size_nat p) <= 2 * N.pos p)%N.
Proof.
  induction p as [p IH|p IH|]; cbn [Pos.size_nat];
    rewrite ?Nat2N.inj_succ, ?N.pow_succ_r'; [lia..|].
  change (2 ^ N.of_nat 1)%N with 2%N. lia.
Qed.

Lemma size_nat_of_64_bits (n : N) :
  (n <= 2 ^ 63)%N -> (N.of_nat (N.size_nat n) <= 64)%N.
Proof.
  intros Hn. destruct n as [|p]; [cbn; lia|]. cbn [N.size_nat].
  pose proof (pos_size_nat_le p) as Hp.
  destruct (N.le_gt_cases (N.of_nat (Pos.size_nat p)) 64) as [H|H]; [exact H|].
  exfalso.
  assert (H65 : (2 ^ 65 <= 2 ^ N.of_nat (Pos.size_nat p))%N)
    by (apply N.pow_le_mono_r; lia).
  change (2 ^ 65)%N with (4 * 2 ^ 63)%N in H65. lia.
Qed.

Lemma digit_count_digits_before fuel :
  forall n tail,
    (digit_count (digits_before fuel n tail)
     <= N.of_nat (S fuel) + digit_count tail)%N.
Proof.
  assert (Hone : forall n tail,
             (digit_count (String (ascii_of_N (48 + n mod 10)) tail)
              = 1 + digit_count tail)%N).
  { intros n tail. cbn [digit_count].
    rewrite digit_of_digit; [reflexivity|]. apply N.mod_lt. discriminate. }
  induction fuel as [|fuel IH]; intros n tail; cbn [digits_before].
  - rewrite Hone. lia.
  - destruct (n <? 10)%N; [rewrite Hone; lia|].
    etransitivity; [apply IH|]. rewrite Hone. lia.
Qed.

Lemma digit_count_digits (n : N) :
  (n <= 2 ^ 63)%N -> (int_max_str_digits <? digit_count (digits n))%N = false.
Proof.
  intros Hn. apply N.ltb_ge. unfold digits, int_max_str_digits.
  pose proof (digit_count_digits_before (N.size_nat n) n "") as Hc.
  pose proof (size_nat_of_64_bits n Hn) as Hs.
  cbn [digit_count] in Hc. lia.
Qed.

(** [int(str(z))] is [z], for a number of 64 bits. *)
Lemma py_int_repr_int z :
  - 2 ^ 63 <= z < 2 ^ 63 -> py_int (repr_int z) = Ok z.
Proof.
  intros Hz64. unfold py_int, repr_int. destruct (z <? 0) eqn:Hz.
  - assert (Hns : no_space (String "-" (digits (Z.to_N (- z)))) = true).
    { cbn [no_space]. apply andb_true_iff. split; [reflexivity|].
      now apply digits_before_no_space. }
    rewrite (lstrip_no_space _ Hns), (rstrip_no_space _ Hns).
    rewrite digit_count_digits by lia.
    rewrite int_digits_of_digits. apply Z.ltb_lt in Hz.
    now rewrite Z2N.id, Z.opp_involutive by lia.
  - assert (Hns : no_space (digits (Z.to_N z)) = true)
      by now apply digits_before_no_space.
    rewrite (lstrip_no_space _ Hns), (rstrip_no_space _ Hns).
    destruct (digits_before_head (N.size_nat (Z.to_N z)) (Z.to_N z) "")
      as (c & rest & d & Hhead & Hd).
    fold (digits (Z.to_N z)) in Hhead.
    assert (Hsplit : match digits (Z.to_N z) with
                     | String "-" rest' => (true, rest')
                     | String "+" rest' => (false, rest')
                     | _ => (false, digits (Z.to_N z))
                     end = (false, digits (Z.to_N z))).
    { rewrite Hhead. now apply (digit_is_no_sign c d). }
    rewrite Hsplit, digit_count_digits by lia.
    rewrite int_digits_of_digits. apply Z.ltb_ge in Hz.
    now rewrite Z2N.id by lia.
Qed.

(** X5. When several versions are listed under names made of [v] and a
    decimal number, the CCMI-2022 search selects one of the listed
    names, the one with the greatest number. *)
Theorem select_version_of_numbered_names
    (vers : list string) (nums : list Z) :
  (1 < length vers)%nat ->
  Forall2 (fun v n => v = "v" +:+ repr_int n /\ - 2 ^ 63 <= n < 2 ^ 63)
          vers nums ->
  exists v,
    Ccmi2022.select_version vers = Ok v /\ selects_greatest vers v.
Proof.
  intros Hlen Hall.
  assert (Hnum : Forall2 (fun v n => py_int (string_tail v) = Ok n
                                     /\ - 2 ^ 63 <= n < 2 ^ 63) vers nums).
  { eapply Forall2_impl; [exact Hall|]. intros v n [-> Hn]. split; [|exact Hn].
    cbn [append string_tail]. now apply py_int_repr_int. }
  unfold Ccmi2022.select_version. rewrite bool_decide_eq_true_2 by exact Hlen.
  rewrite (version_numbers_spec vers nums Hnum). cbn [obind].
  destruct nums as [|x rest].
  { apply Forall2_length in Hall. cbn in Hall. lia. }
  cbn [py_max obind].
  destruct (foldl_max_spec x rest) as [Hin Hmax].
  set (m := foldl Z.max x rest) in *.
  exists ("v" +:+ repr_int m). split; [reflexivity|].
  apply list_elem_of_lookup in Hin as [i Hi].
  destruct (Forall2_lookup_r _ _ _ _ _ Hall Hi) as (v0 & Hv0 & Hvm & Hm64).
  unfold selects_greatest. split; [|exists m; split].
  - rewrite <- Hvm. apply list_elem_of_lookup. now exists i.
  - cbn [append string_tail]. now apply py_int_repr_int.
  - intros v n Hv Hvn. apply list_elem_of_lookup in Hv as [j Hj].
    destruct (Forall2_lookup_l _ _ _ _ _ Hnum Hj) as (n' & Hn' & Hpy & _).
    rewrite Hpy in Hvn. injection Hvn as <-.
    rewrite Forall_forall in Hmax. apply Hmax.
    apply list_elem_of_lookup. now exists j.
Qed.

(** X5 at three dated versions. *)
Lemma select_version_of_numbered_names_witness :
  exists v,
    Ccmi2022.select_version ["v20210101"; "v20230615"; "v20220301"] = Ok v
    /\ selects_greatest ["v20210101"; "v20230615"; "v20220301"] v.
Proof.
  apply (select_version_of_numbered_names
           ["v20210101"; "v20230615"; "v20220301"]
           [20210101; 20230615; 20220301]).
  - cbn. lia.
  - repeat constructor; lia.
Defined.

Lemma traverse_raise {A B} (f : A -> outcome B) (l : list A) e :
  traverse f l = Raise e -> exists x, x ∈ l /\ f x = Raise e.
Proof.
  induction l as [|x l IH]; cbn [traverse]; [discriminate|].
  destruct (f x) as [y|e'] eqn:Hx; cbn [obind].
  - destruct (traverse f l) as [ys|e'']; cbn [obind]; [discriminate|].
    intros H. injection H as ->. destruct (IH eq_refl) as (x' & Hin & Hx').
    exists x'. split; [now right | exact Hx'].
  - intros H. injection H as ->. exists x. split; [left | exact Hx].
Qed.

Lemma traverse_ok_each {A B} (f : A -> outcome B) (l : list A) (l' : list B) :
  traverse f l = Ok l' -> Forall (fun x => exists y, f x = Ok y) l.
Proof.
  revert l'. induction l as [|x l IH]; intros l' H; [constructor|].
  cbn [traverse] in H. destruct (f x) as [y|] eqn:Hx; [|discriminate].
  cbn [obind] in H. destruct (traverse f l) as [ys|] eqn:Hl; [|discriminate].
  constructor; [eauto | eapply IH; reflexivity].
Qed.

Lemma py_int_raises s e : py_int s = Raise e -> e = ValueError.
Proof.
  unfold py_int.
  destruct (match rstrip (lstrip s) with
            | String "-" rest => (true, rest)
            | String "+" rest => (false, rest)
            | _ => (false, rstrip (lstrip s))
            end) as [negative ds].
  destruct (_ <? _)%N; [congruence|].
  destruct (int_digits None false ds); [discriminate|]. congruence.
Qed.

(** A letter is no digit, underscore, sign or white space. *)
Lemma letter_is_no_digit c :
  is_letter c = true ->
  digit_of c = None /\ Ascii.eqb c "_" = false /\ is_space c = false.
Proof.
  destruct c as [[] [] [] [] [] [] [] []]; vm_compute; intuition congruence.
Qed.

Lemma int_digits_letter s :
  forall acc after, has_letter s = true -> int_digits acc after s = None.
Proof.
  induction s as [|c s IH]; intros acc after; cbn [has_letter int_digits];
    [discriminate|].
  destruct (is_letter c) eqn:Hc; cbn [orb].
  - intros _. destruct (letter_is_no_digit c Hc) as (-> & -> & _). reflexivity.
  - intros Hs. destruct (digit_of c); [now apply IH|].
    destruct (Ascii.eqb c "_"); [|reflexivity].
    destruct acc; [|reflexivity]. destruct after; [reflexivity|]. now apply IH.
Qed.

Lemma lstrip_letter s : has_letter s = true -> has_letter (lstrip s) = true.
Proof.
  induction s as [|c s IH]; cbn [has_letter lstrip]; [discriminate|].
  destruct (is_letter c) eqn:Hc; cbn [orb].
  - intros _. destruct (letter_is_no_digit c Hc) as (_ & _ & ->).
    cbn [has_letter]. now rewrite Hc.
  - intros Hs. destruct (is_space c); [now apply IH|].
    cbn [has_letter]. now rewrite Hc.
Qed.

Lemma rstrip_letter s : has_letter s = true -> has_letter (rstrip s) = true.
Proof.
  induction s as [|c s IH]; cbn [has_letter rstrip]; [discriminate|].
  destruct (is_letter c) eqn:Hc; cbn [orb].
  - intros _. destruct (letter_is_no_digit c Hc) as (_ & _ & ->).
    destruct (rstrip s); cbn [has_letter]; now rewrite Hc.
  - intros Hs. specialize (IH Hs).
    destruct (rstrip s) as [|d r]; [discriminate|].
    cbn [has_letter] in *. now rewrite Hc.
Qed.

Lemma sign_split_letter body negative ds :
  match body with
  | String "-" rest => (true, rest)
  | String "+" rest => (false, rest)
  | _ => (false, body)
  end = (negative, ds) ->
  has_letter body = true -> has_letter ds = true.
Proof.
  destruct body as [|c rest]; [intros [= <- <-]; exact id|].
  destruct c as [[] [] [] [] [] [] [] []]; intros [= <- <-] H; exact H.
Qed.

(** [int] refuses a string that holds a letter. *)
Lemma py_int_letter s : has_letter s = true -> py_int s = Raise ValueError.
Proof.
  intros Hs. unfold py_int.
  destruct (match rstrip (lstrip s) with
            | String "-" rest => (true, rest)
            | String "+" rest => (false, rest)
            | _ => (false, rstrip (lstrip s))
            end) as [negative ds] eqn:Hsplit.
  apply sign_split_letter in Hsplit; [|now apply rstrip_letter, lstrip_letter].
  destruct (_ <? _)%N; [reflexivity|].
  now rewrite int_digits_letter.
Qed.

(** X6. When several versions are listed and the name of one of them
    holds a letter after its first character, as in [latest], the
    CCMI-2022 search raises ([ValueError], or [OverflowError] for a
    number before it that does not fit 64 bits) and selects no
    version. *)
Theorem select_version_needs_numbers (vers : list string) (v : string) :
  (1 < length vers)%nat ->
  v ∈ vers ->
  has_letter (string_tail v) = true ->
  Ccmi2022.select_version vers = Raise ValueError
  \/ Ccmi2022.select_version vers = Raise OverflowError.
Proof.
  intros Hlen Hv Hbad%py_int_letter. unfold Ccmi2022.select_version.
  rewrite bool_decide_eq_true_2 by exact Hlen.
  unfold Ccmi2022.version_numbers.
  destruct (traverse _ vers) as [nwork|e] eqn:Ht; cbn [obind].
  - apply traverse_ok_each in Ht. rewrite Forall_forall in Ht.
    destruct (Ht v Hv) as (y & Hy). rewrite Hbad in Hy. discriminate.
  - apply traverse_raise in Ht as (x & _ & Hx).
    destruct (py_int (string_tail x)) as [n|e'] eqn:Hn; cbn [obind] in Hx.
    + unfold np_int64 in Hx. destruct (_ && _); [discriminate|].
      injection Hx as <-. now right.
    + injection Hx as <-. apply py_int_raises in Hn as ->. now left.
Qed.

(** X6 at a listing with a version named [latest]. *)
Lemma select_version_needs_numbers_witness :
  Ccmi2022.select_version ["v20210101"; "latest"] = Raise ValueError
  \/ Ccmi2022.select_version ["v20210101"; "latest"] = Raise OverflowError.
Proof.
  apply (select_version_needs_numbers ["v20210101"; "latest"] "latest").
  - cbn. lia.
  - apply list_elem_of_lookup. now exists 1%nat.
  - reflexivity.
Defined.

(** ** The files found by the CCMI-2022 search *)

Lemma py_insert_middle {A} (h M t : list A) (x : A) :
  length h = 1%nat \/ (h = [] /\ t = []) ->
  py_insert (1 + length M) x (h ++ M ++ t) = h ++ (M ++ [x]) ++ t.
Proof.
  unfold py_insert. intros [Hh | [-> ->]].
  - destruct h as [|a [|b h]]; try discriminate. cbn [app Nat.add take drop].
    rewrite take_app_length, drop_app_length, <- app_assoc. reflexivity.
  - cbn [app]. rewrite !app_nil_r.
    rewrite take_ge, drop_ge by lia. reflexivity.
Qed.

Lemma insert_files_from ii name (h t : list pyval) (files : list string) :
  length h = 1%nat \/ (h = [] /\ t = []) ->
  forall (todo done : list string) (entries : list pyval) (w : world),
    files = done ++ todo ->
    entries !! ii = Some (PList [name; PList (h ++ (PStr <$> done) ++ t)]) ->
    fold_each (seq (length done) (length todo)) (PList entries)
      (fun flist iq =>
         f <- lift_outcome (py_index files iq) ;;
         lift_outcome
           (py_update [ii; 1%nat] (py_insert_method (1 + iq) (PStr f)) flist))
      w
    = (Ok (PList (<[ii:=PList [name; PList (h ++ (PStr <$> files) ++ t)]]>
                    entries)), w).
Proof.
  intros Hh. induction todo as [|f todo IH]; intros done entries w Hf He.
  - rewrite app_nil_r in Hf. subst done. cbn [length seq fold_each].
    now rewrite list_insert_id.
  - cbn [length seq fold_each].
    assert (Hidx : py_index files (length done) = Ok f).
    { unfold py_index. subst files. now rewrite list_lookup_middle. }
    erewrite bind_ok; cycle 1.
    { rewrite Hidx. cbn [lift_outcome]. rewrite bind_ret.
      cbn [py_update]. rewrite He. cbn [lookup list_lookup py_update].
      cbn [py_insert_method].
      rewrite <- (length_fmap PStr done), py_insert_middle by exact Hh.
      cbn [lift_outcome insert list_insert]. reflexivity. }
    replace (S (length done)) with (length (done ++ [f]))
      by (rewrite length_app; cbn; lia).
    rewrite (IH (done ++ [f])).
    + now rewrite list_insert_insert_eq.
    + now rewrite <- app_assoc.
    + rewrite list_lookup_insert_eq by (now apply lookup_lt_Some in He).
      now rewrite fmap_app.
Qed.

(** X7. The files of a match are inserted from position 1 on, in the
    order of the catalog: they come after the first file already found
    for the institution and before the others; none is lost and none is
    inserted twice. *)
Theorem insert_files_after_the_first
    (ii : nat) (files : list string) (entries : list pyval) (name : pyval)
    (l : list pyval) (w : world) :
  entries !! ii = Some (PList [name; PList l]) ->
  Ccmi2022.insert_files ii files (PList entries) w
  = (Ok (PList (<[ii:=PList [name;
                             PList (take 1 l ++ (PStr <$> files) ++ drop 1 l)]]>
                  entries)), w).
Proof.
  intros He. unfold Ccmi2022.insert_files, py_range. rewrite Nat.sub_0_r.
  apply (insert_files_from ii name (take 1 l) (drop 1 l) files) with (done := []).
  - destruct l as [|a l]; [right; split; reflexivity | left; reflexivity].
  - reflexivity.
  - cbn [fmap list_fmap app]. now rewrite take_drop.
Qed.

(** X7 at an institution for which two files were found before. *)
Lemma insert_files_after_the_first_witness :
  Ccmi2022.insert_files 0 ["c.nc"; "d.nc"]
    (PList [PList [PStr "InstA"; PList [PStr "a.nc"; PStr "b.nc"]]])
    empty_world
  = (Ok (PList [PList [PStr "InstA";
                       PList [PStr "a.nc"; PStr "c.nc"; PStr "d.nc";
                              PStr "b.nc"]]]),
     empty_world).
Proof.
  apply (insert_files_after_the_first 0 ["c.nc"; "d.nc"]
           [PList [PStr "InstA"; PList [PStr "a.nc"; PStr "b.nc"]]]
           (PStr "InstA") [PStr "a.nc"; PStr "b.nc"] empty_world).
  reflexivity.
Defined.

Lemma traverse_py_str l : traverse py_str (PStr <$> l) = Ok l.
Proof.
  induction l as [|s l IH]; [reflexivity|].
  cbn [fmap list_fmap traverse py_str obind]. change (list_fmap _ _ PStr l)
    with (PStr <$> l). now rewrite IH.
Qed.

(** X8. The download list is the concatenation, institution by
    institution, of the files found. *)
Theorem file_list_concatenates (es : list (string * list string)) :
  Ccmi2022.file_list (PList (found_entry <$> es)) = Ok (concat (snd <$> es)).
Proof.
  unfold Ccmi2022.file_list.
  assert (H : traverse
                (fun fentry =>
                   obind (py_getitem fentry 1) (fun fs =>
                   match fs with
                   | PList l => traverse py_str l
                   | _ => Raise TypeError
                   end)) (found_entry <$> es) = Ok (snd <$> es)).
  { induction es as [|[n fs] es IH]; [reflexivity|].
    cbn [fmap list_fmap traverse]. change (list_fmap _ _ found_entry es)
      with (found_entry <$> es). rewrite IH.
    unfold found_entry at 1. cbn [py_getitem py_index lookup list_lookup obind
                                   fst snd].
    now rewrite traverse_py_str. }
  now rewrite H.
Qed.

(** ** The listing calls of the CCMI-2022 search *)

Lemma bind_lift_ok {W A B} (o : outcome A) (a : A) (k : A -> io W B) w :
  o = Ok a -> bind (lift_outcome o) k w = k a w.
Proof. now intros ->. Qed.

Lemma keeps_bind_lift {W A B} (I : W -> Prop) (o : outcome A)
    (k : A -> io W B) :
  (forall a, o = Ok a -> keeps I (k a)) -> keeps I (bind (lift_outcome o) k).
Proof.
  intros H w Hw. destruct o as [a|e]; [|exact Hw]. now apply (H a eq_refl).
Qed.

Lemma py_in_inv x l : py_in x l = true -> exists s, x = PStr s /\ s ∈ l.
Proof.
  destruct x as [s| |]; try discriminate. cbn [py_in].
  intros H%bool_decide_eq_true. now exists s.
Qed.

Section OfflineSearch.
Variable E : env.
Variables (root_url : string) (trgexpt trgxvar trgtble : list string).
Variable l0 : list string.

Local Notation P := (matching_catalog root_url trgexpt trgtble trgxvar).
Local Notation I := (lists_only P l0).

Lemma lists_only_frame w w' : listed w' = listed w -> I w -> I w'.
Proof. intros Hl (calls & Hc & HP). exists calls. now rewrite Hl. Qed.

Lemma ccmi2022_get_elements_keeps url tag1 tag2 attribute_name :
  P url -> keeps I (Ccmi2022.get_elements E url tag1 tag2 attribute_name).
Proof.
  intros HP w (calls & Hc & Hcalls).
  destruct (ccmi2022_get_elements_attempts E url tag1 tag2 attribute_name w)
    as (r & k & -> & _).
  exists (calls ++ [url]). cbn. rewrite Hc, <- app_assoc. split; [reflexivity|].
  apply Forall_app. split; [exact Hcalls | now constructor].
Qed.

Lemma insert_files_keeps ii files flist :
  keeps I (Ccmi2022.insert_files ii files flist).
Proof.
  intros w Hw. eapply lists_only_frame; [|exact Hw].
  exact (insert_files_listed ii files flist (listed w) w eq_refl).
Qed.

Lemma collect_files_keeps inv ii ij ik il im ip flist expt mtab xvar :
  py_get_path inv [ii; ij; ik; 0%nat] = Ok expt ->
  py_in expt trgexpt = true ->
  py_get_path inv [ii; ij; ik; il; im; 0%nat] = Ok mtab ->
  py_in mtab trgtble = true ->
  py_get_path inv [ii; ij; ik; il; im; 1%nat; ip] = Ok xvar ->
  py_in xvar trgxvar = true ->
  keeps I (Ccmi2022.collect_files E root_url inv ii ij ik il im ip flist).
Proof.
  intros He (se & -> & Hse)%py_in_inv Hm (sm & -> & Hsm)%py_in_inv
         Hx (sx & -> & Hsx)%py_in_inv.
  unfold Ccmi2022.collect_files.
  apply keeps_bind_lift. intros inst _.
  apply keeps_bind_lift. intros model _.
  apply keeps_bind_lift. intros expt Hexpt.
  apply keeps_bind_lift. intros rsim _.
  apply keeps_bind_lift. intros mtab Hmtab.
  apply keeps_bind_lift. intros xvar Hxvar.
  unfold py_str_at in Hexpt, Hmtab, Hxvar.
  rewrite He in Hexpt. rewrite Hm in Hmtab. rewrite Hx in Hxvar.
  cbn in Hexpt, Hmtab, Hxvar.
  injection Hexpt as <-. injection Hmtab as <-. injection Hxvar as <-.
  assert (HP : forall rest,
             P ((root_url +:+ inst +:+ "/" +:+ model +:+ "/" +:+ se +:+ "/"
                   +:+ rsim +:+ "/" +:+ sm +:+ "/" +:+ sx) +:+ "/" +:+ rest)).
  { intros rest. exists inst, model, se, rsim, sm, sx, rest.
    repeat split; try assumption. now rewrite !string_app_assoc. }
  apply keeps_bind; [apply ccmi2022_get_elements_keeps, HP|]. intros ldirs.
  apply keeps_bind_lift. intros grid _.
  apply keeps_bind; [apply ccmi2022_get_elements_keeps, HP|]. intros vers.
  apply keeps_bind_lift. intros vertrg _.
  apply keeps_bind; [apply ccmi2022_get_elements_keeps, HP|]. intros files.
  apply insert_files_keeps.
Qed.

Lemma search_loops_keeps inv iis flist :
  keeps I (Ccmi2022.search_loops E root_url inv trgexpt trgxvar trgtble iis
             flist).
Proof.
  unfold Ccmi2022.search_loops.
  apply keeps_bind; [|intros; apply keeps_ret].
  apply keeps_fold_each. intros st ii _.
  apply keeps_bind_lift. intros ijs _.
  apply keeps_fold_each. intros st1 ij _.
  apply keeps_bind_lift. intros _ _.
  apply keeps_bind_lift. intros iks _.
  apply keeps_bind; [|intros; apply keeps_ret].
  apply keeps_fold_each. intros st2 ik _.
  apply keeps_bind_lift. intros expt Hexpt.
  apply keeps_bind_lift. intros ils _.
  apply keeps_bind; [|intros; apply keeps_ret].
  apply keeps_fold_each. intros st3 il _.
  apply keeps_bind_lift. intros _ _.
  apply keeps_bind_lift. intros ims _.
  apply keeps_bind; [|intros; apply keeps_ret].
  apply keeps_fold_each. intros st4 im _.
  apply keeps_bind_lift. intros mtab Hmtab.
  apply keeps_bind_lift. intros ips _.
  apply keeps_bind; [|intros; apply keeps_ret].
  apply keeps_fold_each. intros fl ip _.
  apply keeps_bind_lift. intros xvar Hxvar.
  destruct (py_in expt trgexpt) eqn:H1; [|apply keeps_ret].
  destruct (py_in mtab trgtble) eqn:H2; [|apply keeps_ret].
  destruct (py_in xvar trgxvar) eqn:H3; [|apply keeps_ret].
  cbn [andb]. now apply (collect_files_keeps _ _ _ _ _ _ _ _ expt mtab xvar).
Qed.

Lemma write_log_keeps flist : keeps I (Ccmi2022.write_log E flist).
Proof.
  intros w Hw. eapply lists_only_frame; [|exact Hw].
  unfold Ccmi2022.write_log, bind.
  destruct (open_for_writing_frame E Ccmi2022.searchfile w) as (d & Hd).
  destruct (open_for_writing E Ccmi2022.searchfile w) as [[o|e] w1];
    cbn [snd] in Hd; subst w1; [|reflexivity].
  destruct flist as [v|]; [|reflexivity].
  unfold write_opened. now destruct o.
Qed.

Lemma search_inventory_keeps fullinvntry :
  keeps I (Ccmi2022.search_inventory E root_url fullinvntry trgexpt trgxvar
             trgtble).
Proof.
  unfold Ccmi2022.search_inventory.
  apply keeps_bind_lift. intros inv _.
  apply keeps_bind.
  - destruct trgexpt as [|x xs] eqn:Hx; [apply keeps_ret|]. rewrite <- Hx.
    apply keeps_map. unfold Ccmi2022.search_targets.
    apply keeps_bind_lift. intros iis _.
    apply keeps_bind.
    + apply keeps_fold_each. intros acc ii _.
      apply keeps_bind_lift. intros inst _. apply keeps_lift.
    + intros flist. apply search_loops_keeps.
  - intros flist. apply keeps_bind; [apply write_log_keeps|].
    intros _. destruct flist; [apply keeps_ret | apply keeps_raise].
Qed.
End OfflineSearch.

(** X9. Whatever the inventory holds and the servers answer, the
    CCMI-2022 search lists only catalogs below the directory of a
    variable whose experiment is in [trgexpt], whose table is in
    [trgtble] and whose name is in [trgxvar]: the tables and the names
    are matched separately, not pair by pair as [trgdata] gives them. *)
Theorem offline_search_lists_only_matches
    (E : env) (root_url : string) (fullinvntry : pyval)
    (trgexpt trgxvar trgtble : list string) (w : world) :
  exists calls,
    listed (Ccmi2022.search_inventory E root_url fullinvntry trgexpt trgxvar
              trgtble w).2 = listed w ++ calls
    /\ Forall (matching_catalog root_url trgexpt trgtble trgxvar) calls.
Proof.
  apply (search_inventory_keeps E root_url trgexpt trgxvar trgtble (listed w)
           fullinvntry w).
  exists []. split; [now rewrite app_nil_r | constructor].
Qed.

(** ** From the builder to the search *)

Lemma np_array_len_list l :
  np_array (PList (py_len_list l)) = Ok (Z.of_nat <$> l).
Proof.
  unfold np_array, py_len_list.
  induction l as [|n l IH]; [reflexivity|].
  cbn [fmap list_fmap traverse obind] in *.
  change (list_fmap nat pyval (fun n => PInt (Z.of_nat n)) l)
    with ((fun n => PInt (Z.of_nat n)) <$> l).
  now rewrite IH.
Qed.

(** X10. The inventory that the CCMI-2022 builder returns is one that
    its search can take apart: the seven components are there, the
    counts are integers, and the number of institutions is the length
    of the list of model counts. *)
Theorem built_inventory_unpacks
    (E : env) (inventory_file root_url : string) (w : world) (T : pyval)
    (w' : world) :
  Ccmi2022.create_inventory_file E inventory_file root_url w = (Ok T, w') ->
  exists inv,
    Ccmi2022.unpack T = Ok inv
    /\ Ccmi2022.ninst inv = PInt (Z.of_nat (length (Ccmi2022.nmdls inv)))
    /\ Forall (fun n => 0 <= n) (Ccmi2022.nmdls inv).
Proof.
  intros Hrun. unfold Ccmi2022.create_inventory_file in Hrun.
  apply bind_inv_ok in Hrun as (instts & w1 & _ & Hrun).
  apply bind_inv_ok in Hrun as (l1 & w2 & H1 & Hrun).
  apply bind_inv_ok in Hrun as (l2 & w3 & _ & Hrun).
  apply bind_inv_ok in Hrun as (l3 & w4 & _ & Hrun).
  apply bind_inv_ok in Hrun as (l4 & w5 & _ & Hrun).
  apply bind_inv_ok in Hrun as (l5 & w6 & _ & Hrun).
  apply bind_inv_ok in Hrun as (u & w7 & _ & Hrun).
  injection Hrun as <- _.
  apply models_loop_pairs in H1 as [_ Hlen].
  unfold Ccmi2022.unpack.
  cbn [py_getitem py_get_path py_index lookup list_lookup obind].
  rewrite !np_array_len_list. cbn [obind].
  eexists. split; [reflexivity|]. cbn [Ccmi2022.ninst Ccmi2022.nmdls].
  split.
  - now rewrite length_fmap, Hlen.
  - apply Forall_fmap, Forall_forall. intros n _. cbn. lia.
Qed.

(** X10 at the archive of the end-to-end scenario. *)
Lemma built_inventory_unpacks_witness :
  exists inv,
    Ccmi2022.unpack
      (PList [PList [PList [PStr "InstA";
                            PList [PStr "ModelA"; PList [PStr "refC1"];
                                   PList [PStr "refC2"]]];
                     PList [PStr "InstB";
                            PList [PStr "ModelB"; PList [PStr "refC1"]]]];
              PList [PInt 2]; PList [PInt 1; PInt 1]; PList [PInt 2; PInt 1];
              PList [PInt 0; PInt 0; PInt 0]; PList []; PList []])
    = Ok inv
    /\ Ccmi2022.ninst inv = PInt (Z.of_nat (length (Ccmi2022.nmdls inv)))
    /\ Forall (fun n => 0 <= n) (Ccmi2022.nmdls inv).
Proof.
  apply (built_inventory_unpacks
           (stub_env scenario_refs (fun _ => [])) "inventory" "R/" empty_world
           _
           (Ccmi2022.create_inventory_file
              (stub_env scenario_refs (fun _ => [])) "inventory" "R/"
              empty_world).2).
  vm_compute. reflexivity.
Defined.

(** ** The destination of a file *)

Lemma eqb_slash_sym c : Ascii.eqb slash c = Ascii.eqb c slash.
Proof.
  destruct (Ascii.eqb c slash) eqn:H.
  - apply Ascii.eqb_eq in H as ->. apply Ascii.eqb_refl.
  - apply Ascii.eqb_neq in H. apply Ascii.eqb_neq. congruence.
Qed.

Lemma rsplit_no_slash b :
  has_char slash b = false -> rsplit_slash b = (EmptyString, b).
Proof.
  induction b as [|c b IH]; [reflexivity|]. cbn [has_char rsplit_slash].
  intros H. apply orb_false_iff in H as [Hc Hb].
  rewrite (IH Hb). rewrite eqb_slash_sym in Hc. now rewrite Hc.
Qed.

Lemma rsplit_after_slash x b :
  has_char slash b = false ->
  rsplit_slash (x +:+ String slash b) = (x +:+ String slash "", b).
Proof.
  intros Hb. induction x as [|c x IH].
  - rewrite !app_empty_l. cbn [rsplit_slash].
    rewrite (rsplit_no_slash b Hb). now rewrite Ascii.eqb_refl.
  - rewrite !app_String. cbn [rsplit_slash]. rewrite IH.
    now destruct x.
Qed.

Lemma basename_no_slash p : has_char slash (basename p) = false.
Proof.
  unfold basename. induction p as [|c p IH]; [reflexivity|].
  cbn [rsplit_slash]. destruct (rsplit_slash p) as [head tail].
  cbn [snd] in IH. destruct head as [|h head]; [|exact IH].
  destruct (Ascii.eqb c slash) eqn:Hc; [exact IH|].
  cbn [snd has_char]. now rewrite eqb_slash_sym, Hc.
Qed.

Lemma ends_with_slash_inv p :
  ends_with_slash p = true -> exists x, p = x +:+ String slash "".
Proof.
  induction p as [|c p IH]; [discriminate|]. cbn [ends_with_slash].
  destruct p as [|d p].
  - intros H%Ascii.eqb_eq. subst c. now exists "".
  - intros H. destruct (IH H) as (x & Hx). exists (String c x).
    now rewrite app_String, <- Hx.
Qed.

Lemma basename_join2 p b :
  has_char slash b = false -> basename (join2 p b) = b.
Proof.
  intros Hb. unfold join2, basename.
  assert (Hs : starts_with_slash b = false).
  { destruct b as [|c b]; [reflexivity|]. cbn in Hb |- *.
    apply orb_false_iff in Hb as [Hc _]. now rewrite <- eqb_slash_sym. }
  rewrite Hs. destruct (String.eqb p "") eqn:Hp.
  - apply String.eqb_eq in Hp as ->. cbn [orb]. rewrite app_empty_l.
    now rewrite rsplit_no_slash.
  - cbn [orb]. destruct (ends_with_slash p) eqn:He.
    + apply ends_with_slash_inv in He as (x & ->).
      rewrite string_app_assoc, app_String, app_empty_l.
      now rewrite rsplit_after_slash.
    + change ("/" +:+ b) with (String slash b).
      now rewrite rsplit_after_slash.
Qed.

(** X11. The destination of a file keeps its name: it is the last
    component of the destination, whatever the download directory and
    the experiment are; and a file whose name has fewer than four fields
    between underscores has no destination, [IndexError] being raised
    for it. *)
Theorem destination_keeps_the_file_name (downloaddir afile : string) :
  (forall destfile,
      destination downloaddir afile = Ok destfile ->
      basename destfile = basename afile
      /\ (4 <= length (split_on "_" (basename afile)))%nat)
  /\ ((length (split_on "_" (basename afile)) < 4)%nat ->
      destination downloaddir afile = Raise IndexError).
Proof.
  unfold destination, py_index. split.
  - intros destfile H.
    destruct (split_on "_" (basename afile) !! 3%nat) as [experiment|] eqn:He;
      [|discriminate].
    cbn [obind] in H. injection H as <-. split.
    + unfold join3. apply basename_join2, basename_no_slash.
    + apply lookup_lt_Some in He. lia.
  - intros Hlen. now rewrite lookup_ge_None_2 by lia.
Qed.

(** X11 at a file of the CCMI-1 archive. *)
Lemma destination_keeps_the_file_name_witness :
  basename sample_destination = basename sample_file
  /\ (4 <= length (split_on "_" (basename sample_file)))%nat.
Proof.
  apply (proj1 (destination_keeps_the_file_name "downloads" sample_file)).
  vm_compute. reflexivity.
Defined.

(** ** What a download stores *)

(** X12. When the server answers a request with a status and a payload
    and the destination can be written, the CCMI-2022 loop stores the
    payload and reports the file as downloaded whatever the status; the
    CCMI-1 loop does so unless the status is from 400 to 599, for which
    it reports a failed download and leaves the disk as it is. *)
Theorem fetch_stores_the_payload
    (E : env) (fileURL destfile : string) (w : world) (status : Z)
    (content : string) :
  session_get E (requests w) fileURL = Response status content ->
  disk w !! destfile <> Some Directory ->
  os_write E (disk w) destfile = Written ->
  Ccmi2022.fetch E fileURL destfile w
  = (Ok tt,
     note_printed (MsgDownloaded destfile)
       (set_disk (<[destfile:=File content]> (disk w))
          (note_request fileURL w)))
  /\ (status < 400 \/ 600 <= status ->
      Ccmi1.fetch E fileURL destfile w
      = (Ok tt,
         note_printed (MsgDownloaded destfile)
           (set_disk (<[destfile:=File content]> (disk w))
              (note_request fileURL w))))
  /\ (400 <= status < 600 ->
      Ccmi1.fetch E fileURL destfile w
      = (Ok tt,
         note_printed (MsgDownloadFailed fileURL) (note_request fileURL w))).
Proof.
  intros Hget Hdir Hwr.
  assert (Hw : write_file E destfile content (note_request fileURL w)
               = (Ok tt, set_disk (<[destfile:=File content]> (disk w))
                           (note_request fileURL w))).
  { exact (write_file_written E destfile content (note_request fileURL w)
             Hdir Hwr). }
  split; [|split].
  - unfold Ccmi2022.fetch, try_except, bind at 1, do_get. rewrite Hget.
    cbn [fst snd]. unfold bind. now rewrite Hw.
  - intros Hst. unfold Ccmi1.fetch, try_except, bind at 1, do_get.
    rewrite Hget. cbn [fst snd]. unfold Ccmi1.raise_for_status.
    replace ((400 <=? status) && (status <? 600)) with false
      by (symmetry; apply andb_false_iff; lia).
    unfold bind. cbn [ret]. now rewrite Hw.
  - intros Hst. unfold Ccmi1.fetch, try_except, bind at 1, do_get.
    rewrite Hget. cbn [fst snd]. unfold Ccmi1.raise_for_status.
    replace ((400 <=? status) && (status <? 600)) with true
      by (symmetry; apply andb_true_iff; lia).
    reflexivity.
Qed.

(** X12 at a server that answers 404 with an error page. *)
Lemma fetch_stores_the_payload_witness :
  Ccmi2022.fetch missing_env (file_url sample_file) sample_destination
    empty_world
  = (Ok tt,
     note_printed (MsgDownloaded sample_destination)
       (set_disk (<[sample_destination:=File "not found"]> ∅)
          (note_request (file_url sample_file) empty_world)))
  /\ Ccmi1.fetch missing_env (file_url sample_file) sample_destination
       empty_world
     = (Ok tt,
        note_printed (MsgDownloadFailed (file_url sample_file))
          (note_request (file_url sample_file) empty_world)).
Proof.
  destruct (fetch_stores_the_payload missing_env (file_url sample_file)
              sample_destination empty_world 404 "not found")
    as (H2022 & _ & H1).
  - reflexivity.
  - cbn [disk empty_world]. now rewrite lookup_empty.
  - reflexivity.
  - split; [exact H2022 | apply H1; lia].
Defined.

(** ** Downloading with overwriting enabled *)

Section Overwrite.
Variable E : env.
Variable downloaddir : string.
Variable prepare : string -> io world string.
Variable fetch : string -> string -> io world unit.
Hypothesis prepare_spec : forall afile w r w',
  prepare afile w = (r, w') ->
  requests w' = requests w /\ disk w ⊆ disk w'
  /\ (forall d, r = Ok d -> destination downloaddir afile = Ok d).
Hypothesis fetch_spec : forall fileURL destfile w,
  exists w', fetch fileURL destfile w = (Ok tt, w')
             /\ fetched E fileURL destfile w w'.

Lemma download_body_overwrite vb afile w u w' :
  download_body prepare fetch true vb afile w = (Ok u, w') ->
  requests w' = requests w ++ [file_url afile].
Proof.
  unfold download_body. intros H.
  apply bind_inv_ok in H as (destfile & w1 & Hp & H).
  apply prepare_spec in Hp as (Hr1 & _ & _).
  apply bind_inv_ok in H as (w0 & w1' & Hg & H). injection Hg as <- <-.
  cbn [negb andb] in H.
  apply bind_inv_ok in H as (u2 & w2 & Hs2 & H).
  apply bind_inv_ok in H as (u3 & w3 & Hs3 & H).
  destruct (say_spec vb (MsgDownloading (file_url afile)) w1)
    as (w2' & Hs2' & Hr2 & _).
  rewrite Hs2' in Hs2. injection Hs2 as _ <-.
  destruct (say_spec vb (MsgDestination destfile) w2') as (w3' & Hs3' & Hr3 & _).
  rewrite Hs3' in Hs3. injection Hs3 as _ <-.
  destruct (fetch_spec (file_url afile) destfile w3') as (w4 & Hf & Hr4 & _).
  rewrite Hf in H. injection H as _ <-.
  now rewrite Hr4, Hr3, Hr2, Hr1.
Qed.

Lemma download_loop_overwrite vb filelist :
  forall w w',
    for_each filelist (download_body prepare fetch true vb) w = (Ok tt, w') ->
    requests w' = requests w ++ (file_url <$> filelist).
Proof.
  induction filelist as [|a rest IH]; intros w w' H.
  - injection H as <-. now rewrite app_nil_r.
  - cbn [for_each] in H. apply bind_inv_ok in H as (u & w1 & H1 & H).
    apply download_body_overwrite in H1. apply IH in H.
    rewrite H, H1, <- app_assoc. reflexivity.
Qed.
End Overwrite.

(** X13. With overwriting enabled, a download loop that returns has
    asked for every file of the list once, in the order of the list, in
    either catalog script. *)
Theorem overwrite_requests_every_file
    (E : env) (downloaddir : string) (verbose : bool)
    (filelist : list string) (w : world) :
  (forall w',
      Ccmi1.download E downloaddir true verbose filelist w = (Ok tt, w') ->
      requests w' = requests w ++ (file_url <$> filelist))
  /\ (forall w',
        Ccmi2022.download E downloaddir true verbose filelist w = (Ok tt, w') ->
        requests w' = requests w ++ (file_url <$> filelist)).
Proof.
  split; intros w'.
  - apply (download_loop_overwrite E downloaddir (Ccmi1.prepare E downloaddir)
             (Ccmi1.fetch E)).
    + intros a w0 r w0'. apply ccmi1_prepare_spec.
    + intros u d w0. apply ccmi1_fetch_spec.
  - apply (download_loop_overwrite E downloaddir (Ccmi2022.prepare downloaddir)
             (Ccmi2022.fetch E)).
    + intros a w0 r w0'. apply ccmi2022_prepare_spec.
    + intros u d w0. apply ccmi2022_fetch_spec.
Qed.

(** X13 at a list that names one file twice, on a disk that holds its
    destination. *)
Lemma overwrite_requests_every_file_witness :
  requests (Ccmi2022.download serving_env "downloads" true false
              [sample_file; sample_file] stocked_world).2
  = requests stocked_world ++ (file_url <$> [sample_file; sample_file]).
Proof.
  apply (proj2 (overwrite_requests_every_file serving_env "downloads" false
                  [sample_file; sample_file] stocked_world)).
  vm_compute. reflexivity.
Defined.

(** ** The directory of a destination *)

Lemma foldl_add_directory_lookup (chain : list string) :
  forall (d : gmap string node) (p : string),
    foldl add_directory d chain !! p = d !! p
    \/ foldl add_directory d chain !! p = Some Directory.
Proof.
  induction chain as [|q chain IH]; intros d p; [now left|].
  cbn [foldl]. destruct (IH (add_directory d q) p) as [H|H]; [|now right].
  rewrite H. unfold add_directory. destruct (d !! q) eqn:Hq; [now left|].
  destruct (decide (q = p)) as [->|Hne].
  - right. apply lookup_insert_eq.
  - left. now apply lookup_insert_ne.
Qed.

Lemma makedirs_makes E d w u w' :
  makedirs E d w = (Ok u, w') ->
  all_slashes d = false ->
  disk w' !! d = Some Directory.
Proof.
  unfold makedirs. intros H Hd.
  destruct (String.eqb d "") eqn:He; [discriminate|].
  destruct (existsb _ _) eqn:Hfile; [discriminate|].
  destruct (os_mkdir_denied E (disk w) d); [discriminate|].
  injection H as _ <-. cbn [disk set_disk].
  cbn [dir_chain] in Hfile |- *. rewrite He, Hd in Hfile |- *. cbn [orb] in *.
  rewrite existsb_app in Hfile. apply orb_false_iff in Hfile as [_ Hfile].
  cbn [existsb] in Hfile. rewrite orb_false_r in Hfile.
  rewrite foldl_app. cbn [foldl].
  set (m := foldl add_directory (disk w) _) in *.
  unfold add_directory. destruct (m !! d) as [n|] eqn:Hm;
    [|apply lookup_insert_eq].
  rewrite Hm. destruct (foldl_add_directory_lookup
                (dir_chain (String.length d) (dirname d)) (disk w) d) as [H|H];
    fold m in H; rewrite Hm in H.
  - unfold is_file in Hfile. rewrite <- H in Hfile. now destruct n.
  - exact H.
Qed.

(** X14. The CCMI-1 loop makes the directory of a destination before
    it looks for the file: when its preparation returns, that directory
    is on the disk, with everything that was there before. *)
Theorem ccmi1_prepare_makes_the_directory
    (E : env) (downloaddir afile : string) (w : world) (destfile : string)
    (w' : world) :
  Ccmi1.prepare E downloaddir afile w = (Ok destfile, w') ->
  all_slashes (dirname destfile) = false ->
  disk w' !! dirname destfile = Some Directory /\ disk w ⊆ disk w'.
Proof.
  intros H Hd. split.
  - unfold Ccmi1.prepare in H.
    apply bind_lift_inv_ok in H as (d & _ & H).
    apply bind_inv_ok in H as (u & w1 & Hm & H).
    injection H as <- <-. now apply makedirs_makes in Hm.
  - now apply ccmi1_prepare_spec in H as (_ & Hsub & _).
Qed.

(** X14 at a file of the CCMI-1 archive and an empty disk. *)
Lemma ccmi1_prepare_makes_the_directory_witness :
  disk (Ccmi1.prepare serving_env "downloads" sample_file empty_world).2
    !! dirname sample_destination = Some Directory
  /\ disk empty_world
     ⊆ disk (Ccmi1.prepare serving_env "downloads" sample_file empty_world).2.
Proof.
  apply (ccmi1_prepare_makes_the_directory serving_env "downloads" sample_file
           empty_world sample_destination).
  - vm_compute. reflexivity.
  - vm_compute. reflexivity.
Defined.

(** ** The transfers of the FTP script *)

Section FtpTransfers.
Variable E : Ftp.server.

Lemma ftp_cwd_local d s u s' :
  Ftp.ftp_cwd E d s = (Ok u, s') ->
  Ftp.local_files s' = Ftp.local_files s.
Proof.
  unfold Ftp.ftp_cwd. destruct (Ftp.enterable E _); [|discriminate].
  now intros [= _ <-].
Qed.

Lemma ftp_names_local t s l s' :
  Ftp.ftp_names E t s = (Ok l, s') ->
  Ftp.local_files s' = Ftp.local_files s.
Proof. unfold Ftp.ftp_names. now intros [= _ <-]. Qed.

Lemma retrbinary_inv_ok f s u s' :
  Ftp.retrbinary E f s = (Ok u, s') ->
  exists bytes,
    Ftp.retr E (Ftp.cwd s) f = Some bytes
    /\ Ftp.cwd s' = Ftp.cwd s
    /\ Ftp.local_files s' = <[f:=bytes]> (Ftp.local_files s).
Proof.
  unfold Ftp.retrbinary. destruct (Ftp.retr E (Ftp.cwd s) f) as [bytes|];
    [|discriminate].
  intros [= _ <-]. now exists bytes.
Qed.

Lemma for_each_retrbinary lfiles :
  forall s s',
    for_each lfiles (Ftp.retrbinary E) s = (Ok tt, s') ->
    Ftp.cwd s' = Ftp.cwd s
    /\ (forall f, f ∈ lfiles ->
                  exists bytes,
                    Ftp.retr E (Ftp.cwd s) f = Some bytes
                    /\ Ftp.local_files s' !! f = Some bytes)
    /\ (forall f, f ∉ lfiles ->
                  Ftp.local_files s' !! f = Ftp.local_files s !! f).
Proof.
  induction lfiles as [|a rest IH]; intros s s' H.
  - injection H as <-. split; [reflexivity|]. split; [|reflexivity].
    intros f Hf. now apply elem_of_nil in Hf.
  - cbn [for_each] in H. apply bind_inv_ok in H as (u & s1 & Ha & H).
    apply retrbinary_inv_ok in Ha as (bytes & Hretr & Hcwd & Hloc).
    apply IH in H as (Hcwd' & Hin & Hout). rewrite Hcwd in *.
    split; [exact Hcwd'|]. split.
    + intros f Hf. destruct (decide (f ∈ rest)) as [Hr|Hr]; [now apply Hin|].
      apply elem_of_cons in Hf as [->|Hf]; [|contradiction].
      exists bytes. split; [exact Hretr|].
      rewrite (Hout a Hr), Hloc. apply lookup_insert_eq.
    + intros f Hf. apply not_elem_of_cons in Hf as [Hne Hr].
      rewrite (Hout f Hr), Hloc. now apply lookup_insert_ne.
Qed.
End FtpTransfers.

(** X15. When the descent of the FTP script to the files of a variable
    returns, every file listed in the version directory it entered is
    in the local directory with the bytes the server sent, and no other
    local file was touched. *)
Theorem ftp_pull_fetches_the_listed_files
    (E : Ftp.server) (var_dir : string) (s s' : Ftp.session) :
  Ftp.pull E var_dir s = (Ok tt, s') ->
  (forall f, f ∈ Ftp.names_of E Ftp.TypeFile (Ftp.cwd s') ->
             exists bytes,
               Ftp.retr E (Ftp.cwd s') f = Some bytes
               /\ Ftp.local_files s' !! f = Some bytes)
  /\ (forall f, f ∉ Ftp.names_of E Ftp.TypeFile (Ftp.cwd s') ->
                Ftp.local_files s' !! f = Ftp.local_files s !! f).
Proof.
  unfold Ftp.pull. intros H.
  apply bind_inv_ok in H as (u1 & s1 & H1 & H).
  apply bind_inv_ok in H as (l1 & s2 & H2 & H).
  apply bind_lift_inv_ok in H as (grid & _ & H).
  apply bind_inv_ok in H as (u3 & s3 & H3 & H).
  apply bind_inv_ok in H as (l4 & s4 & H4 & H).
  apply bind_lift_inv_ok in H as (version & _ & H).
  apply bind_inv_ok in H as (u5 & s5 & H5 & H).
  apply bind_inv_ok in H as (lfiles & s6 & H6 & H).
  apply ftp_cwd_local in H1, H3, H5.
  apply ftp_names_local in H2, H4.
  pose proof (ftp_names_local _ _ _ _ _ H6) as H6l.
  apply ftp_names_inv in H6 as [-> H6c].
  apply for_each_retrbinary in H as (Hcwd & Hin & Hout).
  rewrite Hcwd, H6c.
  assert (Hloc : Ftp.local_files s6 = Ftp.local_files s) by congruence.
  rewrite H6c in Hin. rewrite Hloc in Hout. split; assumption.
Qed.

(** X15 on the server of two versions. *)
Lemma ftp_pull_fetches_the_listed_files_witness :
  (forall f,
      f ∈ Ftp.names_of versions_server Ftp.TypeFile
            (Ftp.cwd (Ftp.pull versions_server "/d/h2o" ftp_start).2) ->
      exists bytes,
        Ftp.retr versions_server
          (Ftp.cwd (Ftp.pull versions_server "/d/h2o" ftp_start).2) f
        = Some bytes
        /\ Ftp.local_files (Ftp.pull versions_server "/d/h2o" ftp_start).2 !! f
           = Some bytes)
  /\ (forall f,
        f ∉ Ftp.names_of versions_server Ftp.TypeFile
              (Ftp.cwd (Ftp.pull versions_server "/d/h2o" ftp_start).2) ->
        Ftp.local_files (Ftp.pull versions_server "/d/h2o" ftp_start).2 !! f
        = Ftp.local_files ftp_start !! f).
Proof.
  apply (ftp_pull_fetches_the_listed_files versions_server "/d/h2o" ftp_start).
  vm_compute. reflexivity.
Defined.

(** X16. A variable directory without a sub-directory stops the FTP
    script: [ldirs[0]] raises [IndexError] once the directory is entered
    and listed, and nothing is fetched. *)
Theorem ftp_pull_needs_a_grid_directory
    (E : Ftp.server) (var_dir : string) (s : Ftp.session) :
  Ftp.enterable E (Ftp.target (Ftp.cwd s) var_dir) = true ->
  Ftp.names_of E Ftp.TypeDir (Ftp.target (Ftp.cwd s) var_dir) = [] ->
  Ftp.pull E var_dir s
  = (Raise IndexError,
     Ftp.Session (Ftp.target (Ftp.cwd s) var_dir)
       (Ftp.sent s ++ [Ftp.CWD (Ftp.target (Ftp.cwd s) var_dir);
                       Ftp.MLSD (Ftp.target (Ftp.cwd s) var_dir)])
       (Ftp.local_files s)).
Proof.
  intros Hen Hnone. unfold Ftp.pull, bind at 1, Ftp.ftp_cwd. rewrite Hen.
  unfold bind at 1, Ftp.ftp_names. cbn [Ftp.cwd Ftp.sent Ftp.local_files].
  rewrite Hnone. cbn. now rewrite <- app_assoc.
Qed.

Lemma ftp_pull_needs_a_grid_directory_witness :
  Ftp.pull bare_server "/d/h2o" ftp_start
  = (Raise IndexError,
     Ftp.Session "/d/h2o" [Ftp.CWD "/d/h2o"; Ftp.MLSD "/d/h2o"] ∅).
Proof.
  apply (ftp_pull_needs_a_grid_directory bare_server "/d/h2o" ftp_start);
    reflexivity.
Defined.

(** ** The targets of a search *)

Lemma eqb_underscore_sym c : Ascii.eqb "_" c = Ascii.eqb c "_".
Proof.
  destruct (Ascii.eqb c "_") eqn:H.
  - apply Ascii.eqb_eq in H as ->. reflexivity.
  - apply Ascii.eqb_neq in H. apply Ascii.eqb_neq. congruence.
Qed.

Lemma split_on_no_sep b : has_char "_" b = false -> split_on "_" b = [b].
Proof.
  induction b as [|c b IH]; [reflexivity|]. cbn [has_char split_on].
  intros H. apply orb_false_iff in H as [Hc Hb].
  rewrite eqb_underscore_sym in Hc. now rewrite Hc, (IH Hb).
Qed.

Lemma split_on_first a b :
  has_char "_" a = false ->
  split_on "_" (a +:+ "_" +:+ b) = a :: split_on "_" b.
Proof.
  induction a as [|c a IH]; intros Ha.
  - reflexivity.
  - cbn [has_char] in Ha. apply orb_false_iff in Ha as [Hc Ha].
    rewrite eqb_underscore_sym in Hc.
    rewrite app_String. cbn [split_on]. now rewrite Hc, (IH Ha).
Qed.

(** X17. For names [variable_table] without other underscores, the
    targets are the variables and the tables of the names, in order; a
    name of [trgdata] without an underscore raises [IndexError], in
    the CCMI-2022 and in the FTP script. *)
Theorem targets_of_names (pairs : list (string * string)) :
  (Forall (fun p => has_char "_" p.1 = false /\ has_char "_" p.2 = false)
          pairs ->
   targets_of (target_name <$> pairs) = Ok (fst <$> pairs, snd <$> pairs))
  /\ (forall trgdata name,
        name ∈ trgdata -> has_char "_" name = false ->
        targets_of trgdata = Raise IndexError).
Proof.
  split.
  - intros Hall. unfold targets_of.
    assert (H0 : traverse (fun name => py_index (split_on "_" name) 0)
                   (target_name <$> pairs) = Ok (fst <$> pairs)).
    { apply traverse_Forall2. apply Forall2_fmap. apply Forall2_same_length_lookup_2.
      { reflexivity. }
      intros i p q Hp Hq. rewrite Hp in Hq. injection Hq as <-.
      rewrite Forall_forall in Hall.
      destruct (Hall p) as [H1 H2]; [now apply list_elem_of_lookup_2 in Hp|].
      unfold target_name. now rewrite split_on_first. }
    assert (H1 : traverse (fun name => py_index (split_on "_" name) 1)
                   (target_name <$> pairs) = Ok (snd <$> pairs)).
    { apply traverse_Forall2. apply Forall2_fmap. apply Forall2_same_length_lookup_2.
      { reflexivity. }
      intros i p q Hp Hq. rewrite Hp in Hq. injection Hq as <-.
      rewrite Forall_forall in Hall.
      destruct (Hall p) as [H1 H2]; [now apply list_elem_of_lookup_2 in Hp|].
      unfold target_name. now rewrite split_on_first, split_on_no_sep. }
    now rewrite H0, H1.
  - intros trgdata name Hin Hname. unfold targets_of.
    destruct (traverse (fun name => py_index (split_on "_" name) 0) trgdata)
      as [trgxvar|e] eqn:H0; cbn [obind].
    + destruct (traverse (fun name => py_index (split_on "_" name) 1) trgdata)
        as [trgtble|e] eqn:H1; cbn [obind].
      * apply traverse_ok_each in H1. rewrite Forall_forall in H1.
        destruct (H1 name Hin) as (y & Hy).
        rewrite (split_on_no_sep name Hname) in Hy. discriminate.
      * apply traverse_raise in H1 as (x & _ & Hx). unfold py_index in Hx.
        destruct (split_on "_" x !! 1%nat); [discriminate|]. now injection Hx as <-.
    + apply traverse_raise in H0 as (x & _ & Hx). unfold py_index in Hx.
      destruct (split_on "_" x !! 0%nat); [discriminate|]. now injection Hx as <-.
Qed.

(** X17 at the targets the FTP script is distributed with. *)
Lemma targets_of_names_witness :
  targets_of (target_name <$> [("ta", "AmonZ"); ("toz", "Amon")])
  = Ok (fst <$> [("ta", "AmonZ"); ("toz", "Amon")],
        snd <$> [("ta", "AmonZ"); ("toz", "Amon")]).
Proof.
  apply (proj1 (targets_of_names [("ta", "AmonZ"); ("toz", "Amon")])).
  repeat constructor.
Defined.

Lemma vpull_from_pairs (pairs : list (string * string)) mtab xvar :
  forall (todo done : list (string * string)) (acc : bool),
    pairs = done ++ todo ->
    vpull_from (seq (length done) (length todo)) (snd <$> pairs)
      (fst <$> pairs) mtab xvar acc
    = Ok (acc || bool_decide ((xvar, mtab) ∈ todo)).
Proof.
  induction todo as [|[x t] todo IH]; intros done acc Hp.
  - cbn. f_equal. rewrite bool_decide_eq_false_2; [now rewrite orb_false_r|].
    apply not_elem_of_nil.
  - cbn [length seq vpull_from]. unfold py_index.
    rewrite !list_lookup_fmap, Hp, list_lookup_middle by reflexivity.
    cbn [fmap option_fmap option_map fst snd obind].
    assert (Hnext : forall acc',
               vpull_from (seq (S (length done)) (length todo))
                 (snd <$> done ++ (x, t) :: todo)
                 (fst <$> done ++ (x, t) :: todo) mtab xvar acc'
               = Ok (acc' || bool_decide ((xvar, mtab) ∈ todo))).
    { intros acc'. rewrite <- Hp.
      replace (S (length done)) with (length (done ++ [(x, t)]))
        by (rewrite length_app; cbn; lia).
      apply IH. now rewrite <- app_assoc. }
    destruct (String.eqb mtab t) eqn:Ht.
    + cbn [obind]. rewrite Hnext. f_equal.
      apply String.eqb_eq in Ht as ->.
      destruct (String.eqb xvar x) eqn:Hx.
      * apply String.eqb_eq in Hx as ->.
        rewrite (bool_decide_eq_true_2 ((x, t) ∈ (x, t) :: todo)) by left.
        now rewrite orb_true_r.
      * apply String.eqb_neq in Hx. f_equal.
        apply bool_decide_ext. rewrite elem_of_cons.
        split; [now right | intros [[=]|]; [contradiction | assumption]].
    + rewrite Hnext. f_equal. f_equal. apply String.eqb_neq in Ht.
      apply bool_decide_ext. rewrite elem_of_cons.
      split; [now right | intros [[=]|]; [contradiction | assumption]].
Qed.

(** X18. The FTP script pulls a variable of a table exactly when the
    pair is one of the pairs of [trgdata]: the table and the variable
    are matched pair by pair. *)
Theorem vpull_matches_pairs
    (pairs : list (string * string)) (mtab xvar : string) :
  vpull (snd <$> pairs) (fst <$> pairs) mtab xvar
  = Ok (bool_decide ((xvar, mtab) ∈ pairs)).
Proof.
  unfold vpull, py_range. rewrite Nat.sub_0_r, length_fmap.
  exact (vpull_from_pairs pairs mtab xvar pairs [] false eq_refl).
Qed.

(** ** The inventory of institutions with one model *)

Section SingleModels.
Context {W : Type} (titles : string -> io W (list string)).
Context (of_inst : string -> string) (of_model : string -> string -> string).
Variable children : string -> list string.
Hypothesis titles_stub : forall url w,
  exists w', titles url w = (Ok (children url), w').

Lemma insert_experiments_first (done todo : list pyval) inst model
    (expname : list string) :
  forall (td dn : list string) (w : W),
    expname = dn ++ td ->
    fold_each (seq (length dn) (length td))
      (PList (done ++ PList [PStr inst; PList (PStr model :: (branch <$> dn))]
                :: todo))
      (fun invntry ik =>
         e <- lift_outcome (py_index expname ik) ;;
         lift_outcome
           (py_update [length done; 1%nat]
              (py_insert_method (2 * 0 + ik + 1) (PList [PStr e]))
              invntry)) w
    = (Ok (PList (done ++ PList [PStr inst;
                                 PList (PStr model :: (branch <$> expname))]
                    :: todo)), w).
Proof.
  induction td as [|e td IH]; intros dn w Hx.
  - rewrite app_nil_r in Hx. now subst dn.
  - cbn [length seq fold_each].
    assert (Hidx : py_index expname (length dn) = Ok e).
    { unfold py_index. subst expname. now rewrite list_lookup_middle. }
    erewrite bind_ok; cycle 1.
    { rewrite Hidx. cbn [lift_outcome]. rewrite bind_ret.
      rewrite (py_update_entry done todo inst
                 (PStr model :: (branch <$> dn))
                 (PStr model :: (branch <$> dn ++ [e]))); [reflexivity|].
      cbn [py_insert_method]. do 2 f_equal. unfold py_insert.
      rewrite take_ge, drop_ge
        by (cbn [length]; rewrite length_fmap; lia).
      rewrite fmap_app. reflexivity. }
    replace (S (length dn)) with (length (dn ++ [e]))
      by (rewrite length_app; cbn; lia).
    apply IH. now rewrite <- app_assoc.
Qed.

Lemma experiments_of_single_model (done todo : list pyval) inst model
    (P R : list nat) nmdls (w : W) :
  children (of_inst inst) = [model] ->
  nmdls !! length done = Some 1%nat ->
  exists w',
    experiments_of_institution titles of_model nmdls
      (PList (done ++ model_entry children of_inst inst :: todo),
       P ++ O :: R, length P) (length done) w
    = (Ok (PList (done
                    ++ PList [PStr inst;
                              PList (PStr model
                                       :: (branch
                                             <$> children (of_model inst model)))]
                    :: todo),
           P ++ length (children (of_model inst model)) :: R,
           S (length P)), w').
Proof.
  intros Hm Hnm. unfold experiments_of_institution, model_entry.
  rewrite Hm. cbn [fst py_getitem fmap list_fmap]. unfold py_index.
  rewrite (list_lookup_middle done todo _ (length done) eq_refl), Hnm.
  cbn [lift_outcome]. rewrite !bind_ret.
  cbn [py_range Nat.sub seq fold_each]. unfold experiments_of_model.
  destruct (titles_stub (of_model inst model) w) as (w' & Ht).
  exists w'. erewrite bind_ok; [reflexivity|].
  repeat (progress (cbn [py_getitem py_str lift_outcome lookup list_lookup];
                    unfold py_index; rewrite ?bind_ret)).
  rewrite (bind_ok _ _ _ _ _ Ht).
  unfold insert_experiments, py_range. rewrite Nat.sub_0_r.
  erewrite bind_ok; cycle 1.
  { apply (insert_experiments_first done todo inst model
             (children (of_model inst model))
             (children (of_model inst model)) [] w' eq_refl). }
  unfold np_set. rewrite bool_decide_eq_true_2
    by (rewrite length_app; cbn [length]; lia).
  cbn [lift_outcome]. rewrite !bind_ret.
  rewrite <- (Nat.add_0_r (length P)) at 1.
  rewrite insert_app_r. reflexivity.
Qed.

Lemma experiments_loop_single_models (nmdls : list nat) :
  forall (insts : list string) (done : list pyval) (P : list nat) (w : W),
    length P = length done ->
    Forall (fun inst => exists model, children (of_inst inst) = [model]) insts ->
    (forall i, (i < length insts)%nat ->
               nmdls !! (length done + i)%nat = Some 1%nat) ->
    exists recs w',
      fold_each (seq (length done) (length insts))
        (PList (done ++ (model_entry children of_inst <$> insts)),
         P ++ replicate (length insts) O, length P)
        (experiments_of_institution titles of_model nmdls) w
      = (Ok (PList (done ++ recs.*1), P ++ recs.*2,
             (length P + length insts)%nat), w')
      /\ Forall2 (single_model_record children of_inst of_model) insts recs.
Proof.
  induction insts as [|inst insts IH]; intros done P w HP Hall Hnm.
  - exists [], w. cbn. rewrite !app_nil_r, Nat.add_0_r. split; [reflexivity|].
    constructor.
  - apply Forall_cons in Hall as [(model & Hm) Hall].
    cbn [length seq fold_each fmap list_fmap replicate].
    destruct (experiments_of_single_model done
                (model_entry children of_inst <$> insts) inst model P
                (replicate (length insts) O) nmdls w Hm) as (w1 & H1).
    { rewrite <- (Nat.add_0_r (length done)). apply Hnm. cbn. lia. }
    rewrite (bind_ok _ _ _ _ _ H1).
    set (e' := PList [PStr inst;
                      PList (PStr model
                               :: (branch <$> children (of_model inst model)))]).
    set (n := length (children (of_model inst model))).
    destruct (IH (done ++ [e']) (P ++ [n]) w1) as (recs & w' & Hrun & Hrecs).
    + rewrite !length_app. cbn. lia.
    + exact Hall.
    + intros i Hi. rewrite length_app. cbn [length].
      replace (length done + 1 + i)%nat with (length done + S i)%nat by lia.
      apply Hnm. cbn. lia.
    + exists ((e', n) :: recs), w'. split.
      * rewrite !length_app in Hrun. cbn [length] in Hrun.
        replace (length done + 1)%nat with (S (length done)) in Hrun by lia.
        rewrite <- !app_assoc in Hrun. cbn [app] in Hrun.
        replace (length P + 1)%nat with (S (length P)) in Hrun by lia.
        rewrite Hrun. cbn [fmap list_fmap fst snd].
        replace (S (length P) + length insts)%nat
          with (length P + S (length insts))%nat by lia.
        reflexivity.
      * constructor; [|exact Hrecs]. exists model. now repeat split.
Qed.

Lemma levels_single_models instts (w : W) :
  Forall (fun inst => exists model, children (of_inst inst) = [model]) instts ->
  exists recs w',
    (l1 <- models_loop titles of_inst instts ;;
     l2 <- experiments_loop titles of_model (length instts) l1.1 l1.2 ;;
     ret (l2.1, l1.2, l2.2)) w
    = (Ok (PList recs.*1, replicate (length instts) 1%nat, recs.*2), w')
    /\ Forall2 (single_model_record children of_inst of_model) instts recs.
Proof.
  intros Hall.
  destruct (models_loop_spec titles of_inst children (fun _ => True)
              (fun url w _ => titles_stub url w) (fun _ => I) instts w)
    as (w1 & H1).
  rewrite (bind_ok _ _ _ _ _ H1). cbn [fst snd].
  assert (Hcnt : model_count children of_inst <$> instts
                 = replicate (length instts) 1%nat).
  { clear H1. induction Hall as [|inst insts (model & Hm) _ IH];
      [reflexivity|].
    cbn [fmap list_fmap length replicate]. unfold model_count at 1.
    rewrite Hm. cbn [length]. f_equal. exact IH. }
  rewrite Hcnt. unfold experiments_loop.
  assert (Hsum : sum_list (replicate (length instts) 1%nat) = length instts).
  { rewrite sum_list_replicate. lia. }
  rewrite Hsum. unfold py_range, np_zeros. rewrite Nat.sub_0_r.
  destruct (experiments_loop_single_models
              (replicate (length instts) 1%nat) instts [] [] w1 eq_refl Hall)
    as (recs & w' & Hrun & Hrecs).
  { intros i Hi. cbn [length Nat.add]. now apply lookup_replicate_2. }
  cbn [app length] in Hrun.
  exists recs, w'. split; [|exact Hrecs].
  erewrite bind_ok; cycle 1.
  { erewrite bind_ok; [|exact Hrun]. reflexivity. }
  reflexivity.
Qed.
End SingleModels.

(** X19. Over a lister stub whose institutions have one model each,
    the CCMI-1 builder returns the inventory in which the entry of every
    institution is [[inst, [model, [e1], ..., [en]]]], the experiments
    in the order of the listing, with one model counted for every
    institution and [n] experiments for its model: there the positions
    [2*ij+ik+1] are the right ones. *)
Theorem ccmi1_builder_of_single_models
    (refs files : string -> list string) (inventory_file root_url : string)
    (w : world) :
  Forall (fun inst => exists model, refs (catalog_of_inst root_url inst) = [model])
         (refs (root_url +:+ "catalog.xml")) ->
  disk w !! inventory_file <> Some Directory ->
  exists recs w',
    Ccmi1.create_inventory_file (stub_env refs files) inventory_file root_url w
    = (Ok (PList [PList recs.*1;
                  PList [PInt (Z.of_nat
                                 (length (refs (root_url +:+ "catalog.xml"))))];
                  PList (py_len_list
                           (replicate
                              (length (refs (root_url +:+ "catalog.xml")))
                              1%nat));
                  PList (py_len_list recs.*2)]), w')
    /\ Forall2 (single_model_record refs (catalog_of_inst root_url)
                  (catalog_of_model root_url))
               (refs (root_url +:+ "catalog.xml")) recs.
Proof.
  intros Hall Hdir. unfold Ccmi1.create_inventory_file.
  destruct (ccmi1_titles_stub refs files (root_url +:+ "catalog.xml") w I)
    as (w0 & H0).
  rewrite (bind_ok _ _ _ _ _ H0).
  destruct (levels_single_models (Ccmi1.titles (stub_env refs files))
              (catalog_of_inst root_url) (catalog_of_model root_url) refs
              (fun url w => ccmi1_titles_stub refs files url w I)
              (refs (root_url +:+ "catalog.xml")) w0 Hall)
    as (recs & w1 & Hrun & Hrecs).
  apply bind_inv_ok in Hrun as (l1 & wa & H1 & Hrun).
  apply bind_inv_ok in Hrun as (l2 & wb & H2 & Hrun).
  injection Hrun as Hl2 Hl1 Hnx <-.
  rewrite (bind_ok _ _ _ _ _ H1), (bind_ok _ _ _ _ _ H2).
  assert (Hd : disk wb = disk w).
  { pose proof (ccmi1_titles_keeps_disk (stub_env refs files)
                  (root_url +:+ "catalog.xml") (disk w) w eq_refl) as K0.
    rewrite H0 in K0. cbn [snd] in K0.
    pose proof (models_loop_keeps _ (catalog_of_inst root_url) _
                  (fun url => ccmi1_titles_keeps_disk (stub_env refs files)
                                url (disk w))
                  (refs (root_url +:+ "catalog.xml")) w0 K0) as K1.
    rewrite H1 in K1. cbn [snd] in K1.
    pose proof (experiments_loop_keeps _ (catalog_of_model root_url) _
                  (fun url => ccmi1_titles_keeps_disk (stub_env refs files)
                                url (disk w))
                  (length (refs (root_url +:+ "catalog.xml"))) l1.1 l1.2
                  wa K1) as K2.
    rewrite H2 in K2. exact K2. }
  rewrite <- Hd in Hdir. rewrite Hl2, Hl1, Hnx.
  eexists recs, _. split; [|exact Hrecs].
  erewrite bind_ok; [reflexivity|].
  apply write_file_written; [exact Hdir | reflexivity].
Qed.

(** X19 at the archive of the end-to-end scenario. *)
Lemma ccmi1_builder_of_single_models_witness :
  exists recs w',
    Ccmi1.create_inventory_file (stub_env scenario_refs (fun _ => []))
      "inventory" "R/" empty_world
    = (Ok (PList [PList recs.*1;
                  PList [PInt (Z.of_nat
                                 (length (scenario_refs ("R/" +:+ "catalog.xml"))))];
                  PList (py_len_list
                           (replicate
                              (length (scenario_refs ("R/" +:+ "catalog.xml")))
                              1%nat));
                  PList (py_len_list recs.*2)]), w')
    /\ Forall2 (single_model_record scenario_refs (catalog_of_inst "R/")
                  (catalog_of_model "R/"))
               (scenario_refs ("R/" +:+ "catalog.xml")) recs.
Proof.
  apply (ccmi1_builder_of_single_models scenario_refs (fun _ => [])
           "inventory" "R/" empty_world).
  - repeat constructor; eexists; vm_compute; reflexivity.
  - vm_compute. discriminate.
Defined.

(** ** The FTP inventory below the experiments *)

Lemma ftp_insert_children_pairs i j rest names inv s inv' s' :
  pairs inv ->
  ftp_insert_children (i :: j :: rest) names inv s = (Ok inv', s') ->
  pairs inv'.
Proof.
  intros Hinv. unfold ftp_insert_children.
  apply (fold_each_acc pairs); [|exact Hinv].
  intros acc x w0 acc' w0' _ Hacc Hstep.
  apply bind_lift_inv_ok in Hstep as (name & _ & Hstep).
  destruct (py_update _ _ acc) as [u|] eqn:Hu; [|discriminate].
  injection Hstep as <- _. now apply py_update_pairs in Hu.
Qed.

Lemma ftp_simulations_loop_single E droot ninst inv nmdls nxpts s r s' :
  pairs inv ->
  ftp_simulations_loop E droot ninst inv nmdls nxpts s = (Ok r, s') ->
  forall ia n, (ia < ninst)%nat -> nmdls !! ia = Some n -> (n <= 1)%nat.
Proof.
  intros Hinv Hrun ia n Hia Hn. unfold ftp_simulations_loop in Hrun.
  apply bind_inv_ok in Hrun as (st & s1 & Hrun & _).
  set (P := fun st : ftp_level_state => pairs st.1.1).
  assert (Hmid : forall ia ib (st0 st1 : ftp_level_state) s0 s0',
             P st0 ->
             (fun (st : ftp_level_state) ib =>
                mdl <- lift_outcome (py_get_path st.1.1 [ia; ib; 0%nat]) ;;
                twork <- lift_outcome (py_get_path st.1.1 [ia; ib]) ;;
                ics <- lift_outcome (Ccmi2022.count_range 1 nxpts st.2.1) ;;
                st' <- fold_each ics st
                  (fun (st : ftp_level_state) ic =>
                     let '(invntry, nsims, (icnt1, icnt2)) := st in
                     expt <- lift_outcome (py_get_path twork [ic; 0%nat]) ;;
                     inst <- lift_outcome (py_str_at invntry [ia; 0%nat]) ;;
                     mdl <- lift_outcome (py_str mdl) ;;
                     expt <- lift_outcome (py_str expt) ;;
                     names <- Ftp.dirs_of E
                       (droot +:+ "/" +:+ inst +:+ "/" +:+ mdl +:+ "/"
                              +:+ expt) ;;
                     invntry' <-
                       ftp_insert_children [ia; ib; ic] names invntry ;;
                     nsims' <- lift_outcome
                       (np_set nsims icnt2 (length names)) ;;
                     ret (invntry', nsims', (icnt1, S icnt2))) ;;
                ret (st'.1, (S st'.2.1, st'.2.2))) st0 ib s0 = (Ok st1, s0') ->
             P st1 /\ (ib < 2)%nat).
  { intros ia0 ib st0 st1 s0 s0' H0 Hstep. cbv beta in Hstep.
    apply bind_lift_inv_ok in Hstep as (mdl & _ & Hstep).
    apply bind_lift_inv_ok in Hstep as (twork & Htw & Hstep).
    apply bind_lift_inv_ok in Hstep as (ics & _ & Hstep).
    apply bind_inv_ok in Hstep as (st' & s3 & Hfold & Hstep).
    injection Hstep as <- _. split.
    - revert Hfold. apply (fold_each_acc P); [|exact H0].
      intros [[inv0 ns] [c1 c2]] ic s4 acc2 s4' _ Hacc2 Hstep. unfold P in *.
      cbn [fst] in Hacc2.
      apply bind_lift_inv_ok in Hstep as (expt & _ & Hstep).
      apply bind_lift_inv_ok in Hstep as (inst & _ & Hstep).
      apply bind_lift_inv_ok in Hstep as (mdl' & _ & Hstep).
      apply bind_lift_inv_ok in Hstep as (expt' & _ & Hstep).
      apply bind_inv_ok in Hstep as (names & s5 & _ & Hstep).
      apply bind_inv_ok in Hstep as (inv1 & s6 & Hins & Hstep).
      apply bind_lift_inv_ok in Hstep as (ns' & _ & Hstep).
      injection Hstep as <- _. cbn [fst].
      now apply ftp_insert_children_pairs in Hins.
    - now apply py_get_path_pairs in Htw. }
  match type of Hrun with
  | fold_each _ _ ?body _ = _ =>
      assert (Hpres : forall acc x s0 acc' s0',
                 P acc -> body acc x s0 = (Ok acc', s0') -> P acc')
  end.
  { intros acc x s0 acc' s0' Hacc Hstep. cbv beta in Hstep.
    apply bind_lift_inv_ok in Hstep as (ibs & _ & Hstep).
    revert Hstep. apply (fold_each_acc P); [|exact Hacc].
    intros a ib s5 a' s5' _ Ha Hs. exact (proj1 (Hmid _ _ _ _ _ _ Ha Hs)). }
  pose proof (fold_each_each P _ _
    (fun acc x s0 acc' s0' _ => Hpres acc x s0 acc' s0')
    _ _ _ _
    (Hinv : P (inv, np_zeros (sum_list nxpts), (O, O)))
    Hrun) as Hall.
  rewrite Forall_forall in Hall.
  destruct (Hall ia) as (st0 & s0 & st1 & s0' & H0 & Hstep).
  { unfold py_range. apply elem_of_seq. lia. }
  apply bind_lift_inv_ok in Hstep as (ibs & Hibs & Hstep).
  unfold Ccmi2022.count_range, py_index in Hibs. rewrite Hn in Hibs.
  cbn in Hibs. injection Hibs as <-.
  pose proof (fold_each_each P _ _
    (fun a ib s5 a' s5' _ Ha Hs => proj1 (Hmid _ _ _ _ _ _ Ha Hs))
    _ _ _ _ H0 Hstep) as Hibs.
  rewrite Forall_forall in Hibs.
  destruct (decide (n <= 1)%nat) as [|Hgt]; [assumption|].
  destruct (Hibs 2%nat) as (a0 & s5 & a1 & s5' & Ha & Hs).
  { unfold py_range. apply elem_of_seq. lia. }
  apply Hmid in Hs; [lia | exact Ha].
Qed.

(** X21. The FTP script reads the models of an institution at
    [invntry[ia][ib]] too: whenever its inventory gets through the
    level of the simulations, whatever the server lists, it records at
    most one model for every institution. *)
Theorem ftp_inventory_returns_for_single_models
    (E : Ftp.server) (droot : string) (s : Ftp.session)
    (invntry : pyval) (nmdls nxpts nsims : list nat) (s' : Ftp.session) :
  ftp_inventory_to_simulations E droot s
  = (Ok (invntry, nmdls, nxpts, nsims), s') ->
  Forall (fun n => (n <= 1)%nat) nmdls.
Proof.
  intros Hrun. unfold ftp_inventory_to_simulations in Hrun.
  apply bind_inv_ok in Hrun as (instts & s1 & _ & Hrun).
  apply bind_inv_ok in Hrun as (l1 & s2 & H1 & Hrun).
  apply bind_inv_ok in Hrun as (l2 & s3 & H2 & Hrun).
  apply bind_inv_ok in Hrun as (l3 & s4 & H3 & Hrun).
  injection Hrun as _ <- _ _ _.
  apply models_loop_pairs in H1 as [Hp Hlen].
  apply experiments_loop_pairs in H2; [|exact Hp].
  apply Forall_lookup_2. intros ia n Hn.
  eapply ftp_simulations_loop_single; [exact H2 | exact H3 | | exact Hn].
  apply lookup_lt_Some in Hn. lia.
Qed.

(** X21 at an archive of one institution with one model. *)
Lemma ftp_inventory_returns_for_single_models_witness :
  Forall (fun n => (n <= 1)%nat) [1%nat].
Proof.
  apply (ftp_inventory_returns_for_single_models ftp_archive "/a" ftp_start
           (PList [PList [PStr "InstA";
                          PList [PStr "ModelA";
                                 PList [PStr "refD1";
                                        PList [PStr "r1i1p1f1"]]]]])
           [1%nat] [1%nat] [1%nat]
           (ftp_inventory_to_simulations ftp_archive "/a" ftp_start).2).
  vm_compute. reflexivity.
Defined.

(** ** What the inventory and the search leave alone *)

Ltac keeps_step :=
  first
    [ apply keeps_ret
    | apply keeps_raise
    | apply keeps_lift
    | apply keeps_map
    | apply keeps_try; [|intros]
    | apply keeps_fold_each; intros
    | apply keeps_bind; [|intros]
    | match goal with
      | |- keeps _ (match ?x with _ => _ end) => destruct x
      end ].

Section Frame.
Variable E : env.
Variable f : string.
Variable w0 : world.

Local Notation I := (only_writes f w0).

Lemma only_writes_same w w' :
  requests w' = requests w -> disk w' = disk w -> I w -> I w'.
Proof. intros Hr Hd [H1 H2]. split; [congruence|]. now rewrite Hd. Qed.

Lemma ccmi1_get_elements_frame url tag1 tag2 attribute_name :
  keeps I (Ccmi1.get_elements E url tag1 tag2 attribute_name).
Proof.
  intros w Hw.
  destruct (ccmi1_get_elements_attempts E url tag1 tag2 attribute_name w)
    as (r & k & -> & _).
  now apply (only_writes_same w).
Qed.

Lemma ccmi2022_get_elements_frame url tag1 tag2 attribute_name :
  keeps I (Ccmi2022.get_elements E url tag1 tag2 attribute_name).
Proof.
  intros w Hw.
  destruct (ccmi2022_get_elements_attempts E url tag1 tag2 attribute_name w)
    as (r & k & -> & _).
  now apply (only_writes_same w).
Qed.

Lemma write_file_frame_at content : keeps I (write_file E f content).
Proof.
  intros w [H1 H2].
  destruct (write_file E f content w) as [r w'] eqn:Hw.
  apply write_file_disk in Hw as [Hr [Hd | (c & Hd)]]; cbn [snd].
  - split; [congruence|]. now rewrite Hd.
  - split; [congruence|]. intros p Hp. rewrite Hd, lookup_insert_ne by congruence.
    now apply H2.
Qed.

Lemma note_caught_frame site : keeps I (modify (note_caught site)).
Proof. apply keeps_modify. intros w Hw. now apply (only_writes_same w). Qed.

Lemma ccmi1_create_inventory_file_frame root_url :
  keeps I (Ccmi1.create_inventory_file E f root_url).
Proof.
  unfold Ccmi1.create_inventory_file, Ccmi1.titles.
  apply keeps_bind; [apply ccmi1_get_elements_frame | intros instts].
  apply keeps_bind.
  { apply models_loop_keeps. intros url. apply ccmi1_get_elements_frame. }
  intros l1. apply keeps_bind.
  { apply experiments_loop_keeps. intros url. apply ccmi1_get_elements_frame. }
  intros l2. apply keeps_bind; [apply write_file_frame_at|].
  intros _. apply keeps_ret.
Qed.

Lemma insert_children_frame path names inv :
  keeps I (Ccmi2022.insert_children path names inv).
Proof. unfold Ccmi2022.insert_children. repeat keeps_step. Qed.

Lemma insert_variables_frame path varbls inv :
  keeps I (Ccmi2022.insert_variables path varbls inv).
Proof. unfold Ccmi2022.insert_variables. repeat keeps_step. Qed.

Lemma ccmi2022_create_inventory_file_frame root_url :
  keeps I (Ccmi2022.create_inventory_file E f root_url).
Proof.
  unfold Ccmi2022.create_inventory_file, Ccmi2022.titles.
  apply keeps_bind; [apply ccmi2022_get_elements_frame | intros instts].
  apply keeps_bind.
  { apply models_loop_keeps. intros url. apply ccmi2022_get_elements_frame. }
  intros l1. apply keeps_bind.
  { apply experiments_loop_keeps. intros url.
    apply ccmi2022_get_elements_frame. }
  intros l2. apply keeps_bind.
  { unfold Ccmi2022.simulations_loop, Ccmi2022.titles.
    repeat first [ apply ccmi2022_get_elements_frame
                 | apply insert_children_frame | keeps_step ]. }
  intros l3. apply keeps_bind.
  { unfold Ccmi2022.tables_loop, Ccmi2022.titles.
    repeat first [ apply ccmi2022_get_elements_frame
                 | apply insert_children_frame | keeps_step ]. }
  intros l4. apply keeps_bind.
  { unfold Ccmi2022.variables_loop, Ccmi2022.titles.
    repeat first [ apply ccmi2022_get_elements_frame
                 | apply insert_variables_frame | keeps_step ]. }
  intros l5. apply keeps_bind; [apply write_file_frame_at|].
  intros _. apply keeps_ret.
Qed.
End Frame.

Section SearchFrame.
Variable E : env.
Variable w0 : world.

Lemma ccmi1_search_frame root_url trgexpt trgvar trgfreq trgrealm trgfreqname :
  keeps (only_writes Ccmi1.searchfile w0)
    (Ccmi1.search_inventory_ccmi1 E root_url trgexpt trgvar trgfreq trgrealm
       trgfreqname).
Proof.
  unfold Ccmi1.search_inventory_ccmi1, Ccmi1.search_institution,
    Ccmi1.search_experiment, Ccmi1.search_ensembles, Ccmi1.search_versions,
    Ccmi1.search_variables, Ccmi1.guarded, Ccmi1.titles.
  repeat first [ apply ccmi1_get_elements_frame
               | apply write_file_frame_at
               | apply note_caught_frame
               | keeps_step ].
Qed.

Lemma write_log_frame flist :
  keeps (only_writes Ccmi2022.searchfile w0) (Ccmi2022.write_log E flist).
Proof.
  destruct flist as [v|].
  - apply (write_file_frame_at E Ccmi2022.searchfile w0 (pformat v)).
  - intros w [H1 H2]. unfold Ccmi2022.write_log, bind, open_for_writing.
    destruct (disk w !! Ccmi2022.searchfile) as [[bytes|]|];
      try (split; assumption);
      destruct (os_write E (disk w) Ccmi2022.searchfile);
      try (split; assumption);
      (split; [exact H1|]; intros p Hp; cbn;
       rewrite lookup_insert_ne by congruence; now apply H2).
Qed.

Lemma insert_files_frame ii files flist :
  keeps (only_writes Ccmi2022.searchfile w0)
    (Ccmi2022.insert_files ii files flist).
Proof. unfold Ccmi2022.insert_files. repeat keeps_step. Qed.

Lemma ccmi2022_search_frame root_url fullinvntry trgexpt trgxvar trgtble :
  keeps (only_writes Ccmi2022.searchfile w0)
    (Ccmi2022.search_inventory E root_url fullinvntry trgexpt trgxvar
       trgtble).
Proof.
  unfold Ccmi2022.search_inventory, Ccmi2022.search_targets,
    Ccmi2022.search_loops, Ccmi2022.collect_files, Ccmi2022.titles.
  repeat first [ apply ccmi2022_get_elements_frame
               | apply write_log_frame
               | apply insert_files_frame
               | keeps_step ].
Qed.
End SearchFrame.

Lemma only_writes_refl f w : only_writes f w w.
Proof. split; [reflexivity | intros; reflexivity]. Qed.

(** X22. Building the inventory and searching never ask for a download
    and change no file of the disk but their own, the inventory file
    and the search log, whatever the servers answer and whether they
    return or raise, in both catalog scripts. *)
Theorem inventory_and_search_write_only_their_file :
  (forall (E : env) (inventory_file root_url : string) (w : world),
      only_writes inventory_file w
        (Ccmi1.create_inventory_file E inventory_file root_url w).2
      /\ only_writes inventory_file w
           (Ccmi2022.create_inventory_file E inventory_file root_url w).2)
  /\ (forall (E : env) (root_url : string) (trgexpt trgvar : list string)
             (trgfreq trgrealm trgfreqname : string) (w : world),
        only_writes Ccmi1.searchfile w
          (Ccmi1.search_inventory_ccmi1 E root_url trgexpt trgvar trgfreq
             trgrealm trgfreqname w).2)
  /\ (forall (E : env) (root_url : string) (fullinvntry : pyval)
             (trgexpt trgxvar trgtble : list string) (w : world),
        only_writes Ccmi2022.searchfile w
          (Ccmi2022.search_inventory E root_url fullinvntry trgexpt trgxvar
             trgtble w).2).
Proof.
  split; [|split].
  - intros E inventory_file root_url w. split.
    + apply ccmi1_create_inventory_file_frame, only_writes_refl.
    + apply ccmi2022_create_inventory_file_frame, only_writes_refl.
  - intros. apply ccmi1_search_frame, only_writes_refl.
  - intros. apply ccmi2022_search_frame, only_writes_refl.
Qed.

(** ** What the FTP inventory sends *)

Section FtpFrame.
Variable E : Ftp.server.
Variable s0 : Ftp.session.

Local Notation I := (only_lists s0).

Lemma dirs_of_frame path : keeps I (Ftp.dirs_of E path).
Proof.
  intros s (Hl & new & Hs & Hnew).
  unfold Ftp.dirs_of, bind, Ftp.ftp_cwd, Ftp.ftp_names.
  destruct (Ftp.enterable E (Ftp.target (Ftp.cwd s) path)); cbn.
  - split; [exact Hl|].
    exists (new ++ [Ftp.CWD (Ftp.target (Ftp.cwd s) path);
                    Ftp.MLSD (Ftp.target (Ftp.cwd s) path)]).
    rewrite Hs, <- !app_assoc. split; [reflexivity|].
    apply Forall_app. split; [exact Hnew | repeat constructor].
  - split; [exact Hl|].
    exists (new ++ [Ftp.CWD (Ftp.target (Ftp.cwd s) path)]).
    rewrite Hs, <- !app_assoc. split; [reflexivity|].
    apply Forall_app. split; [exact Hnew | repeat constructor].
Qed.

Lemma ftp_inventory_frame droot :
  keeps I (ftp_inventory_to_simulations E droot).
Proof.
  unfold ftp_inventory_to_simulations.
  apply keeps_bind; [apply dirs_of_frame | intros instts].
  apply keeps_bind.
  { apply models_loop_keeps. intros url. apply dirs_of_frame. }
  intros l1. apply keeps_bind.
  { apply experiments_loop_keeps. intros url. apply dirs_of_frame. }
  intros l2. apply keeps_bind; [|intros; apply keeps_ret].
  unfold ftp_simulations_loop, ftp_insert_children.
  repeat first [ apply dirs_of_frame | keeps_step ].
Qed.
End FtpFrame.

(** X23. The inventory of the FTP script, down to the simulations,
    only changes directory and lists: it sends no [RETR] and creates no
    local file, whatever the server answers. *)
Theorem ftp_inventory_only_lists
    (E : Ftp.server) (droot : string) (s : Ftp.session) :
  only_lists s (ftp_inventory_to_simulations E droot s).2.
Proof.
  apply ftp_inventory_frame. split; [reflexivity|].
  exists []. split; [now rewrite app_nil_r | constructor].
Qed.

(** ** From the search to the download list *)

Lemma found_list_file_list flist :
  found_list flist -> exists filelist, Ccmi2022.file_list flist = Ok filelist.
Proof.
  intros (entries & -> & Hall). unfold Ccmi2022.file_list.
  assert (H : exists ls,
             traverse
               (fun fentry =>
                  obind (py_getitem fentry 1) (fun fs =>
                  match fs with
                  | PList l => traverse py_str l
                  | _ => Raise TypeError
                  end)) entries = Ok ls).
  { induction Hall as [|e es (name & fs & ->) _ (ls & IH)].
    - now exists [].
    - exists (fs :: ls). cbn [traverse py_getitem py_index lookup list_lookup
                               obind].
      now rewrite traverse_py_str, IH. }
  destruct H as (ls & ->). now eexists.
Qed.

Lemma insert_files_found ii files flist w flist' w' :
  found_list flist ->
  Ccmi2022.insert_files ii files flist w = (Ok flist', w') ->
  found_list flist'.
Proof.
  intros (entries & -> & Hall) H.
  destruct (entries !! ii) as [e|] eqn:He.
  - destruct (Forall_lookup_1 _ _ _ _ Hall He) as (name & fs & ->).
    unfold Ccmi2022.insert_files, py_range in H. rewrite Nat.sub_0_r in H.
    rewrite (insert_files_from ii name (take 1 (PStr <$> fs))
               (drop 1 (PStr <$> fs)) files) with (done := []) in H.
    + injection H as <- _. eexists. split; [reflexivity|].
      apply Forall_insert; [exact Hall|].
      exists name, (take 1 fs ++ files ++ drop 1 fs).
      now rewrite !fmap_app, fmap_take, fmap_drop.
    + destruct fs as [|a fs]; [right; split; reflexivity | left; reflexivity].
    + reflexivity.
    + cbn [fmap list_fmap app]. now rewrite take_drop.
  - destruct files as [|f0 files].
    + cbn in H. injection H as <- _. now exists entries.
    + unfold Ccmi2022.insert_files in H.
      cbn [length py_range Nat.sub seq fold_each] in H.
      apply bind_inv_ok in H as (x & w1 & H & _).
      cbn [py_index lookup list_lookup lift_outcome] in H.
      rewrite bind_ret in H. cbn [py_update] in H. rewrite He in H.
      discriminate.
Qed.

Lemma collect_files_found E root_url inv ii ij ik il im ip flist w flist' w' :
  found_list flist ->
  Ccmi2022.collect_files E root_url inv ii ij ik il im ip flist w
  = (Ok flist', w') ->
  found_list flist'.
Proof.
  intros Hf H. unfold Ccmi2022.collect_files in H.
  do 6 (apply bind_lift_inv_ok in H as (? & _ & H)).
  apply bind_inv_ok in H as (ldirs & w1 & _ & H).
  apply bind_lift_inv_ok in H as (grid & _ & H).
  apply bind_inv_ok in H as (vers & w2 & _ & H).
  apply bind_lift_inv_ok in H as (vertrg & _ & H).
  apply bind_inv_ok in H as (files & w3 & _ & H).
  now apply insert_files_found in H.
Qed.

Lemma search_loops_found E root_url inv trgexpt trgxvar trgtble iis flist w
    flist' w' :
  found_list flist ->
  Ccmi2022.search_loops E root_url inv trgexpt trgxvar trgtble iis flist w
  = (Ok flist', w') ->
  found_list flist'.
Proof.
  intros Hf H. unfold Ccmi2022.search_loops in H.
  apply bind_inv_ok in H as (r & w1 & H & Hret). injection Hret as <- _.
  set (P := fun st : Ccmi2022.search_state => found_list st.1).
  revert H. apply (fold_each_acc P); [|exact Hf].
  intros st ii w2 st' w2' _ Hst H.
  apply bind_lift_inv_ok in H as (ijs & _ & H).
  revert H. apply (fold_each_acc P); [|exact Hst].
  clear st st' Hst w2 w2'. intros st ij w2 st' w2' _ Hst H.
  apply bind_lift_inv_ok in H as (? & _ & H).
  apply bind_lift_inv_ok in H as (iks & _ & H).
  apply bind_inv_ok in H as (st1 & w3 & H & Hret). injection Hret as <- _.
  revert H. apply (fold_each_acc P); [|exact Hst].
  clear st Hst w2. intros st ik w2 st' w4 _ Hst H.
  apply bind_lift_inv_ok in H as (expt & _ & H).
  apply bind_lift_inv_ok in H as (ils & _ & H).
  apply bind_inv_ok in H as (st2 & w5 & H & Hret). injection Hret as <- _.
  revert H. apply (fold_each_acc P); [|exact Hst].
  clear st Hst w2. intros st il w2 st' w6 _ Hst H.
  apply bind_lift_inv_ok in H as (? & _ & H).
  apply bind_lift_inv_ok in H as (ims & _ & H).
  apply bind_inv_ok in H as (st3 & w7 & H & Hret). injection Hret as <- _.
  revert H. apply (fold_each_acc P); [|exact Hst].
  clear st Hst w2. intros st im w2 st' w8 _ Hst H.
  apply bind_lift_inv_ok in H as (mtab & _ & H).
  apply bind_lift_inv_ok in H as (ips & _ & H).
  apply bind_inv_ok in H as (fl & w9 & H & Hret). injection Hret as <- _.
  revert H. apply (fold_each_acc found_list); [|exact Hst].
  intros fl0 ip w10 fl1 w11 _ Hfl H.
  apply bind_lift_inv_ok in H as (xvar & _ & H).
  destruct (py_in expt trgexpt && py_in mtab trgtble && py_in xvar trgxvar).
  - now apply collect_files_found in H.
  - now injection H as <- _.
Qed.

(** X24. The list that the CCMI-2022 search returns is always one the
    download list can be made of: every entry is [[inst, [file, ...]]]
    with strings for files, so the loop [filelist += fentry[1]] returns
    a list of file paths. *)
Theorem search_result_feeds_the_download
    (E : env) (root_url : string) (fullinvntry : pyval)
    (trgexpt trgxvar trgtble : list string) (w : world) (flist : pyval)
    (w' : world) :
  Ccmi2022.search_inventory E root_url fullinvntry trgexpt trgxvar trgtble w
  = (Ok flist, w') ->
  found_list flist
  /\ exists filelist, Ccmi2022.file_list flist = Ok filelist.
Proof.
  intros H.
  assert (Hf : found_list flist); [|split; [exact Hf|]].
  - unfold Ccmi2022.search_inventory in H.
    apply bind_lift_inv_ok in H as (inv & _ & H).
    apply bind_inv_ok in H as (fl & w1 & Hs & H).
    apply bind_inv_ok in H as (u & w2 & _ & H).
    destruct fl as [v|]; [|discriminate]. injection H as <- _.
    destruct trgexpt as [|x xs] eqn:Hx; [discriminate|]. rewrite <- Hx in Hs.
    unfold io_map in Hs. apply bind_inv_ok in Hs as (v' & w3 & Hs & Hret).
    injection Hret as <- _.
    unfold Ccmi2022.search_targets in Hs.
    apply bind_lift_inv_ok in Hs as (iis & _ & Hs).
    apply bind_inv_ok in Hs as (flist0 & w4 & H0 & Hs).
    apply search_loops_found in Hs; [exact Hs|].
    revert H0. apply (fold_each_acc found_list).
    + intros acc ii w5 acc' w5' _ (entries & -> & Hall) Hstep.
      apply bind_lift_inv_ok in Hstep as (inst & _ & Hstep).
      cbn in Hstep. injection Hstep as <- _.
      eexists. split; [reflexivity|]. apply Forall_app. split; [exact Hall|].
      repeat constructor. now exists inst, [].
    + exists []. split; [reflexivity | constructor].
  - now apply found_list_file_list.
Qed.

(** X24 on the archive of three versions: the search finds the two
    files of the latest one. *)
Lemma search_result_feeds_the_download_witness :
  found_list (PList [PList [PStr "I"; PList [PStr "a.nc"; PStr "b.nc"]]])
  /\ exists filelist,
       Ccmi2022.file_list
         (PList [PList [PStr "I"; PList [PStr "a.nc"; PStr "b.nc"]]])
       = Ok filelist.
Proof.
  apply (search_result_feeds_the_download dated_archive "R/" dated_inventory
           ["refD1"] ["h2o"] ["AmonZ"] empty_world
           (PList [PList [PStr "I"; PList [PStr "a.nc"; PStr "b.nc"]]])
           (Ccmi2022.search_inventory dated_archive "R/" dated_inventory
              ["refD1"] ["h2o"] ["AmonZ"] empty_world).2).
  vm_compute. reflexivity.
Defined.

(** ** The files a live search reports *)

Lemma try_except_inv_ok {W A} (body : io W A) handler w a w' :
  try_except body handler w = (Ok a, w') ->
  body w = (Ok a, w')
  \/ exists e w1, body w = (Raise e, w1) /\ handler e w1 = (Ok a, w').
Proof.
  unfold try_except. destruct (body w) as [[x|e] w1]; intros H.
  - now left.
  - right. now exists e, w1.
Qed.

Section LiveResults.
Variable E : env.

Lemma ccmi1_files_listed url w l w' :
  Ccmi1.get_elements E url default_dataset default_dataset urlPath w
  = (Ok l, w') ->
  Forall (listed_file E) l.
Proof.
  unfold Ccmi1.get_elements. intros H.
  apply bind_inv_ok in H as (u & w1 & _ & H).
  apply bind_inv_ok in H as (r & w2 & Hr & H).
  destruct r as [result|[[|root|]|]]; [| | |discriminate|].
  - injection H as <- _.
    assert (Hres : forall ntries w0 res w0',
               Ccmi1.retry_loop E ntries url w0 = (Ok (Returned res), w0') ->
               res = []).
    { induction ntries as [|ntry ntries IH]; intros w0 res w0' H0;
        cbn [Ccmi1.retry_loop] in H0; [discriminate|].
      unfold bind at 1, do_urlopen in H0.
      destruct (urlopen E (opened w0) url).
      - discriminate.
      - destruct (ntry =? 4)%nat; [now injection H0 as <- | now apply IH in H0].
      - now injection H0 as <-.
      - discriminate. }
    apply Hres in Hr as ->. constructor.
  - injection H as <- _. constructor.
  - injection H as <- _. apply ccmi1_retry_loop_body in Hr as (history & Hh).
    apply Forall_forall. intros file Hfile. now exists history, url, root.
  - injection H as <- _. constructor.
Qed.

Lemma search_variables_listed root_url var_path trgvar variables found w
    found' w' :
  Forall (listed_file E) found ->
  Ccmi1.search_variables E root_url var_path trgvar variables found w
  = (Ok found', w') ->
  Forall (listed_file E) found'.
Proof.
  intros Hf. unfold Ccmi1.search_variables.
  apply (fold_each_acc (Forall (listed_file E))); [|exact Hf].
  intros acc var w0 acc' w0' _ Hacc H.
  destruct (Ccmi1.member var variables); [|now injection H as <- _].
  apply try_except_inv_ok in H as [H | (e & w1 & _ & H)].
  - apply bind_inv_ok in H as (files & w1 & Hfiles & H).
    injection H as <- _. apply Forall_app. split; [exact Hacc|].
    now apply ccmi1_files_listed in Hfiles.
  - cbn in H. now injection H as <- _.
Qed.

Lemma search_versions_listed root_url version_path trgvar versions found w
    found' w' :
  Forall (listed_file E) found ->
  Ccmi1.search_versions E root_url version_path trgvar versions found w
  = (Ok found', w') ->
  Forall (listed_file E) found'.
Proof.
  intros Hf. unfold Ccmi1.search_versions.
  apply (fold_each_acc (Forall (listed_file E))); [|exact Hf].
  intros acc version w0 acc' w0' _ Hacc H.
  apply bind_inv_ok in H as ([variables|] & w1 & _ & H).
  - now apply search_variables_listed in H.
  - now injection H as <- _.
Qed.

Lemma search_ensembles_listed root_url ensemble_path trgvar ensembles found w
    found' w' :
  Forall (listed_file E) found ->
  Ccmi1.search_ensembles E root_url ensemble_path trgvar ensembles found w
  = (Ok found', w') ->
  Forall (listed_file E) found'.
Proof.
  intros Hf. unfold Ccmi1.search_ensembles.
  apply (fold_each_acc (Forall (listed_file E))); [|exact Hf].
  intros acc ensemble w0 acc' w0' _ Hacc H.
  apply bind_inv_ok in H as ([versions|] & w1 & _ & H).
  - now apply search_versions_listed in H.
  - now injection H as <- _.
Qed.

Lemma search_experiment_listed root_url trgvar trgfreq trgrealm trgfreqname
    inst model found expt w found' w' :
  Forall (listed_file E) found ->
  Ccmi1.search_experiment E root_url trgvar trgfreq trgrealm trgfreqname inst
    model found expt w = (Ok found', w') ->
  Forall (listed_file E) found'.
Proof.
  intros Hf H. unfold Ccmi1.search_experiment in H.
  apply bind_inv_ok in H as ([[]|] & w1 & _ & H); [|now injection H as <- _].
  apply bind_inv_ok in H as ([[]|] & w2 & _ & H); [|now injection H as <- _].
  apply bind_inv_ok in H as ([ensembles|] & w3 & _ & H);
    [|now injection H as <- _].
  now apply search_ensembles_listed in H.
Qed.
End LiveResults.

(** X25. The live search reports no file that no catalog listed: every
    path of the list it returns is the [urlPath] of a data set in a
    catalog that the server sent. *)
Theorem live_search_reports_listed_files
    (E : env) (root_url : string) (trgexpt trgvar : list string)
    (trgfreq trgrealm trgfreqname : string) (w : world)
    (found_files : list string) (w' : world) :
  Ccmi1.search_inventory_ccmi1 E root_url trgexpt trgvar trgfreq trgrealm
    trgfreqname w = (Ok found_files, w') ->
  Forall (listed_file E) found_files.
Proof.
  intros H. unfold Ccmi1.search_inventory_ccmi1 in H.
  apply bind_inv_ok in H as (instts & w1 & _ & H).
  apply bind_inv_ok in H as (found & w2 & Hs & H).
  apply bind_inv_ok in H as (u & w3 & _ & H). injection H as <- _.
  revert Hs. apply (fold_each_acc (Forall (listed_file E))); [|constructor].
  intros acc inst w4 acc' w4' _ Hacc H. unfold Ccmi1.search_institution in H.
  apply bind_inv_ok in H as ([models|] & w5 & _ & H);
    [|now injection H as <- _].
  revert H. apply (fold_each_acc (Forall (listed_file E))); [|exact Hacc].
  intros acc1 model w6 acc1' w6' _ Hacc1.
  apply (fold_each_acc (Forall (listed_file E))); [|exact Hacc1].
  intros acc2 expt w7 acc2' w7' _ Hacc2 H.
  now apply search_experiment_listed in H.
Qed.

(** X25 on the archive of two versions. *)
Lemma live_search_reports_listed_files_witness :
  Forall (listed_file versions_archive) ["old.nc"; "new.nc"].
Proof.
  apply (live_search_reports_listed_files versions_archive "R/" ["refC1"]
           ["zmcly"] "mon" "atmos" "monthly" empty_world ["old.nc"; "new.nc"]
           (Ccmi1.search_inventory_ccmi1 versions_archive "R/" ["refC1"]
              ["zmcly"] "mon" "atmos" "monthly" empty_world).2).
  vm_compute. reflexivity.
Defined.

(** ** The requests of a download loop *)

Section Requests.
Variable E : env.
Variable downloaddir : string.
Variable prepare : string -> io world string.
Variable fetch : string -> string -> io world unit.
Hypothesis prepare_spec : forall afile w r w',
  prepare afile w = (r, w') ->
  requests w' = requests w /\ disk w ⊆ disk w'
  /\ (forall d, r = Ok d -> destination downloaddir afile = Ok d).
Hypothesis fetch_spec : forall fileURL destfile w,
  exists w', fetch fileURL destfile w = (Ok tt, w')
             /\ fetched E fileURL destfile w w'.

Lemma download_body_requests ow vb afile w :
  requests (download_body prepare fetch ow vb afile w).2 = requests w
  \/ (exists w',
        download_body prepare fetch ow vb afile w = (Ok tt, w')
        /\ requests w' = requests w ++ [file_url afile]).
Proof.
  destruct (download_body_step E prepare fetch fetch_spec ow vb afile w)
    as [(e & w' & Hp & ->) | (d & w1 & w' & Hp & -> & Hcase)];
    apply prepare_spec in Hp as (Hr1 & _ & _); cbn [snd].
  - now left.
  - destruct Hcase as [(_ & Hr & _) | (_ & w2 & Hr2 & _ & Hr & _)].
    + left. congruence.
    + right. exists w'. split; [reflexivity|]. congruence.
Qed.

Lemma download_loop_requests ow vb filelist :
  forall w,
    exists new,
      requests (for_each filelist (download_body prepare fetch ow vb) w).2
      = requests w ++ new
      /\ sublist new (file_url <$> filelist).
Proof.
  induction filelist as [|a rest IH]; intros w.
  - exists []. split; [now rewrite app_nil_r | constructor].
  - cbn [for_each fmap list_fmap]. unfold bind.
    destruct (download_body_requests ow vb a w) as [Hsame | (w1 & Hrun & Hr)].
    + destruct (download_body prepare fetch ow vb a w) as [[[]|e] w1];
        cbn [snd] in Hsame.
      * destruct (IH w1) as (new & Hnew & Hsub). exists new.
        rewrite Hnew, Hsame. split; [reflexivity | now constructor].
      * exists []. cbn [snd]. rewrite Hsame, app_nil_r.
        split; [reflexivity | apply sublist_nil_l].
    + rewrite Hrun. destruct (IH w1) as (new & Hnew & Hsub).
      exists (file_url a :: new). rewrite Hnew, Hr, <- app_assoc.
      split; [reflexivity | now constructor].
Qed.
End Requests.

(** X26. A download loop asks for nothing but files of its list: the
    requests it adds are, in the order of the list and at most one for
    each entry, at [https://dap.ceda.ac.uk/] followed by the path of the
    entry, whether overwriting is enabled or not and whether the loop
    returns or raises, in either catalog script. *)
Theorem download_requests_come_from_the_list
    (E : env) (downloaddir : string) (OverwriteExistingFile verbose : bool)
    (filelist : list string) (w : world) :
  (exists new,
      requests (Ccmi1.download E downloaddir OverwriteExistingFile verbose
                  filelist w).2 = requests w ++ new
      /\ sublist new (file_url <$> filelist))
  /\ (exists new,
        requests (Ccmi2022.download E downloaddir OverwriteExistingFile verbose
                    filelist w).2 = requests w ++ new
        /\ sublist new (file_url <$> filelist)).
Proof.
  split.
  - apply (download_loop_requests E downloaddir (Ccmi1.prepare E downloaddir)
             (Ccmi1.fetch E)).
    + intros a w0 r w0'. apply ccmi1_prepare_spec.
    + intros u d w0. apply ccmi1_fetch_spec.
  - apply (download_loop_requests E downloaddir (Ccmi2022.prepare downloaddir)
             (Ccmi2022.fetch E)).
    + intros a w0 r w0'. apply ccmi2022_prepare_spec.
    + intros u d w0. apply ccmi2022_fetch_spec.
Qed.

(** * The builders as a whole and the live search

    The properties of this part rest on the lemmas of the two parts
    above. *)

(** ** The builders beyond the second level *)

Lemma np_set_length a i v a' : np_set a i v = Ok a' -> length a' = length a.
Proof.
  unfold np_set. case_bool_decide; [|discriminate].
  intros [= <-]. apply length_insert.
Qed.

Lemma experiments_loop_length {W} (titles : string -> io W (list string))
    of_model ninst inv nmdls w r w' :
  experiments_loop titles of_model ninst inv nmdls w = (Ok r, w') ->
  length r.2 = sum_list nmdls.
Proof.
  intros Hrun. unfold experiments_loop in Hrun.
  apply bind_inv_ok in Hrun as (st & w1 & Hrun & Hret).
  injection Hret as <- _. cbn [snd].
  set (P := fun st : pyval * list nat * nat => length st.1.2 = sum_list nmdls).
  revert Hrun. apply (fold_each_acc P).
  2:{ unfold P, np_zeros. cbn. apply length_replicate. }
  intros acc ii w0 acc' w0' _ Hacc Hstep.
  unfold experiments_of_institution in Hstep.
  apply bind_lift_inv_ok in Hstep as (twork & _ & Hstep).
  apply bind_lift_inv_ok in Hstep as (n & _ & Hstep).
  revert Hstep. apply (fold_each_acc P); [|exact Hacc].
  intros [[inv0 nx] c] ij w2 acc2 w2' _ Hacc2 Hstep. unfold P in *.
  cbn [fst snd] in Hacc2.
  unfold experiments_of_model in Hstep.
  do 5 (apply bind_lift_inv_ok in Hstep as (? & _ & Hstep)).
  apply bind_inv_ok in Hstep as (expname & w3 & _ & Hstep).
  apply bind_inv_ok in Hstep as (inv1 & y4 & _ & Hstep).
  apply bind_lift_inv_ok in Hstep as (nx' & Hset & Hstep).
  injection Hstep as <- _. cbn [fst snd].
  apply np_set_length in Hset. congruence.
Qed.

(** One step into a loop of a level: the pure bindings before it are
    passed, and a nested loop is entered with the same invariant. *)
Ltac enter_level P Hacc :=
  repeat match goal with
    | H : bind (lift_outcome _) _ _ = (Ok _, _) |- _ =>
        apply bind_lift_inv_ok in H as (? & _ & H)
    end;
  match goal with
  | H : bind (fold_each _ _ _) _ _ = (Ok _, _) |- _ =>
      let st := fresh "st" in
      let w := fresh "w" in
      let Hfold := fresh "Hfold" in
      apply bind_inv_ok in H as (st & w & Hfold & H);
      injection H as <- _; revert Hfold;
      apply (fold_each_acc P); [|exact Hacc]
  | H : fold_each _ _ _ _ = (Ok _, _) |- _ =>
      revert H; apply (fold_each_acc P); [|exact Hacc]
  end.

Lemma simulations_loop_length E root_url ninst inv nmdls nxpts w r w' :
  Ccmi2022.simulations_loop E root_url ninst inv nmdls nxpts w = (Ok r, w') ->
  length r.2 = sum_list nxpts.
Proof.
  intros Hrun. unfold Ccmi2022.simulations_loop in Hrun.
  set (P := fun st : Ccmi2022.level_state => length st.1.2 = sum_list nxpts).
  assert (H0 : P (inv, np_zeros (sum_list nxpts), Ccmi2022.Cursor 0 0 0 0))
    by apply length_replicate.
  enter_level P H0.
  intros a1 ii u1 b1 v1 _ H1 Hstep. enter_level P H1.
  intros a2 ij u2 b2 v2 _ H2 Hstep. enter_level P H2.
  intros [[inv0 ns] c] ik u3 b3 v3 _ H3 Hstep.
  unfold P in *. cbn [fst snd] in H3.
  do 3 (apply bind_lift_inv_ok in Hstep as (? & _ & Hstep)).
  apply bind_inv_ok in Hstep as (sims & y3 & _ & Hstep).
  apply bind_inv_ok in Hstep as (inv1 & y4 & _ & Hstep).
  apply bind_lift_inv_ok in Hstep as (ns' & Hset & Hstep).
  injection Hstep as <- _. cbn [fst snd].
  apply np_set_length in Hset. congruence.
Qed.

Lemma tables_loop_length E root_url ninst inv nmdls nxpts nsims w r w' :
  Ccmi2022.tables_loop E root_url ninst inv nmdls nxpts nsims w = (Ok r, w') ->
  length r.2 = sum_list nsims.
Proof.
  intros Hrun. unfold Ccmi2022.tables_loop in Hrun.
  set (P := fun st : Ccmi2022.level_state => length st.1.2 = sum_list nsims).
  assert (H0 : P (inv, np_zeros (sum_list nsims), Ccmi2022.Cursor 0 0 0 0))
    by apply length_replicate.
  enter_level P H0.
  intros a1 ii u1 b1 v1 _ H1 Hstep. enter_level P H1.
  intros a2 ij u2 b2 v2 _ H2 Hstep. enter_level P H2.
  intros a3 ik u3 b3 v3 _ H3 Hstep. enter_level P H3.
  intros [[inv0 ns] c] il u4 b4 v4 _ H4 Hstep.
  unfold P in *. cbn [fst snd] in H4.
  do 4 (apply bind_lift_inv_ok in Hstep as (? & _ & Hstep)).
  apply bind_inv_ok in Hstep as (tables & y3 & _ & Hstep).
  apply bind_inv_ok in Hstep as (inv1 & y4 & _ & Hstep).
  apply bind_lift_inv_ok in Hstep as (ns' & Hset & Hstep).
  injection Hstep as <- _. cbn [fst snd].
  apply np_set_length in Hset. congruence.
Qed.

Lemma variables_loop_length E root_url ninst inv nmdls nxpts nsims ntabs w r
    w' :
  Ccmi2022.variables_loop E root_url ninst inv nmdls nxpts nsims ntabs w
  = (Ok r, w') ->
  length r.2 = sum_list ntabs.
Proof.
  intros Hrun. unfold Ccmi2022.variables_loop in Hrun.
  set (P := fun st : Ccmi2022.level_state => length st.1.2 = sum_list ntabs).
  assert (H0 : P (inv, np_zeros (sum_list ntabs), Ccmi2022.Cursor 0 0 0 0))
    by apply length_replicate.
  enter_level P H0.
  intros a1 ii u1 b1 v1 _ H1 Hstep. enter_level P H1.
  intros a2 ij u2 b2 v2 _ H2 Hstep. enter_level P H2.
  intros a3 ik u3 b3 v3 _ H3 Hstep. enter_level P H3.
  intros a4 il u4 b4 v4 _ H4 Hstep. enter_level P H4.
  intros [[inv0 ns] c] im u5 b5 v5 _ H5 Hstep.
  unfold P in *. cbn [fst snd] in H5.
  do 5 (apply bind_lift_inv_ok in Hstep as (? & _ & Hstep)).
  apply bind_inv_ok in Hstep as (varbls & y3 & _ & Hstep).
  apply bind_inv_ok in Hstep as (inv1 & y4 & _ & Hstep).
  apply bind_lift_inv_ok in Hstep as (ns' & Hset & Hstep).
  injection Hstep as <- _. cbn [fst snd].
  apply np_set_length in Hset. congruence.
Qed.

Lemma ccmi2022_titles_keeps_disk E url d :
  keeps (fun w => disk w = d) (Ccmi2022.titles E url).
Proof.
  intros w Hw. unfold Ccmi2022.titles.
  destruct (ccmi2022_get_elements_attempts E url default_dataset
              default_catalogRef xlink_title w) as (r & k & -> & _).
  exact Hw.
Qed.

Lemma simulations_loop_keeps_disk E root_url ninst inv nmdls nxpts d :
  keeps (fun w => disk w = d)
    (Ccmi2022.simulations_loop E root_url ninst inv nmdls nxpts).
Proof.
  unfold Ccmi2022.simulations_loop, Ccmi2022.insert_children.
  repeat first [ apply ccmi2022_titles_keeps_disk | keeps_step ].
Qed.

(** Over a lister stub with an institution of two models or more, the
    CCMI-2022 builder raises at the level of the simulations, before it
    writes. *)
Lemma ccmi2022_builder_second_model refs files inventory_file root_url w inst :
  inst ∈ refs (root_url +:+ "catalog.xml") ->
  (2 <= length (refs (catalog_of_inst root_url inst)))%nat ->
  exists e w',
    Ccmi2022.create_inventory_file (stub_env refs files) inventory_file
      root_url w = (Raise e, w')
    /\ disk w' = disk w.
Proof.
  intros Hin Htwo. unfold Ccmi2022.create_inventory_file.
  set (E := stub_env refs files).
  destruct (ccmi2022_titles_stub refs files (root_url +:+ "catalog.xml") w I)
    as (w0 & H0).
  fold E in H0. rewrite (bind_ok _ _ _ _ _ H0).
  destruct (levels_spec (Ccmi2022.titles E) (catalog_of_inst root_url)
              (catalog_of_model root_url) refs (fun _ => True)
              (ccmi2022_titles_stub refs files) (fun _ => I) (fun _ _ => I)
              (refs (root_url +:+ "catalog.xml")) w0)
    as (invntry & nmdls & nxpts & w1 & Hrun & Hrec).
  apply bind_inv_ok in Hrun as (l1 & wa & H1 & Hrun).
  apply bind_inv_ok in Hrun as (l2 & wb & H2 & Hrun).
  injection Hrun as <- <- <- <-.
  rewrite (bind_ok _ _ _ _ _ H1), (bind_ok _ _ _ _ _ H2).
  assert (Hd : disk wb = disk w).
  { pose proof (ccmi2022_titles_keeps_disk E (root_url +:+ "catalog.xml")
                  (disk w) w eq_refl) as K0.
    rewrite H0 in K0. cbn [snd] in K0.
    pose proof (models_loop_keeps _ (catalog_of_inst root_url) _
                  (fun url => ccmi2022_titles_keeps_disk E url (disk w))
                  (refs (root_url +:+ "catalog.xml")) w0 K0) as K1.
    rewrite H1 in K1. cbn [snd] in K1.
    pose proof (experiments_loop_keeps _ (catalog_of_model root_url) _
                  (fun url => ccmi2022_titles_keeps_disk E url (disk w))
                  (length (refs (root_url +:+ "catalog.xml"))) l1.1 l1.2
                  wa K1) as K2.
    rewrite H2 in K2. exact K2. }
  pose proof (simulations_loop_keeps_disk E root_url
                (length (refs (root_url +:+ "catalog.xml"))) l2.1 l1.2 l2.2
                (disk w) wb Hd) as K3.
  destruct (Ccmi2022.simulations_loop E root_url
              (length (refs (root_url +:+ "catalog.xml"))) l2.1 l1.2 l2.2 wb)
    as [[l3|e] w3] eqn:H3; cbn [snd] in K3.
  - exfalso. destruct Hrec as (Hnm & _).
    apply list_elem_of_lookup in Hin as [ii Hii].
    pose proof (models_loop_pairs _ _ _ _ _ _ H1) as [Hp _].
    pose proof (experiments_loop_pairs _ _ _ _ _ _ _ _ Hp H2) as Hp2.
    assert (Hn : l1.2 !! ii = Some (model_count refs (catalog_of_inst root_url)
                                      inst)).
    { rewrite Hnm, list_lookup_fmap, Hii. reflexivity. }
    pose proof (simulations_loop_single _ _ _ _ _ _ _ _ _ Hp2 H3 ii _
                  ltac:(now apply lookup_lt_Some in Hii) Hn) as Hle.
    unfold model_count in Hle. lia.
  - exists e, w3. split; [|exact K3]. unfold bind. now rewrite H3.
Qed.

Lemma ftp_inventory_second_model E droot s inst :
  (forall p, Ftp.enterable E p = true) ->
  starts_with_slash droot = true ->
  inst ∈ Ftp.names_of E Ftp.TypeDir droot ->
  (2 <= length (Ftp.names_of E Ftp.TypeDir (Ftp.dir_of_inst droot inst)))%nat ->
  exists e s', ftp_inventory_to_simulations E droot s = (Raise e, s').
Proof.
  intros Henter Habs Hin Htwo. unfold ftp_inventory_to_simulations.
  destruct (ftp_dirs_of_stub E droot s Henter Habs) as (s0 & H0).
  rewrite (bind_ok _ _ _ _ _ H0).
  destruct (levels_spec (Ftp.dirs_of E) (Ftp.dir_of_inst droot)
              (Ftp.dir_of_model droot) (Ftp.names_of E Ftp.TypeDir)
              (fun url => starts_with_slash url = true)
              (fun url s1 Hurl => ftp_dirs_of_stub E url s1 Henter Hurl)
              (fun inst => starts_with_slash_app _ _ Habs)
              (fun inst model => starts_with_slash_app _ _ Habs)
              (Ftp.names_of E Ftp.TypeDir droot) s0)
    as (invntry & nmdls & nxpts & s1 & Hrun & Hrec).
  apply bind_inv_ok in Hrun as (l1 & sa & H1 & Hrun).
  apply bind_inv_ok in Hrun as (l2 & sb & H2 & Hrun).
  injection Hrun as <- <- <- <-.
  rewrite (bind_ok _ _ _ _ _ H1), (bind_ok _ _ _ _ _ H2).
  destruct (ftp_simulations_loop E droot
              (length (Ftp.names_of E Ftp.TypeDir droot)) l2.1 l1.2 l2.2 sb)
    as [[l3|e] s3] eqn:H3.
  - exfalso. destruct Hrec as (Hnm & _).
    apply list_elem_of_lookup in Hin as [ii Hii].
    pose proof (models_loop_pairs _ _ _ _ _ _ H1) as [Hp _].
    pose proof (experiments_loop_pairs _ _ _ _ _ _ _ _ Hp H2) as Hp2.
    assert (Hn : l1.2 !! ii
                 = Some (model_count (Ftp.names_of E Ftp.TypeDir)
                           (Ftp.dir_of_inst droot) inst)).
    { rewrite Hnm, list_lookup_fmap, Hii. reflexivity. }
    pose proof (ftp_simulations_loop_single _ _ _ _ _ _ _ _ _ Hp2 H3 ii _
                  ltac:(now apply lookup_lt_Some in Hii) Hn) as Hle.
    unfold model_count in Hle. lia.
  - exists e, s3. unfold bind. now rewrite H3.
Qed.

(** Whenever the CCMI-2022 builder returns, each array of counts has
    one entry per node of the level above: its length is the sum of the
    counts recorded there. *)
Lemma ccmi2022_builder_lengths E inventory_file root_url w T w' :
  Ccmi2022.create_inventory_file E inventory_file root_url w = (Ok T, w') ->
  exists invntry nmdls nxpts nsims ntabs nvars,
    T = PList [invntry; PList [PInt (Z.of_nat (length nmdls))];
               PList (py_len_list nmdls); PList (py_len_list nxpts);
               PList (py_len_list nsims); PList (py_len_list ntabs);
               PList (py_len_list nvars)]
    /\ length nxpts = sum_list nmdls
    /\ length nsims = sum_list nxpts
    /\ length ntabs = sum_list nsims
    /\ length nvars = sum_list ntabs.
Proof.
  intros Hrun. unfold Ccmi2022.create_inventory_file in Hrun.
  apply bind_inv_ok in Hrun as (instts & w1 & _ & Hrun).
  apply bind_inv_ok in Hrun as (l1 & w2 & H1 & Hrun).
  apply bind_inv_ok in Hrun as (l2 & w3 & H2 & Hrun).
  apply bind_inv_ok in Hrun as (l3 & w4 & H3 & Hrun).
  apply bind_inv_ok in Hrun as (l4 & w5 & H4 & Hrun).
  apply bind_inv_ok in Hrun as (l5 & w6 & H5 & Hrun).
  apply bind_inv_ok in Hrun as (u & w7 & _ & Hrun).
  injection Hrun as <- _.
  apply models_loop_pairs in H1 as [_ Hlen].
  apply experiments_loop_length in H2. apply simulations_loop_length in H3.
  apply tables_loop_length in H4. apply variables_loop_length in H5.
  exists l5.1, l1.2, l2.2, l3.2, l4.2, l5.2. rewrite Hlen. now repeat split.
Qed.

(** C6. Over a lister stub that reports fixed children for every
    container, the CCMI-1 builder returns an inventory that records the
    number of institutions, for each institution the number of models
    the stub reports, for each model the number of experiments the stub
    reports, as many experiment counts as there are models in all, and
    an entry per institution holding that many model names and
    experiments, wherever the positional insertions put them; levels 1
    and 2 of the CCMI-2022 and FTP scripts record the same. Below them
    these two scripts read the models of an institution at
    [invntry[ii][ij]], where level 1 put them in [invntry[ii][1]]: over
    a stub with an institution of two models or more they raise and
    leave no inventory. Whenever the CCMI-2022 builder returns, each of
    its arrays of counts has as many entries as the counts of the level
    above add up to; on the archive of one simulation it returns the
    inventory of that archive. *)
Theorem builder_child_counts_and_second_models :
  (forall (refs files : string -> list string)
          (inventory_file root_url : string) (w : world),
      disk w !! inventory_file <> Some Directory ->
      exists invntry nmdls nxpts w',
        Ccmi1.create_inventory_file (stub_env refs files) inventory_file
          root_url w
        = (Ok (PList [invntry;
                      PList [PInt (Z.of_nat
                                     (length (refs (root_url +:+ "catalog.xml"))))];
                      PList (py_len_list nmdls); PList (py_len_list nxpts)]),
           w')
        /\ levels_recorded refs (catalog_of_inst root_url)
             (catalog_of_model root_url) (refs (root_url +:+ "catalog.xml"))
             invntry nmdls nxpts)
  /\ (forall (refs files : string -> list string) (root_url : string)
             (w : world),
        let E := stub_env refs files in
        let instts := refs (root_url +:+ "catalog.xml") in
        exists invntry nmdls nxpts w',
          (l1 <- models_loop (Ccmi2022.titles E) (catalog_of_inst root_url)
                   instts ;;
           l2 <- experiments_loop (Ccmi2022.titles E)
                   (catalog_of_model root_url) (length instts) l1.1 l1.2 ;;
           ret (l2.1, l1.2, l2.2)) w
          = (Ok (invntry, nmdls, nxpts), w')
          /\ levels_recorded refs (catalog_of_inst root_url)
               (catalog_of_model root_url) instts invntry nmdls nxpts)
  /\ (forall (E : Ftp.server) (droot : string) (s : Ftp.session),
        (forall p, Ftp.enterable E p = true) ->
        starts_with_slash droot = true ->
        exists invntry nmdls nxpts s',
          Ftp.inventory_levels E droot s = (Ok (invntry, nmdls, nxpts), s')
          /\ levels_recorded (Ftp.names_of E Ftp.TypeDir)
               (Ftp.dir_of_inst droot) (Ftp.dir_of_model droot)
               (Ftp.names_of E Ftp.TypeDir droot) invntry nmdls nxpts)
  /\ (forall (refs files : string -> list string)
             (inventory_file root_url : string) (w : world) (inst : string),
        inst ∈ refs (root_url +:+ "catalog.xml") ->
        (2 <= length (refs (catalog_of_inst root_url inst)))%nat ->
        exists e w',
          Ccmi2022.create_inventory_file (stub_env refs files) inventory_file
            root_url w = (Raise e, w')
          /\ disk w' = disk w)
  /\ (forall (E : Ftp.server) (droot : string) (s : Ftp.session)
             (inst : string),
        (forall p, Ftp.enterable E p = true) ->
        starts_with_slash droot = true ->
        inst ∈ Ftp.names_of E Ftp.TypeDir droot ->
        (2 <= length (Ftp.names_of E Ftp.TypeDir
                        (Ftp.dir_of_inst droot inst)))%nat ->
        exists e s', ftp_inventory_to_simulations E droot s = (Raise e, s'))
  /\ (forall (E : env) (inventory_file root_url : string) (w : world)
             (T : pyval) (w' : world),
        Ccmi2022.create_inventory_file E inventory_file root_url w
        = (Ok T, w') ->
        exists invntry nmdls nxpts nsims ntabs nvars,
          T = PList [invntry; PList [PInt (Z.of_nat (length nmdls))];
                     PList (py_len_list nmdls); PList (py_len_list nxpts);
                     PList (py_len_list nsims); PList (py_len_list ntabs);
                     PList (py_len_list nvars)]
          /\ length nxpts = sum_list nmdls
          /\ length nsims = sum_list nxpts
          /\ length ntabs = sum_list nsims
          /\ length nvars = sum_list ntabs)
  /\ (Ccmi2022.create_inventory_file dated_archive "inventory" "R/"
        empty_world).1 = Ok dated_inventory
  /\ (Ccmi2022.create_inventory_file (stub_env two_models_refs (fun _ => []))
        "inventory" "R/" empty_world).1 = Raise IndexError.
Proof.
  split; [|split; [|split; [|split; [|split; [|split; [|split]]]]]].
  - intros refs files inventory_file root_url w Hdir.
    unfold Ccmi1.create_inventory_file.
    destruct (ccmi1_titles_stub refs files (root_url +:+ "catalog.xml") w I)
      as (w0 & H0).
    rewrite (bind_ok _ _ _ _ _ H0).
    destruct (levels_spec (Ccmi1.titles (stub_env refs files))
                (catalog_of_inst root_url) (catalog_of_model root_url) refs
                (fun _ => True) (ccmi1_titles_stub refs files)
                (fun _ => I) (fun _ _ => I)
                (refs (root_url +:+ "catalog.xml")) w0)
      as (invntry & nmdls & nxpts & w1 & Hrun & Hrec).
    apply bind_inv_ok in Hrun as (l1 & wa & H1 & Hrun).
    apply bind_inv_ok in Hrun as (l2 & wb & H2 & Hrun).
    injection Hrun as <- <- <- <-.
    rewrite (bind_ok _ _ _ _ _ H1), (bind_ok _ _ _ _ _ H2).
    assert (Hd : disk wb = disk w).
    { pose proof (ccmi1_titles_keeps_disk (stub_env refs files)
                    (root_url +:+ "catalog.xml") (disk w) w eq_refl) as K0.
      rewrite H0 in K0. cbn [snd] in K0.
      pose proof (models_loop_keeps _ (catalog_of_inst root_url) _
                    (fun url => ccmi1_titles_keeps_disk (stub_env refs files)
                                  url (disk w))
                    (refs (root_url +:+ "catalog.xml")) w0 K0) as K1.
      rewrite H1 in K1. cbn [snd] in K1.
      pose proof (experiments_loop_keeps _ (catalog_of_model root_url) _
                    (fun url => ccmi1_titles_keeps_disk (stub_env refs files)
                                  url (disk w))
                    (length (refs (root_url +:+ "catalog.xml"))) l1.1 l1.2
                    wa K1) as K2.
      rewrite H2 in K2. exact K2. }
    rewrite <- Hd in Hdir.
    eexists _, _, _, _. split; [|exact Hrec].
    erewrite bind_ok; [reflexivity|].
    apply write_file_written; [exact Hdir | reflexivity].
  - intros refs files root_url w E instts.
    apply (levels_spec (Ccmi2022.titles E) (catalog_of_inst root_url)
             (catalog_of_model root_url) refs (fun _ => True)
             (ccmi2022_titles_stub refs files) (fun _ => I) (fun _ _ => I)).
  - intros E droot s Henter Habs. unfold Ftp.inventory_levels.
    destruct (ftp_dirs_of_stub E droot s Henter Habs) as (s0 & H0).
    rewrite (bind_ok _ _ _ _ _ H0).
    apply (levels_spec (Ftp.dirs_of E) (Ftp.dir_of_inst droot)
             (Ftp.dir_of_model droot) (Ftp.names_of E Ftp.TypeDir)
             (fun url => starts_with_slash url = true)).
    + intros url s1 Hurl. now apply ftp_dirs_of_stub.
    + intros inst. now apply starts_with_slash_app.
    + intros inst model. now apply starts_with_slash_app.
  - intros refs files inventory_file root_url w inst.
    apply ccmi2022_builder_second_model.
  - intros E droot s inst. apply ftp_inventory_second_model.
  - intros E inventory_file root_url w T w'. apply ccmi2022_builder_lengths.
  - vm_compute. reflexivity.
  - vm_compute. reflexivity.
Qed.

(** C6 at the archive of the end-to-end scenario, where the CCMI-1
    builder returns, and at the archive of an institution with two
    models, where the CCMI-2022 builder raises. *)
Lemma builder_child_counts_and_second_models_witness :
  (exists invntry nmdls nxpts w',
      Ccmi1.create_inventory_file (stub_env scenario_refs (fun _ => []))
        "inventory" "R/" empty_world
      = (Ok (PList [invntry;
                    PList [PInt (Z.of_nat
                                   (length (scenario_refs ("R/" +:+ "catalog.xml"))))];
                    PList (py_len_list nmdls); PList (py_len_list nxpts)]),
         w')
      /\ levels_recorded scenario_refs (catalog_of_inst "R/")
           (catalog_of_model "R/") (scenario_refs ("R/" +:+ "catalog.xml"))
           invntry nmdls nxpts)
  /\ (exists e w',
        Ccmi2022.create_inventory_file (stub_env two_models_refs (fun _ => []))
          "inventory" "R/" empty_world = (Raise e, w')
        /\ disk w' = disk empty_world).
Proof.
  split.
  - apply (proj1 builder_child_counts_and_second_models scenario_refs
             (fun _ => []) "inventory" "R/" empty_world).
    vm_compute. discriminate.
  - apply (proj1 (proj2 (proj2 (proj2 builder_child_counts_and_second_models)))
             two_models_refs (fun _ => []) "inventory" "R/" empty_world
             "InstA").
    + apply list_elem_of_lookup. now exists 0%nat.
    + vm_compute. lia.
Defined.

(** ** The live search of the CCMI-1 script *)

Section Triples.
Context {W : Type}.
Implicit Types I : W -> Prop.

Lemma triple_ret {A} I (a : A) (Q : A -> Prop) X : Q a -> triple I (ret a) Q X.
Proof. intros Ha w Hw. now split. Qed.

Lemma triple_bind {A B} I (m : io W A) (k : A -> io W B) Q Q' X :
  triple I m Q X -> (forall a, Q a -> triple I (k a) Q' X) ->
  triple I (bind m k) Q' X.
Proof.
  intros Hm Hk w Hw. unfold bind. specialize (Hm w Hw).
  destruct (m w) as [[a|e] w1]; [|exact Hm].
  destruct Hm as [Hw1 Ha]. now apply Hk.
Qed.

Lemma triple_map {A B} I (f : A -> B) (m : io W A) Q Q' X :
  triple I m Q X -> (forall a, Q a -> Q' (f a)) -> triple I (f <$$> m) Q' X.
Proof.
  intros Hm Hf. eapply triple_bind; [exact Hm|].
  intros a Ha. apply triple_ret. now apply Hf.
Qed.

Lemma triple_try {A} I (body : io W A) handler Q X X' :
  triple I body Q X -> (forall e, X e -> triple I (handler e) Q X') ->
  triple I (try_except body handler) Q X'.
Proof.
  intros Hb Hh w Hw. unfold try_except. specialize (Hb w Hw).
  destruct (body w) as [[a|e] w1]; [exact Hb|].
  destruct Hb as [Hw1 He]. now apply Hh.
Qed.

Lemma triple_fold_each {A B} I (xs : list A) (body : B -> A -> io W B) Q X :
  (forall acc x, x ∈ xs -> Q acc -> triple I (body acc x) Q X) ->
  forall acc, Q acc -> triple I (fold_each xs acc body) Q X.
Proof.
  induction xs as [|x xs IH]; intros Hbody acc Hacc.
  - now apply triple_ret.
  - cbn [fold_each]. eapply triple_bind.
    + apply Hbody; [left | exact Hacc].
    + intros acc' Hacc'. apply IH; [|exact Hacc'].
      intros acc0 y Hy. apply Hbody. now right.
Qed.

Lemma triple_weaken {A} I (m : io W A) (Q Q' : A -> Prop) (X X' : exn -> Prop) :
  triple I m Q X -> (forall a, Q a -> Q' a) -> (forall e, X e -> X' e) ->
  triple I m Q' X'.
Proof.
  intros Hm HQ HX w Hw. specialize (Hm w Hw).
  destruct (m w) as [[a|e] w1]; destruct Hm; split; auto.
Qed.

Lemma triple_keeps {A} I (m : io W A) Q X : triple I m Q X -> keeps I m.
Proof.
  intros Hm w Hw. specialize (Hm w Hw).
  now destruct (m w) as [[a|e] w1]; destruct Hm.
Qed.

Lemma triple_keeps_bind {A B} I (m : io W A) (k : A -> io W B) Q X :
  triple I m Q X -> (forall a, Q a -> keeps I (k a)) -> keeps I (bind m k).
Proof.
  intros Hm Hk w Hw. unfold bind. specialize (Hm w Hw).
  destruct (m w) as [[a|e] w1]; destruct Hm as [Hw1 Ha]; [|exact Hw1].
  now apply Hk.
Qed.
End Triples.

Section LiveSearch.
Variable E : env.
Variables (root_url : string) (trgexpt : list string).

(** [I] is a property of the world that the search is to maintain, [P]
    the URLs that may be listed under it, [N] what is known of the names
    that a listing returns and [X] of the exceptions it raises. *)
Variable I : world -> Prop.
Variable P : string -> Prop.
Variable N : string -> Prop.
Variable X : exn -> Prop.
Hypothesis titles_triple : forall url,
  P url -> triple I (Ccmi1.titles E url) (Forall N) X.
Hypothesis files_triple : forall url,
  P url ->
  triple I (Ccmi1.get_elements E url default_dataset default_dataset urlPath)
    (fun _ => True) X.
Hypothesis I_caught : forall site e w, X e -> I w -> I (note_caught site w).
Hypothesis P_root : P (root_url +:+ "catalog.xml").
Hypothesis P_inst : forall inst,
  N inst -> P (root_url +:+ inst +:+ "/catalog.xml").
Hypothesis P_expt : forall inst model expt rest,
  N inst -> N model -> expt ∈ trgexpt ->
  P (root_url +:+ (inst +:+ "/" +:+ model +:+ "/" +:+ expt) +:+ "/" +:+ rest).

Local Abbreviation never := (fun _ : exn => False).
Local Abbreviation any := (fun _ => True).

Lemma below_child path name :
  below P root_url path -> below P root_url (path +:+ "/" +:+ name).
Proof.
  intros H rest. specialize (H (name +:+ "/" +:+ rest)).
  now rewrite !string_app_assoc.
Qed.

Lemma below_catalog path :
  below P root_url path -> P (root_url +:+ path +:+ "/catalog.xml").
Proof. intros H. apply (H "catalog.xml"). Qed.

(** A [try] whose handler records the clause and goes on lets no
    exception through. *)
Lemma guarded_triple {A} site (body : io world (option A)) :
  triple I body any X -> triple I (Ccmi1.guarded site body) any never.
Proof.
  intros Hb. unfold Ccmi1.guarded. eapply triple_try; [exact Hb|].
  intros e He w Hw. cbn. split; [now apply (I_caught site e) | exact Logic.I].
Qed.

Lemma search_variables_triple var_path trgvar variables found_files :
  below P root_url var_path ->
  triple I (Ccmi1.search_variables E root_url var_path trgvar variables
              found_files) any never.
Proof.
  intros Hb. apply triple_fold_each; [|exact Logic.I]. intros acc var _ _.
  destruct (Ccmi1.member var variables); [|now apply triple_ret].
  eapply triple_try.
  - eapply triple_bind; [|intros; now apply triple_ret].
    apply files_triple.
    apply (below_catalog (var_path +:+ "/" +:+ var)). now apply below_child.
  - intros e He w Hw. cbn. split; [now apply (I_caught "files" e) | exact Logic.I].
Qed.

Lemma search_versions_triple version_path trgvar versions found_files :
  below P root_url version_path ->
  triple I (Ccmi1.search_versions E root_url version_path trgvar versions
              found_files) any never.
Proof.
  intros Hb. apply triple_fold_each; [|exact Logic.I]. intros acc version _ _.
  pose proof (below_child _ version Hb) as Hc.
  eapply triple_bind.
  - apply guarded_triple. eapply triple_map; [|intros; exact Logic.I].
    apply titles_triple. now apply below_catalog.
  - intros [variables|] _; [|now apply triple_ret].
    now apply search_variables_triple.
Qed.

Lemma search_ensembles_triple ensemble_path trgvar ensembles found_files :
  below P root_url ensemble_path ->
  triple I (Ccmi1.search_ensembles E root_url ensemble_path trgvar ensembles
              found_files) any never.
Proof.
  intros Hb. apply triple_fold_each; [|exact Logic.I]. intros acc ensemble _ _.
  pose proof (below_child _ ensemble Hb) as Hc.
  eapply triple_bind.
  - apply guarded_triple. eapply triple_map; [|intros; exact Logic.I].
    apply titles_triple. now apply below_catalog.
  - intros [versions|] _; [|now apply triple_ret].
    now apply search_versions_triple.
Qed.

Lemma search_experiment_triple trgvar trgfreq trgrealm trgfreqname
    inst model found_files expt :
  N inst -> N model -> expt ∈ trgexpt ->
  triple I (Ccmi1.search_experiment E root_url trgvar trgfreq trgrealm
              trgfreqname inst model found_files expt) any never.
Proof.
  intros Hinst Hmodel Hin. unfold Ccmi1.search_experiment.
  assert (Hb : below P root_url (inst +:+ "/" +:+ model +:+ "/" +:+ expt)).
  { intros rest. now apply P_expt. }
  pose proof (below_child _ trgfreq Hb) as Hf.
  pose proof (below_child _ trgrealm Hf) as Hr.
  pose proof (below_child _ trgfreqname Hr) as Hn.
  rewrite !string_app_assoc in Hf, Hr, Hn.
  eapply triple_bind.
  { apply guarded_triple.
    eapply triple_bind; [|intros; now apply triple_ret].
    apply titles_triple.
    generalize (below_catalog _ Hf). now rewrite !string_app_assoc. }
  intros [_|] _; [|now apply triple_ret].
  eapply triple_bind.
  { apply guarded_triple.
    eapply triple_bind; [|intros; now apply triple_ret].
    apply titles_triple.
    generalize (below_catalog _ Hr). now rewrite !string_app_assoc. }
  intros [_|] _; [|now apply triple_ret].
  eapply triple_bind.
  { apply guarded_triple. eapply triple_map; [|intros; exact Logic.I].
    apply titles_triple.
    generalize (below_catalog _ Hn). now rewrite !string_app_assoc. }
  intros [ensembles|] _; [|now apply triple_ret].
  apply search_ensembles_triple.
  intros rest. generalize (Hn rest). now rewrite !string_app_assoc.
Qed.

Lemma search_institution_triple trgvar trgfreq trgrealm trgfreqname
    found_files inst :
  N inst ->
  triple I (Ccmi1.search_institution E root_url trgexpt trgvar trgfreq
              trgrealm trgfreqname found_files inst) any never.
Proof.
  intros Hinst. unfold Ccmi1.search_institution.
  eapply (triple_bind _ _ _
            (fun r => match r with Some models => Forall N models | None => True end)).
  - unfold Ccmi1.guarded. eapply triple_try.
    + eapply triple_map; [apply titles_triple, P_inst, Hinst|].
      intros models Hm. exact Hm.
    + intros e He w Hw. cbn. split; [now apply (I_caught "models" e) | exact Logic.I].
  - intros [models|] Hmodels; [|now apply triple_ret].
    apply triple_fold_each; [|exact Logic.I]. intros acc model Hmodel _.
    apply triple_fold_each; [|exact Logic.I]. intros acc' expt Hin _.
    apply search_experiment_triple; [exact Hinst | | exact Hin].
    rewrite Forall_forall in Hmodels. now apply Hmodels.
Qed.

(** The whole search keeps [I]; it raises only what the listing of the
    root catalog or the writing of the log raises. *)
Lemma search_inventory_ccmi1_keeps trgvar trgfreq trgrealm trgfreqname :
  (forall d w, I w -> I (set_disk d w)) ->
  keeps I (Ccmi1.search_inventory_ccmi1 E root_url trgexpt trgvar trgfreq
             trgrealm trgfreqname).
Proof.
  intros I_disk. unfold Ccmi1.search_inventory_ccmi1.
  eapply triple_keeps_bind; [apply titles_triple, P_root|].
  intros instts Hinstts.
  eapply (triple_keeps_bind _ _ _ any never).
  - apply triple_fold_each; [|exact Logic.I]. intros acc inst Hin _.
    apply search_institution_triple.
    rewrite Forall_forall in Hinstts. now apply Hinstts.
  - intros found _. apply keeps_bind; [now apply write_file_keeps|].
    intros _. apply keeps_ret.
Qed.
End LiveSearch.

(** *** Names, slashes and the catalogs of another branch *)

Lemma has_char_app c a b :
  has_char c (a +:+ b) = has_char c a || has_char c b.
Proof.
  induction a as [|d a IH]; [reflexivity|].
  rewrite app_String. cbn [has_char]. now rewrite IH, orb_assoc.
Qed.

(** Two names without slashes that are followed by a slash in the same
    text are the same name. *)
Lemma slash_free_split a a' b b' :
  slash_free a -> slash_free a' ->
  a +:+ String slash b = a' +:+ String slash b' -> a = a' /\ b = b'.
Proof.
  unfold slash_free. revert a'.
  induction a as [|c a IH]; intros [|c' a'] Ha Ha' H;
    rewrite ?app_String, ?app_empty_l in H.
  - injection H as ->. now split.
  - injection H as <- _. cbn [has_char] in Ha'.
    now rewrite Ascii.eqb_refl in Ha'.
  - injection H as -> _. cbn [has_char] in Ha.
    now rewrite Ascii.eqb_refl in Ha.
  - injection H as <- H. cbn [has_char] in Ha, Ha'.
    apply orb_false_iff in Ha as [_ Ha], Ha' as [_ Ha'].
    destruct (IH a' Ha Ha' H) as [-> ->]. now split.
Qed.

(** No catalog below [inst/model/expt], for an experiment that is not
    a target, is among the listing calls the live search may issue. *)
Lemma other_branch_not_issued root_url trgexpt inst model expt rest :
  slash_free inst -> slash_free model -> slash_free expt ->
  Forall slash_free trgexpt -> expt ∉ trgexpt ->
  ~ issued_by_search root_url trgexpt
      (root_url +:+ inst +:+ "/" +:+ model +:+ "/" +:+ expt +:+ "/" +:+ rest).
Proof.
  intros Hinst Hmodel Hexpt Htrg Hnot [H|[(i & Hi & H)|(i & m & e & r & Hi & Hm & He & H)]];
    apply (inj (String.app root_url)) in H.
  - assert (Hs : has_char slash "catalog.xml" = true)
      by (rewrite <- H, has_char_app; cbn; now rewrite orb_true_r).
    discriminate.
  - apply (slash_free_split inst i) in H as [_ H]; [|assumption..].
    assert (Hs : has_char slash "catalog.xml" = true)
      by (rewrite <- H, has_char_app; cbn; now rewrite orb_true_r).
    discriminate.
  - apply (slash_free_split inst i) in H as [_ H]; [|assumption..].
    apply (slash_free_split model m) in H as [_ H]; [|assumption..].
    apply (slash_free_split expt e) in H as [-> _]; [contradiction|assumption|].
    rewrite Forall_forall in Htrg. now apply Htrg.
Qed.

Section Provenance.
Variable E : env.

Lemma ccmi1_retry_loop_returned url ntries :
  forall w res w',
    Ccmi1.retry_loop E ntries url w = (Ok (Returned res), w') -> res = [].
Proof.
  induction ntries as [|ntry ntries IH]; intros w res w' H;
    cbn [Ccmi1.retry_loop] in H; [discriminate|].
  unfold bind at 1, do_urlopen in H.
  destruct (urlopen E (opened w) url).
  - discriminate.
  - destruct (ntry =? 4)%nat; [now injection H as <- | now apply IH in H].
  - now injection H as <-.
  - discriminate.
Qed.

(** What the CCMI-1 listing call returns is empty or read in a catalog
    that the server sent for the URL. *)
Lemma ccmi1_get_elements_from url tag1 tag2 attribute_name w l w' :
  Ccmi1.get_elements E url tag1 tag2 attribute_name w = (Ok l, w') ->
  l = []
  \/ exists history root,
       urlopen E history url = Opened (Document root)
       /\ l = Ccmi1.attributes_of root tag1 tag2 attribute_name.
Proof.
  unfold Ccmi1.get_elements. intros H.
  apply bind_inv_ok in H as (u & w1 & _ & H).
  apply bind_inv_ok in H as (r & w2 & Hr & H).
  destruct r as [result|[[|root|]|]]; [| | |discriminate|];
    injection H as <- _.
  - left. now apply ccmi1_retry_loop_returned in Hr.
  - now left.
  - right. apply ccmi1_retry_loop_body in Hr as (history & Hh). eauto.
  - now left.
Qed.

Lemma ccmi1_titles_slash_free url w l w' :
  slash_free_listings E ->
  Ccmi1.titles E url w = (Ok l, w') -> Forall slash_free l.
Proof.
  intros HE H. apply ccmi1_get_elements_from in H as [->|(h & root & Ho & ->)];
    [constructor | now apply (HE h url)].
Qed.
End Provenance.

Lemma stub_slash_free_listings refs files :
  (forall url, Forall slash_free (refs url)) ->
  slash_free_listings (stub_env refs files).
Proof.
  intros H history url root Ho. cbn in Ho. injection Ho as <-.
  rewrite ccmi1_attributes_of_stub. apply H.
Qed.

(** C4. In the live search over a server whose catalogs name their
    sub-catalogs without slashes, whatever else the server answers,
    every listing call is for the root catalog, for the catalog of the
    directory of an institution, or for a catalog below
    [inst/model/expt] with [expt] one of the target experiments; so no
    listing call is issued for a catalog in the branch of an experiment
    that is not a target: with [trgexpt = ['refC1']], none below
    [inst/model/refC2]. *)
Theorem live_search_lists_only_target_experiments
    (E : env) (root_url : string) (trgexpt trgvar : list string)
    (trgfreq trgrealm trgfreqname : string) (w : world) :
  slash_free_listings E ->
  exists calls,
    listed (Ccmi1.search_inventory_ccmi1 E root_url trgexpt trgvar trgfreq
              trgrealm trgfreqname w).2 = listed w ++ calls
    /\ Forall (issued_by_search root_url trgexpt) calls
    /\ forall inst model expt rest,
         slash_free inst -> slash_free model -> slash_free expt ->
         Forall slash_free trgexpt -> expt ∉ trgexpt ->
         root_url +:+ inst +:+ "/" +:+ model +:+ "/" +:+ expt +:+ "/" +:+ rest
         ∉ calls.
Proof.
  intros HE.
  set (I := fun w' : world =>
    exists calls, listed w' = listed w ++ calls
                  /\ Forall (issued_by_search root_url trgexpt) calls).
  assert (Hlisted : forall url k w',
             issued_by_search root_url trgexpt url -> I w' ->
             I (note_listed url (opened_more k url w'))).
  { intros url k w' HP (calls & Hc & Hall). exists (calls ++ [url]). split.
    - cbn. rewrite Hc. now rewrite app_assoc.
    - apply Forall_app. split; [exact Hall | now constructor]. }
  assert (Hget : forall url tag1 tag2 attribute_name,
             issued_by_search root_url trgexpt url ->
             triple I (Ccmi1.get_elements E url tag1 tag2 attribute_name)
               (fun l => tag1 = default_dataset -> tag2 = default_catalogRef ->
                         attribute_name = xlink_title -> Forall slash_free l)
               (fun _ => True)).
  { intros url tag1 tag2 attribute_name HP w0 Hw0.
    destruct (ccmi1_get_elements_attempts E url tag1 tag2 attribute_name w0)
      as (r & k & Hr & _).
    rewrite Hr. destruct r as [l|e]; (split; [now apply Hlisted|]); [|exact Logic.I].
    intros -> -> ->. now apply (ccmi1_titles_slash_free E url w0 l _ HE Hr). }
  assert (HI : I (Ccmi1.search_inventory_ccmi1 E root_url trgexpt trgvar trgfreq
                    trgrealm trgfreqname w).2).
  { apply (search_inventory_ccmi1_keeps E root_url trgexpt I
             (issued_by_search root_url trgexpt) slash_free (fun _ => True)).
    - intros url HP. unfold Ccmi1.titles.
      eapply triple_weaken; [now apply Hget | | auto].
      intros l Hl. now apply Hl.
    - intros url HP. eapply triple_weaken; [now apply Hget | auto | auto].
    - intros site e w' _ H. exact H.
    - now left.
    - intros inst Hinst. right. left. now exists inst.
    - intros inst model expt rest Hinst Hmodel Hin. right. right.
      exists inst, model, expt, rest. repeat split; try assumption.
      now rewrite !string_app_assoc.
    - intros d w' H. exact H.
    - exists []. split; [now rewrite app_nil_r | constructor]. }
  destruct HI as (calls & Hc & Hall). exists calls.
  split; [exact Hc|]. split; [exact Hall|].
  intros inst model expt rest Hinst Hmodel Hexpt Htrg Hnot Hin.
  rewrite Forall_forall in Hall.
  now apply (other_branch_not_issued root_url trgexpt inst model expt rest
               Hinst Hmodel Hexpt Htrg Hnot), Hall.
Qed.

Lemma versions_archive_slash_free : slash_free_listings versions_archive.
Proof.
  apply stub_slash_free_listings. intros url.
  repeat (match goal with
          | |- context [String.eqb url ?s] => destruct (String.eqb url s)
          end; [repeat constructor|]).
  constructor.
Qed.

(** C4 on the archive of two versions, searched for [refC1]: no catalog
    below [I/M/refC2] is listed. *)
Lemma live_search_lists_only_target_experiments_witness :
  exists calls,
    listed (Ccmi1.search_inventory_ccmi1 versions_archive "R/" ["refC1"]
              ["zmcly"] "mon" "atmos" "monthly" empty_world).2
    = listed empty_world ++ calls
    /\ Forall (issued_by_search "R/" ["refC1"]) calls
    /\ forall inst model expt rest,
         slash_free inst -> slash_free model -> slash_free expt ->
         Forall slash_free ["refC1"] -> expt ∉ ["refC1"] ->
         "R/" +:+ inst +:+ "/" +:+ model +:+ "/" +:+ expt +:+ "/" +:+ rest
         ∉ calls.
Proof.
  apply (live_search_lists_only_target_experiments versions_archive "R/"
           ["refC1"] ["zmcly"] "mon" "atmos" "monthly" empty_world).
  apply stub_slash_free_listings. intros url.
  repeat (match goal with
          | |- context [String.eqb url ?s] => destruct (String.eqb url s)
          end; [repeat constructor|]).
  constructor.
Defined.

(** *** The listing call at its interface *)

Lemma tag_path_of_name (q : qname) :
  plain_name (q_local q) = true ->
  tag_path_of (prefix_name (q_prefix q) +:+ ":" +:+ q_local q) = PlainTag q.
Proof.
  intros Hl. destruct q as [[] l]; cbn [q_prefix q_local prefix_name] in *;
    unfold tag_path_of.
  - change (split_colon ("default" +:+ ":" +:+ l)) with (Some ("default", l)).
    cbn beta iota. change (plain_name "default") with true.
    now rewrite Hl.
  - change (split_colon ("xlink" +:+ ":" +:+ l)) with (Some ("xlink", l)).
    cbn beta iota. change (plain_name "xlink") with true.
    now rewrite Hl.
Qed.

Lemma attributes_of_plain_paths lib root tag1 tag2 attribute_name q1 q2 :
  tag_path_of tag1 = PlainTag q1 ->
  tag_path_of tag2 = PlainTag q2 ->
  Ccmi1.attributes_of_paths lib root tag1 tag2 attribute_name
  = Ok (Ccmi1.attributes_of root q1 q2 attribute_name).
Proof.
  intros H1 H2. unfold Ccmi1.attributes_of_paths, Ccmi1.attributes_of,
    findall_path.
  rewrite H1. cbn [obind]. rewrite H2.
  induction (findall q1 root) as [|child children IH]; [reflexivity|].
  cbn [traverse obind] in *.
  destruct (traverse _ children) as [rows|]; [|discriminate].
  cbn [obind concat] in *. injection IH as IH. now rewrite bind_cons, IH.
Qed.

(** At two names with prefixes of [cedans], the listing call is the
    function [get_elements] of the names. *)
Lemma get_elements_of_plain_paths lib E url tag1 tag2 attribute_name q1 q2 w :
  tag_path_of tag1 = PlainTag q1 ->
  tag_path_of tag2 = PlainTag q2 ->
  Ccmi1.get_elements_of_paths lib E url tag1 tag2 attribute_name w
  = Ccmi1.get_elements E url q1 q2 attribute_name w.
Proof.
  intros H1 H2. unfold Ccmi1.get_elements_of_paths, Ccmi1.get_elements, bind.
  destruct (modify _ w) as [[u|e] w1]; [|reflexivity].
  destruct (Ccmi1.retry_loop E _ url w1) as [[[result|[[|root|]|]]|e] w2];
    try reflexivity.
  now rewrite (attributes_of_plain_paths lib root tag1 tag2 attribute_name
                 q1 q2 H1 H2).
Qed.

(** C10, amended. For two tag paths that are names with a prefix of
    [cedans], as the script passes them, and unless [urlopen] or the
    parser is interrupted, the CCMI-1 listing call returns a list for
    every URL and every behaviour of the server (HTTP errors, other
    errors, responses that do not parse, elements without the
    attribute), after at most five attempts; the calls of the script are
    such calls; and then no [except] clause around them in the live
    search is entered. A tag path with a prefix that [cedans] does not
    hold raises [SyntaxError] once a catalog is parsed, and an interrupt
    is not caught by the listing call. *)
Theorem ccmi1_get_elements_total :
  (forall (lib : string -> element -> outcome (list element)) (E : env)
          (url tag1 tag2 attribute_name : string) (q1 q2 : qname) (w : world),
      uninterrupted E ->
      tag_path_of tag1 = PlainTag q1 ->
      tag_path_of tag2 = PlainTag q2 ->
      exists l k,
        Ccmi1.get_elements_of_paths lib E url tag1 tag2 attribute_name w
        = (Ok l, note_listed url (opened_more k url w))
        /\ (k <= 5)%nat)
  /\ (forall (lib : string -> element -> outcome (list element)) (E : env)
             (url : string) (w : world),
        Ccmi1.titles E url w
        = Ccmi1.get_elements_of_paths lib E url "default:dataset"
            "default:catalogRef" "{http://www.w3.org/1999/xlink}title" w
        /\ Ccmi1.get_elements E url default_dataset default_dataset urlPath w
           = Ccmi1.get_elements_of_paths lib E url "default:dataset"
               "default:dataset" "urlPath" w)
  /\ (forall (E : env) (root_url : string) (trgexpt trgvar : list string)
             (trgfreq trgrealm trgfreqname : string) (w : world),
        uninterrupted E ->
        caught (Ccmi1.search_inventory_ccmi1 E root_url trgexpt trgvar
                  trgfreq trgrealm trgfreqname w).2 = caught w)
  /\ (forall (lib : string -> element -> outcome (list element)) (E : env)
             (url tag1 tag2 attribute_name : string) (root : element)
             (w : world),
        urlopen E (opened w) url = Opened (Document root) ->
        tag_path_of tag1 = UnknownPrefix ->
        Ccmi1.get_elements_of_paths lib E url tag1 tag2 attribute_name w
        = (Raise SyntaxError, note_listed url (opened_more 1 url w)))
  /\ (forall (E : env) (url : string) (tag1 tag2 : qname)
             (attribute_name : string) (w : world),
        urlopen E (opened w) url = OpenInterrupted
        \/ urlopen E (opened w) url = Opened ParseInterrupted ->
        Ccmi1.get_elements E url tag1 tag2 attribute_name w
        = (Raise KeyboardInterrupt, note_listed url (opened_more 1 url w))).
Proof.
  split; [|split; [|split; [|split]]].
  - intros lib E url tag1 tag2 attribute_name q1 q2 w HE H1 H2.
    rewrite (get_elements_of_plain_paths lib E url tag1 tag2 attribute_name
               q1 q2 w H1 H2).
    now apply ccmi1_get_elements_returns.
  - intros lib E url w. split; symmetry;
      now apply get_elements_of_plain_paths.
  - intros E root_url trgexpt trgvar trgfreq trgrealm trgfreqname w HE.
    assert (Hget : forall url tag1 tag2 attribute_name,
               triple (fun w' => caught w' = caught w)
                 (Ccmi1.get_elements E url tag1 tag2 attribute_name)
                 (fun _ => True) (fun _ => False)).
    { intros url tag1 tag2 attribute_name w0 Hw0.
      destruct (ccmi1_get_elements_returns E url tag1 tag2 attribute_name w0 HE)
        as (l & k & -> & _).
      now split. }
    apply (search_inventory_ccmi1_keeps E root_url trgexpt
             (fun w' => caught w' = caught w) (fun _ => True) (fun _ => True)
             (fun _ => False)); auto.
    + intros url _. unfold Ccmi1.titles.
      eapply triple_weaken; [apply Hget | | auto].
      intros l _. apply Forall_forall. auto.
    + intros site e w' [].
  - intros lib E url tag1 tag2 attribute_name root w Ho Htag.
    unfold Ccmi1.get_elements_of_paths, bind, modify, py_range. simpl.
    unfold bind, do_urlopen. simpl. rewrite Ho. simpl.
    unfold Ccmi1.attributes_of_paths, findall_path. now rewrite Htag.
  - intros E url tag1 tag2 attribute_name w Ho.
    unfold Ccmi1.get_elements, bind, modify, py_range. simpl.
    unfold bind, do_urlopen. simpl. now destruct Ho as [-> | ->].
Qed.

(** The amended C10 on the archive of two versions. *)
Lemma ccmi1_get_elements_total_witness :
  (exists l k,
      Ccmi1.get_elements_of_paths (fun _ _ => Raise SyntaxError)
        versions_archive "R/catalog.xml" "default:dataset"
        "default:catalogRef" xlink_title empty_world
      = (Ok l, note_listed "R/catalog.xml"
                 (opened_more k "R/catalog.xml" empty_world))
      /\ (k <= 5)%nat)
  /\ caught (Ccmi1.search_inventory_ccmi1 versions_archive "R/" ["refC1"]
               ["zmcly"] "mon" "atmos" "monthly" empty_world).2
     = caught empty_world.
Proof.
  split.
  - apply (proj1 ccmi1_get_elements_total (fun _ _ => Raise SyntaxError)
             versions_archive "R/catalog.xml" "default:dataset"
             "default:catalogRef" xlink_title default_dataset
             default_catalogRef empty_world).
    + intros history url. split; discriminate.
    + reflexivity.
    + reflexivity.
  - apply (proj1 (proj2 (proj2 ccmi1_get_elements_total)) versions_archive).
    intros history url. split; discriminate.
Defined.

(** C10, as stated, fails: a tag path whose prefix is not in [cedans]
    makes [findall] raise [SyntaxError] once the catalog is parsed,
    outside any [try] of the listing call; and an interrupted [urlopen]
    is not caught by the listing call, so that the [except] clause
    around the listing of the models is entered. *)
Lemma ccmi1_get_elements_can_raise :
  (Ccmi1.get_elements_of_paths (fun _ _ => Ok []) versions_archive
     "R/catalog.xml" "thredds:dataset" "default:catalogRef" xlink_title
     empty_world).1 = Raise SyntaxError
  /\ (Ccmi1.get_elements interrupting_archive "R/InstA/catalog.xml"
        default_dataset default_catalogRef xlink_title empty_world).1
     = Raise KeyboardInterrupt
  /\ caught (Ccmi1.search_inventory_ccmi1 interrupting_archive "R/"
               ["refC1"] ["zmcly"] "mon" "atmos" "monthly" empty_world).2
     = ["models"].
Proof. repeat split; vm_compute; reflexivity. Qed.
